(** * Resource lifecycle engine of geonode: a shallow embedding

    This development embeds [geonode/resource/manager.py] (class
    [ResourceManager]) and proves properties of its lifecycle operations.

    Modelling conventions.

    - The metadata store is a list of [Resource] rows (the polymorphic
      [ResourceBase] table) together with the object-permission grants kept by
      guardian.  Rows are found by [uuid] or by primary key, the way the
      querysets of the source find them; nothing in the model forces uuids to
      be unique, since [_get_instance] itself counts the matches.
    - A Python instance is a [Resource] value; every method that mutates the
      instance returns the mutated value.  [get_real_instance()] is the
      identity on such values.
    - Code runs in a state-and-exception monad over [World].  The world also
      carries a trace ([log]) of every write, collaborator call and public
      operation entered, newest event first.
    - Collaborators that are outside [manager.py] (the concrete manager,
      the storage manager, the metadata parser, the cascade deletes, ...) are
      described by a record [Collaborators]: an oracle says, for each call,
      whether it raises.  Their own writes are outside the model.
    - The instance methods of the ORM ([save], [set_processing_state],
      [set_dirty_state], [set_missing_info]) and the post-save hook are total.
    - [get_anonymous_user()] is taken to answer; the lookups of a group
      ([Group.objects.get]) and of a user ([get_user_model().objects.get])
      are calls that may raise.
    - [transaction.atomic] restores rows and grants when its body raises; the
      trace and in-memory instances are not restored. *)

From Stdlib Require Import String List Bool Arith Lia.
Import ListNotations.
Open Scope string_scope.

(* ================================================================= *)
(** ** Data model *)

(** [enumerations.STATE_*]: the three processing states of the engine. *)
Inductive ProcessingState : Type :=
| STATE_RUNNING
| STATE_PROCESSED
| STATE_INVALID.

Definition state_eqb (a b : ProcessingState) : bool :=
  match a, b with
  | STATE_RUNNING, STATE_RUNNING => true
  | STATE_PROCESSED, STATE_PROCESSED => true
  | STATE_INVALID, STATE_INVALID => true
  | _, _ => false
  end.

(** The model classes [isinstance] is asked about. *)
Inductive Model : Type :=
| ResourceBase
| Dataset
| Document
| Map
| OtherModel (name : string).

Definition model_eqb (a b : Model) : bool :=
  match a, b with
  | ResourceBase, ResourceBase => true
  | Dataset, Dataset => true
  | Document, Document => true
  | Map, Map => true
  | OtherModel x, OtherModel y => String.eqb x y
  | _, _ => false
  end.

(** One row of the [ResourceBase] table, and also an instance in memory.
    [pk] is [None] for an instance that was never saved. *)
Record Resource : Type := mkResource {
  pk : option nat;
  uuid : string;
  real_class : Model;          (* polymorphic_ctype *)
  resource_type : string;      (* the [resource_type] field; may be empty *)
  vector : bool;               (* what [is_vector()] answers *)
  owner : string;
  state : ProcessingState;
  dirty_state : bool;
  is_approved : bool;
  is_published : bool;
  files : list string;
  thumbnail_url : string;
  remote_typename : string;
  metadata_uploaded : bool
}.

Definition with_pk (r : Resource) (p : option nat) : Resource :=
  mkResource p (uuid r) (real_class r) (resource_type r) (vector r) (owner r)
    (state r) (dirty_state r) (is_approved r) (is_published r) (files r)
    (thumbnail_url r) (remote_typename r) (metadata_uploaded r).

Definition with_uuid (r : Resource) (u : string) : Resource :=
  mkResource (pk r) u (real_class r) (resource_type r) (vector r) (owner r)
    (state r) (dirty_state r) (is_approved r) (is_published r) (files r)
    (thumbnail_url r) (remote_typename r) (metadata_uploaded r).

Definition with_class (r : Resource) (c : Model) : Resource :=
  mkResource (pk r) (uuid r) c (resource_type r) (vector r) (owner r)
    (state r) (dirty_state r) (is_approved r) (is_published r) (files r)
    (thumbnail_url r) (remote_typename r) (metadata_uploaded r).

Definition with_owner (r : Resource) (o : string) : Resource :=
  mkResource (pk r) (uuid r) (real_class r) (resource_type r) (vector r) o
    (state r) (dirty_state r) (is_approved r) (is_published r) (files r)
    (thumbnail_url r) (remote_typename r) (metadata_uploaded r).

Definition with_state (r : Resource) (s : ProcessingState) : Resource :=
  mkResource (pk r) (uuid r) (real_class r) (resource_type r) (vector r)
    (owner r) s (dirty_state r) (is_approved r) (is_published r) (files r)
    (thumbnail_url r) (remote_typename r) (metadata_uploaded r).

Definition with_dirty (r : Resource) (d : bool) : Resource :=
  mkResource (pk r) (uuid r) (real_class r) (resource_type r) (vector r)
    (owner r) (state r) d (is_approved r) (is_published r) (files r)
    (thumbnail_url r) (remote_typename r) (metadata_uploaded r).

Definition with_metadata_uploaded (r : Resource) (b : bool) : Resource :=
  mkResource (pk r) (uuid r) (real_class r) (resource_type r) (vector r)
    (owner r) (state r) (dirty_state r) (is_approved r) (is_published r)
    (files r) (thumbnail_url r) (remote_typename r) b.

(** [isinstance(r, cls)]: every row is a [ResourceBase]. *)
Definition isinstance (r : Resource) (cls : Model) : bool :=
  match cls with
  | ResourceBase => true
  | _ => model_eqb (real_class r) cls
  end.

(** *** Permission specs *)

(** A key of a perm-spec dictionary is either a name (["AnonymousUser"],
    ['anonymous'], a username, a group name) or a resolved user or group
    object, which the model identifies by the name it carries.  The two are
    different dictionary keys. *)
Inductive Principal : Type :=
| PName (n : string)
| PObj (n : string).

Definition principal_eqb (a b : Principal) : bool :=
  match a, b with
  | PName x, PName y => String.eqb x y
  | PObj x, PObj y => String.eqb x y
  | _, _ => false
  end.

(** [str(key)]: the name a key stands for. *)
Definition principal_name (p : Principal) : string :=
  match p with PName n => n | PObj n => n end.

(** A Python dict from principals to permission lists, in insertion order. *)
Definition PermDict : Type := list (Principal * list string).

(** A perm spec: a dict that may or may not have a ['users'] and a
    ['groups'] entry.  The empty dict (and [None]) is [empty_spec]. *)
Record PermSpec : Type := mkPermSpec {
  ps_users : option PermDict;
  ps_groups : option PermDict
}.

Definition empty_spec : PermSpec := mkPermSpec None None.

(** [len(permissions)] *)
Definition spec_len (p : PermSpec) : nat :=
  (match ps_users p with Some _ => 1 | None => 0 end) +
  (match ps_groups p with Some _ => 1 | None => 0 end).

(** Content types of guardian's grant rows. *)
Inductive ContentType : Type := CtDataset | CtResourceBase.

Definition ct_eqb (a b : ContentType) : bool :=
  match a, b with
  | CtDataset, CtDataset => true
  | CtResourceBase, CtResourceBase => true
  | _, _ => false
  end.

(** A [UserObjectPermission] or [GroupObjectPermission] row. *)
Record Grant : Type := mkGrant {
  g_perm : string;
  g_group : bool;              (* true: a group grant; false: a user grant *)
  g_name : string;             (* username or group name *)
  g_ct : ContentType;
  g_object_pk : option nat
}.

(* ================================================================= *)
(** ** Exceptions, collaborators and the trace *)

Inductive Exn : Type :=
| PyException (msg : string)            (* [raise Exception(msg)] *)
| ValidationError (msg : string)
| ObjectDoesNotExist (msg : string)
| ResourceBaseDoesNotExist              (* [ResourceBase.DoesNotExist] *)
| MultipleObjectsReturned
| AttributeError (msg : string)
| KeyError (key : string)
| UnboundLocalError (var : string)
| CollaboratorError (msg : string).     (* whatever a collaborator raises *)

(** The calls that leave [manager.py]. *)
Inductive Collab : Type :=
| BackendExists
| BackendDelete
| BackendCreate
| BackendUpdate
| BackendCopy
| BackendAppend
| BackendReplace
| BackendRemovePermissions
| BackendSetPermissions
| BackendGetWorkflowPermissions
| BackendSetThumbnail
| MapLayersDelete
| OverallRatingDelete
| UploadsDelete
| StylesDelete
| DefaultStyleDelete
| HarvesterUnmark
| ConcreteDelete
| StorageOpen
| FileOpen
| ParseMetadata
| UpdateResource
| MetadataStorers
| WorkflowTasks
| StorageCopy
| CloneRelated
| CreateDocumentThumbnail
| SetOwnerPermissions
| HandleModeratedUploads
| GetAllLevelInfo
| GetUser
| GetGroup.

(** A [vals] or [defaults] dictionary of field values. *)
Definition Vals : Type := list (string * string).

(** The public operations of the manager, as entered. *)
Inductive OpCall : Type :=
| OpDelete (u : option string)
| OpCreate (u : option string) (cls : Model)
| OpUpdate (u : option string) (vals : Vals)
| OpCopy (u : string)
| OpAppend (u : string)
| OpRemovePermissions (u : option string)
| OpSetPermissions (u : option string) (permissions : PermSpec)
| OpSetThumbnail (u : option string).

Inductive Event : Type :=
| EvOp (o : OpCall)
| EvCall (c : Collab) (target : string)
| EvSetState (p : option nat) (s : ProcessingState)
| EvSetDirty (p : option nat)
| EvInsert (p : nat) (u : string)
| EvSave (p : nat)
| EvDeleteInstance (p : option nat)
| EvDeleteByUuid (u : string)
| EvUpdateOwner (u : string) (o : string)
| EvRemoveGrants (ct : ContentType) (p : option nat)
| EvAssignPerm (g : Grant)
| EvPostSave (p : option nat)
| EvLogged (e : Exn)
| EvRollback.

Record World : Type := mkWorld {
  rows : list Resource;
  grants : list Grant;
  next_pk : nat;
  log : list Event
}.

Definition with_rows (w : World) (rs : list Resource) : World :=
  mkWorld rs (grants w) (next_pk w) (log w).

Definition with_grants (w : World) (gs : list Grant) : World :=
  mkWorld (rows w) gs (next_pk w) (log w).

Definition add_log (ev : Event) (w : World) : World :=
  mkWorld (rows w) (grants w) (next_pk w) (ev :: log w).

(** Process-wide configuration and the constants of
    [geonode.security.permissions], which [manager.py] only imports. *)
Record Settings : Type := mkSettings {
  ADMIN_MODERATE_UPLOADS : bool;
  RESOURCE_PUBLISHING : bool;
  DEFAULT_ANONYMOUS_VIEW_PERMISSION : bool;
  DEFAULT_ANONYMOUS_DOWNLOAD_PERMISSION : bool;
  AUTO_ASSIGN_REGISTERED_MEMBERS : bool;
  REGISTERED_MEMBERS_GROUP_NAME : string;
  upload_importer_installed : bool;
  VIEW_PERMISSIONS : list string;
  ADMIN_PERMISSIONS : list string;
  DOWNLOAD_PERMISSIONS : list string;
  DOWNLOADABLE_RESOURCES : list string;
  DATASET_EDIT_DATA_PERMISSIONS : list string;
  DATA_EDITABLE_RESOURCES_SUBTYPES : list string
}.

(** What the collaborators answer.  [raises c target w] is the exception the
    call [c] raises in world [w], if it raises. *)
Record Collaborators : Type := mkCollaborators {
  raises : Collab -> string -> World -> option Exn;
  (* what the concrete manager answers *)
  backend_exists : Resource -> World -> bool;
  backend_remove_permissions : Resource -> World -> bool;
  backend_set_permissions : Resource -> World -> bool;
  backend_get_workflow_permissions : Resource -> PermSpec -> PermSpec;
  (* [str(uuid1())] *)
  uuid1 : World -> string;
  (* the uuid [parse_metadata] reads from an uploaded document *)
  parse_metadata : string -> option string;
  (* [instance.get_all_level_info()] *)
  get_all_level_info : Resource -> World -> PermSpec;
  (* the field values [storage_manager.copy] gives back *)
  storage_copy : Resource -> World -> Vals;
  (* [PermSpecCompact.validate] and [PermSpecCompact(...).extended] *)
  compact_validate : PermSpec -> bool;
  compact_extended : PermSpec -> option Resource -> PermSpec;
  (* [instance.fixup_perms] *)
  fixup_perms : Resource -> PermSpec -> PermSpec;
  (* [get_user_groups(owner)], without the groups that
     [skip_registered_members_common_group] skips *)
  owner_groups : string -> World -> list string;
  (* [instance.get_group_managers(user_groups)]: the ['groups'] dict of
     [member_group_perm], if any, and the managers *)
  get_group_managers : Resource -> World -> option PermDict * list Principal;
  (* a [Service] of that name exists and has a harvester *)
  service_has_harvester : string -> World -> bool;
  (* [polymorphic_ctype.name] *)
  polymorphic_ctype_name : Model -> string;
  (* the instance has the old [layer] attribute and a [dataset] behind it *)
  legacy_dataset : Resource -> bool;
  (* [static(MISSING_THUMB)] *)
  missing_thumb : string;
  (* a [ProcessingWorkflow] exists and is enabled *)
  workflow_enabled : World -> bool
}.

(* ================================================================= *)
(** ** The state-and-exception monad *)

Inductive Outcome (A : Type) : Type :=
| Ret (a : A) (w : World)
| Exc (e : Exn) (w : World).

Arguments Ret {A} a w.
Arguments Exc {A} e w.

Definition M (A : Type) : Type := World -> Outcome A.

Definition ret {A} (a : A) : M A := fun w => Ret a w.

Definition raise {A} (e : Exn) : M A := fun w => Exc e w.

Definition bind {A B} (m : M A) (k : A -> M B) : M B :=
  fun w =>
    match m w with
    | Ret a w' => k a w'
    | Exc e w' => Exc e w'
    end.

Declare Scope engine_scope.
Delimit Scope engine_scope with engine.

Notation "x <- m ;; k" := (bind m (fun x => k))
  (at level 100, m at next level, right associativity) : engine_scope.
Notation "m ;;; k" := (bind m (fun _ => k))
  (at level 100, right associativity) : engine_scope.

Open Scope engine_scope.

Definition gets {A} (f : World -> A) : M A := fun w => Ret (f w) w.

Definition modify (f : World -> World) : M unit := fun w => Ret tt (f w).

Definition emit (ev : Event) : M unit := modify (add_log ev).

(** [try: m except Exception as e: h e] *)
Definition try_except {A} (m : M A) (h : Exn -> M A) : M A :=
  fun w =>
    match m w with
    | Ret a w' => Ret a w'
    | Exc e w' => h e w'
    end.

(** [try: m finally: f]; an exception of [f] replaces the one of [m].  The
    result pairs what [m] returned with what [f] left. *)
Definition try_finally {A B} (m : M A) (f : M B) : M (A * B) :=
  fun w =>
    match m w with
    | Ret a w' =>
        match f w' with
        | Ret b w'' => Ret (a, b) w''
        | Exc e w'' => Exc e w''
        end
    | Exc e w' =>
        match f w' with
        | Ret _ w'' => Exc e w''
        | Exc e' w'' => Exc e' w''
        end
    end.

(** What a rollback leaves: the rows and grants of the world the block was
    entered in; keys already handed out and the trace stay. *)
Definition rollback (w0 w : World) : World :=
  mkWorld (rows w0) (grants w0) (next_pk w) (EvRollback :: log w).

(** [with transaction.atomic(): m] *)
Definition atomic {A} (m : M A) : M A :=
  fun w =>
    match m w with
    | Ret a w' => Ret a w'
    | Exc e w' => Exc e (rollback w w')
    end.

(** A computation that looks at the world it starts in. *)
Definition with_world {A} (f : World -> M A) : M A := fun w => f w w.

(** [logger.exception(e)] *)
Definition logger_exception (e : Exn) : M unit := emit (EvLogged e).

(** [try: m except Exception as e: logger.exception(e)] *)
Definition swallow (m : M unit) : M unit :=
  try_except m logger_exception.

Definition world_of {A} (o : Outcome A) : World :=
  match o with Ret _ w => w | Exc _ w => w end.

(* ================================================================= *)
(** ** Querysets and instance methods *)

Definition opt_nat_eqb (a b : option nat) : bool :=
  match a, b with
  | Some x, Some y => Nat.eqb x y
  | _, _ => false
  end.

(** Python truth of a [str] or [None] argument. *)
Definition truthy (u : option string) : option string :=
  match u with
  | Some s => if String.eqb s "" then None else Some s
  | None => None
  end.

(** [cls.objects.filter(uuid=u)] *)
Definition filter_uuid (cls : Model) (u : option string)
    (rs : list Resource) : list Resource :=
  match u with
  | Some s => filter (fun r => isinstance r cls && String.eqb (uuid r) s) rs
  | None => []
  end.

(** [queryset.exists()] *)
Definition qs_exists (q : list Resource) : bool :=
  match q with [] => false | _ => true end.

(** [queryset.get()] *)
Definition qs_get (q : list Resource) : M Resource :=
  match q with
  | [] => raise (ObjectDoesNotExist "matching query does not exist")
  | [r] => ret r
  | _ => raise MultipleObjectsReturned
  end.

(** [ResourceManager._get_instance]: the row found by uuid when exactly one
    matches. *)
Definition _get_instance (u : option string) : M (option Resource) :=
  _resources <- gets (fun w => filter_uuid ResourceBase u (rows w)) ;;
  let _exists := Nat.eqb (length _resources) 1 in
  if _exists then r <- qs_get _resources ;; ret (Some r)
  else ret None.

(** [instance or ResourceManager._get_instance(uuid)] *)
Definition resolve (u : option string) (instance : option Resource)
    : M (option Resource) :=
  match instance with
  | Some r => ret (Some r)
  | None => _get_instance u
  end.

Definition update_rows (p : option nat) (f : Resource -> Resource)
    (rs : list Resource) : list Resource :=
  map (fun x => if opt_nat_eqb (pk x) p then f x else x) rs.

(** Modelled from the spec: [ResourceBase.set_processing_state], which is
    not in [manager.py].  The state is set on the instance and persisted on
    its row; the transition to INVALID sets the dirty flag. *)
Definition mark (s : ProcessingState) (r : Resource) : Resource :=
  match s with
  | STATE_INVALID => with_dirty (with_state r s) true
  | _ => with_state r s
  end.

Definition set_processing_state (r : Resource) (s : ProcessingState)
    : M Resource :=
  modify (fun w => with_rows w (update_rows (pk r) (mark s) (rows w))) ;;;
  emit (EvSetState (pk r) s) ;;;
  ret (mark s r).

(** Modelled from the spec: [ResourceBase.set_dirty_state]. *)
Definition set_dirty_state (r : Resource) : M Resource :=
  modify (fun w =>
    with_rows w (update_rows (pk r) (fun x => with_dirty x true) (rows w))) ;;;
  emit (EvSetDirty (pk r)) ;;;
  ret (with_dirty r true).

Definition has_pk (p : nat) (rs : list Resource) : bool :=
  existsb (fun x => opt_nat_eqb (pk x) (Some p)) rs.

(** [instance.save()]: an insert under a fresh key when the instance has
    none (or its row is gone), an update of its row otherwise. *)
Definition save (r : Resource) : M Resource :=
  fun w =>
    match pk r with
    | Some p =>
        if has_pk p (rows w)
        then Ret r (add_log (EvSave p)
                      (with_rows w (update_rows (Some p) (fun _ => r) (rows w))))
        else Ret r (add_log (EvInsert p (uuid r)) (with_rows w (rows w ++ [r])))
    | None =>
        let p := next_pk w in
        let r' := with_pk r (Some p) in
        Ret r' (add_log (EvInsert p (uuid r))
                  (mkWorld (rows w ++ [r']) (grants w) (S p) (log w)))
    end.

(** Modelled from the spec: [ResourceBase.set_missing_info], which is not in
    [manager.py].  The spec gives it no part in the lifecycle (it fills
    contacts and the placeholder thumbnail), so it leaves the modelled
    fields and the store alone. *)
Definition set_missing_info (r : Resource) : M Resource := ret r.

(** Modelled from the spec: [resourcebase_post_save], the post-save hook of
    [.utils], which is not in [manager.py].  The spec gives it no part in
    the lifecycle; the model records that it ran. *)
Definition resourcebase_post_save (r : Resource) : M unit :=
  emit (EvPostSave (pk r)).

(** [instance.delete()] on the concrete instance removes its row. *)
Definition delete_rows_pk (p : option nat) : M unit :=
  modify (fun w =>
    with_rows w (filter (fun x => negb (opt_nat_eqb (pk x) p)) (rows w))) ;;;
  emit (EvDeleteInstance p).

(** [ResourceBase.objects.filter(uuid=u).delete()] *)
Definition delete_rows_uuid (u : string) : M unit :=
  modify (fun w =>
    with_rows w (filter (fun x => negb (String.eqb (uuid x) u)) (rows w))) ;;;
  emit (EvDeleteByUuid u).

(** Dictionaries as association lists with distinct keys. *)
Section Dict.
Context {K V : Type}.
Variable keqb : K -> K -> bool.

Fixpoint dict_mem (k : K) (d : list (K * V)) : bool :=
  match d with
  | [] => false
  | (k', _) :: d' => keqb k' k || dict_mem k d'
  end.

Fixpoint dict_get (k : K) (d : list (K * V)) : option V :=
  match d with
  | [] => None
  | (k', v) :: d' => if keqb k' k then Some v else dict_get k d'
  end.

(** [d[k] = v] *)
Fixpoint dict_set (k : K) (v : V) (d : list (K * V)) : list (K * V) :=
  match d with
  | [] => [(k, v)]
  | (k', v') :: d' =>
      if keqb k' k then (k', v) :: d' else (k', v') :: dict_set k v d'
  end.

(** [d.pop(k)], the dictionary that is left *)
Definition dict_pop (k : K) (d : list (K * V)) : list (K * V) :=
  filter (fun kv => negb (keqb (fst kv) k)) d.
End Dict.

(** [for x in xs: body x] *)
Fixpoint for_each {A} (xs : list A) (body : A -> M unit) : M unit :=
  match xs with
  | [] => ret tt
  | x :: xs' => body x ;;; for_each xs' body
  end.

Definition mem (x : string) (l : list string) : bool :=
  existsb (String.eqb x) l.

(* ================================================================= *)
(** ** The operations of [ResourceManager] *)

Section Engine.

Variable env : Collaborators.
Variable cfg : Settings.

(** A call to a collaborator: recorded, and raising when the oracle says
    so. *)
Definition call (c : Collab) (target : string) : M unit :=
  fun w =>
    match raises env c target w with
    | Some e => Exc e (add_log (EvCall c target) w)
    | None => Ret tt (add_log (EvCall c target) w)
    end.

(** [XObjectPermission.objects.filter(content_type=ct, object_pk=p).delete()]
    for the user and the group grants. *)
Definition remove_grants (ct : ContentType) (p : option nat) : M unit :=
  modify (fun w =>
    with_grants w
      (filter (fun g => negb (ct_eqb (g_ct g) ct
                              && opt_nat_eqb (g_object_pk g) p))
         (grants w))) ;;;
  emit (EvRemoveGrants ct p).

(** [ResourceManager.remove_permissions] *)
Definition remove_permissions (u : option string)
    (instance : option Resource) : M bool :=
  emit (EvOp (OpRemovePermissions u)) ;;;
  _resource <- resolve u instance ;;
  match _resource with
  | Some r0 =>
      r <- set_processing_state r0 STATE_RUNNING ;;
      try_except
        (atomic
           (let _dataset := isinstance r Dataset || legacy_dataset env r in
            (if _dataset then remove_grants CtDataset (pk r) else ret tt) ;;;
            remove_grants CtResourceBase (pk r) ;;;
            call BackendRemovePermissions (uuid r) ;;;
            ok <- gets (backend_remove_permissions env r) ;;
            if ok then ret tt
            else raise (PyException
              "Could not complete concrete manager operation successfully!")) ;;;
         set_processing_state r STATE_PROCESSED ;;;
         ret true)
        (fun e =>
           logger_exception e ;;;
           r' <- set_processing_state r STATE_INVALID ;;
           set_dirty_state r' ;;;
           ret false)
  | None => ret false
  end.

(** The body of the outer [try] of [delete], up to [return 1].  Each cascade
    step is one call: the tables of map layers, ratings, uploads and styles
    are not modelled, only whether the step raises. *)
Definition delete_body (u : string) (r0 : Resource) : M nat :=
  r <- set_processing_state r0 STATE_RUNNING ;;
  call BackendDelete u ;;;
  swallow
    (if isinstance r Dataset then
       swallow (call MapLayersDelete (uuid r)) ;;;
       swallow (call OverallRatingDelete (uuid r)) ;;;
       swallow (if upload_importer_installed cfg
                then call UploadsDelete (uuid r) else ret tt) ;;;
       try_except
         (call StylesDelete (uuid r) ;;; call DefaultStyleDelete (uuid r))
         (fun _ => ret tt) ;;;
       remove_permissions (Some (uuid r)) (Some r) ;;;
       ret tt
     else ret tt) ;;;
  swallow
    (has_harvester <- gets (service_has_harvester env (remote_typename r)) ;;
     if negb (String.eqb (remote_typename r) "") && has_harvester
     then call HarvesterUnmark (remote_typename r) else ret tt) ;;;
  try_except
    (call ConcreteDelete (uuid r) ;;; delete_rows_pk (pk r))
    (fun e =>
       match e with
       | ResourceBaseDoesNotExist => ret tt
       | _ => raise e
       end) ;;;
  ret 1.

(** [ResourceManager.delete], decorated with [transaction.atomic] *)
Definition delete (u : option string) (instance : option Resource)
    : M nat :=
  atomic
    (emit (EvOp (OpDelete u)) ;;;
     _resource <- resolve u instance ;;
     u' <- match truthy u, _resource with
           | Some s, _ => ret s
           | None, Some r => ret (uuid r)
           | None, None =>
               raise (AttributeError
                 "'NoneType' object has no attribute 'uuid'")
           end ;;
     match _resource with
     | Some r =>
         base_exists <- gets (fun w =>
           qs_exists (filter_uuid ResourceBase (Some u') (rows w))) ;;
         if base_exists then
           res <- try_finally
                    (try_except (delete_body u' r)
                       (fun e => logger_exception e ;;; ret 0))
                    (delete_rows_uuid u') ;;
           ret (fst res)
         else ret 0
     | None => ret 0
     end).

(** [cls.objects.get_or_create(uuid=u, defaults=defaults)] *)
Definition get_or_create (cls : Model) (u : string) (defaults : Resource)
    : M (Resource * bool) :=
  q <- gets (fun w => filter_uuid cls (Some u) (rows w)) ;;
  match q with
  | [] =>
      r <- save (with_pk (with_class (with_uuid defaults u) cls) None) ;;
      ret (r, true)
  | [r] => ret (r, false)
  | _ => raise MultipleObjectsReturned
  end.

(** [ResourceManager.create] *)
Definition create (u : option string) (cls : Model) (defaults : Resource)
    : M Resource :=
  emit (EvOp (OpCreate u cls)) ;;;
  found <- gets (fun w => qs_exists (filter_uuid cls u (rows w))) ;;
  if found then
    q <- gets (fun w => filter_uuid cls u (rows w)) ;;
    qs_get q
  else
    fresh <- gets (uuid1 env) ;;
    let u' := match truthy u with Some s => s | None => fresh end in
    rc <- get_or_create cls u' defaults ;;
    let '(_resource, _created) := rc in
    if _created then
      r <- set_processing_state _resource STATE_RUNNING ;;
      r2 <- try_except
              (r1 <- atomic
                       (r0 <- set_missing_info r ;;
                        call BackendCreate u' ;;;
                        ret r0) ;;
               set_processing_state r1 STATE_PROCESSED)
              (fun e =>
                 logger_exception e ;;;
                 delete (Some (uuid r)) (Some r) ;;;
                 raise e) ;;
      resourcebase_post_save r2 ;;;
      ret r2
    else ret _resource.

(** The part of the block of [update] that reads an uploaded metadata
    document and checks its uuid.  The field values ([vals], [regions],
    [keywords], [custom]) only travel to collaborators. *)
Definition update_metadata (u : option string) (xml_file : option string)
    (metadata_uploaded_ : bool) : M unit :=
  match metadata_uploaded_, truthy xml_file with
  | true, Some xml =>
      try_except (call StorageOpen xml)
        (fun e => logger_exception e ;;; call FileOpen xml) ;;;
      call ParseMetadata xml ;;;
      let _uuid := parse_metadata env xml in
      match truthy u with
      | Some s =>
          match _uuid with
          | Some s' =>
              if String.eqb s s' then ret tt
              else raise (ValidationError
                "The UUID identifier from the XML Metadata is different from the {_resource} one.")
          | None =>
              raise (ValidationError
                "The UUID identifier from the XML Metadata is different from the {_resource} one.")
          end
      | None => ret tt
      end
  | _, _ => ret tt
  end.

(** The block of [update] that runs under [transaction.atomic].  It gives
    back the saved instance. *)
Definition update_transaction (u : option string) (r : Resource)
    (xml_file : option string) (metadata_uploaded_ : bool) : M Resource :=
  atomic
    (update_metadata u xml_file metadata_uploaded_ ;;;
     r1 <- save r ;;
     call UpdateResource (uuid r1) ;;;
     call BackendUpdate (uuid r1) ;;;
     call MetadataStorers (uuid r1) ;;;
     enabled <- gets (workflow_enabled env) ;;
     (if enabled then call WorkflowTasks (uuid r1) else ret tt) ;;;
     ret r1).

(** The instance [_resource] as the [except] branch of [update] finds it
    when the block, entered in world [w], raised: a rollback does not undo
    what [save] did to the instance in memory (the key it gave to an instance
    that had none), and [save] ran unless the metadata part raised. *)
Definition instance_in_try (u : option string) (r : Resource)
    (xml_file : option string) (metadata_uploaded_ : bool) (w : World)
    : Resource :=
  match update_metadata u xml_file metadata_uploaded_ w with
  | Ret _ w1 =>
      match save r w1 with
      | Ret r1 _ => r1
      | Exc _ _ => r
      end
  | Exc _ _ => r
  end.

(** What the [except] branch of [update] does. *)
Definition update_failed (r : Resource) (e : Exn) : M Resource :=
  logger_exception e ;;;
  r' <- set_processing_state r STATE_INVALID ;;
  set_dirty_state r'.

(** [ResourceManager.update] *)
Definition update (u : option string) (instance : option Resource)
    (xml_file : option string) (metadata_uploaded_ : bool) (vals : Vals)
    (notify : bool) : M (option Resource) :=
  emit (EvOp (OpUpdate u vals)) ;;;
  _resource <- resolve u instance ;;
  match _resource with
  | Some r0 =>
      r1 <- set_processing_state r0 STATE_RUNNING ;;
      r2 <- set_missing_info r1 ;;
      let r := with_metadata_uploaded r2 metadata_uploaded_ in
      r' <- with_world (fun w_try =>
              try_except
                (r3 <- update_transaction u r xml_file metadata_uploaded_ ;;
                 r4 <- set_processing_state r3 STATE_PROCESSED ;;
                 save r4)
                (update_failed
                   (instance_in_try u r xml_file metadata_uploaded_ w_try))) ;;
      resourcebase_post_save r' ;;;
      ret (Some r')
  | None => ret None
  end.

(** [ResourceManager.set_thumbnail] *)
Definition set_thumbnail (u : option string) (instance : option Resource)
    (overwrite check_bbox : bool) : M bool :=
  emit (EvOp (OpSetThumbnail u)) ;;;
  _resource <- resolve u instance ;;
  match _resource with
  | Some r0 =>
      r <- set_processing_state r0 STATE_RUNNING ;;
      try_except
        (atomic
           ((match instance with
             | Some i =>
                 match files i with
                 | [] => ret tt
                 | _ :: _ =>
                     if isinstance i Document
                        && (overwrite
                            || String.eqb (thumbnail_url i) (missing_thumb env))
                     then call CreateDocumentThumbnail (uuid i)
                     else ret tt
                 end
             | None => ret tt
             end) ;;;
            call BackendSetThumbnail (uuid r)) ;;;
         set_processing_state r STATE_PROCESSED ;;;
         ret true)
        (fun e => logger_exception e ;;; ret false)
  | None => ret false
  end.

(** [ResourceManager._validate_resource].  [is_valid] is a local that some
    paths never assign; reading it then raises [UnboundLocalError]. *)
Definition _validate_resource (instance : Resource) (action_type : string)
    : M bool :=
  if negb (isinstance instance Dataset) && String.eqb action_type "append"
  then raise (PyException "Append data is available only for Layers")
  else if isinstance instance Document && String.eqb action_type "replace"
  then ret true
  else
    call BackendExists (uuid instance) ;;;
    exists_ <- gets (backend_exists env instance) ;;
    is_valid <-
      (if exists_ && String.eqb action_type "append" then
         ret (if isinstance instance Dataset
              then if vector instance then Some true else None
              else None)
       else if exists_ && String.eqb action_type "replace" then
         ret (Some true)
       else raise (ObjectDoesNotExist "Resource does not exists")) ;;
    match is_valid with
    | Some b => ret b
    | None => raise (UnboundLocalError "is_valid")
    end.

(** [ResourceManager.append] *)
Definition append (instance : Resource) (vals : Vals)
    : M (option Resource) :=
  emit (EvOp (OpAppend (uuid instance))) ;;;
  ok <- _validate_resource instance "append" ;;
  if ok then
    call BackendAppend (uuid instance) ;;;
    let to_update := dict_pop String.eqb "user" vals in
    update (Some (uuid instance)) (Some instance) None false to_update true
  else ret (Some instance).

(** The nested [assignable_perm_condition] of [set_permissions] *)
Definition assignable_perm_condition (perm : string) (rtype : string)
    : bool :=
  (mem perm (DOWNLOAD_PERMISSIONS cfg)
   && mem rtype (DOWNLOADABLE_RESOURCES cfg))
  || (mem perm (DATASET_EDIT_DATA_PERMISSIONS cfg)
      && mem rtype (DATA_EDITABLE_RESOURCES_SUBTYPES cfg))
  || negb (mem perm (DOWNLOAD_PERMISSIONS cfg
                     ++ DATASET_EDIT_DATA_PERMISSIONS cfg)).

Definition dataset_perms : list string :=
  ["change_dataset_data"; "change_dataset_style"; "add_dataset";
   "change_dataset"; "delete_dataset"].

Definition grant_eqb (a b : Grant) : bool :=
  String.eqb (g_perm a) (g_perm b)
  && Bool.eqb (g_group a) (g_group b)
  && String.eqb (g_name a) (g_name b)
  && ct_eqb (g_ct a) (g_ct b)
  && opt_nat_eqb (g_object_pk a) (g_object_pk b).

(** guardian's [assign_perm(perm, principal, obj)]: the grant row is
    created unless it is there already. *)
Definition assign_perm (perm : string) (group : bool) (name : string)
    (ct : ContentType) (r : Resource) : M unit :=
  let g := mkGrant perm group name ct (pk r) in
  modify (fun w =>
    if existsb (grant_eqb g) (grants w) then w
    else with_grants w (g :: grants w)) ;;;
  emit (EvAssignPerm g).

(** The [if ...: assign_perm(...) elif ...: assign_perm(...)] that every
    loop of [set_permissions] runs for one permission.  The [_perm_spec]
    dictionary that collects the same grants for the concrete manager is
    not modelled. *)
Definition grant_one (rtype : string) (r : Resource) (group : bool)
    (name : string) (perm : string) : M unit :=
  if String.eqb rtype "dataset" && mem perm dataset_perms
  then assign_perm perm group name CtDataset r
  else if assignable_perm_condition perm rtype
  then assign_perm perm group name CtResourceBase r
  else ret tt.

(** The key under which a ['users'] dict holds the anonymous user:
    ["AnonymousUser"] when present, else [get_anonymous_user()]. *)
Definition anonymous_user_key (d : PermDict) : option Principal :=
  if dict_mem principal_eqb (PName "AnonymousUser") d
  then Some (PName "AnonymousUser")
  else if dict_mem principal_eqb (PObj "AnonymousUser") d
  then Some (PObj "AnonymousUser")
  else None.

Definition is_anonymous_user_key (k : Principal) : bool :=
  String.eqb (principal_name k) "AnonymousUser".

Definition perms_of (k : Principal) (d : PermDict) : list string :=
  match dict_get principal_eqb k d with Some l => l | None => [] end.

(** The branch of [set_permissions] taken for a non-empty perm spec. *)
Definition apply_perm_spec (r : Resource) (rtype : string)
    (permissions : PermSpec) : M unit :=
  let _permissions :=
    if compact_validate env permissions
    then compact_extended env permissions (Some r) else permissions in
  call SetOwnerPermissions (owner r) ;;;
  (* Anonymous User group *)
  (match ps_users _permissions with
   | Some users =>
       match anonymous_user_key users with
       | Some anonymous_user =>
           call GetGroup "anonymous" ;;;
           for_each (perms_of anonymous_user users)
             (grant_one rtype r true "anonymous")
       | None => ret tt
       end
   | None => ret tt
   end) ;;;
  (* All the other users *)
  (match ps_users _permissions with
   | Some users =>
       for_each users (fun item =>
         let '(user, perms) := item in
         call GetUser (principal_name user) ;;;
         if negb (String.eqb (principal_name user) (owner r))
            && negb (is_anonymous_user_key user)
         then for_each perms (grant_one rtype r false (principal_name user))
         else ret tt)
   | None => ret tt
   end) ;;;
  (* All the other groups *)
  (match ps_groups _permissions with
   | Some groups =>
       for_each groups (fun item =>
         let '(group, perms) := item in
         call GetGroup (principal_name group) ;;;
         for_each perms (grant_one rtype r true (principal_name group)))
   | None => ret tt
   end) ;;;
  (* AnonymousUser *)
  (match ps_users _permissions with
   | Some users =>
       match anonymous_user_key users with
       | Some anonymous_user =>
           for_each (perms_of anonymous_user users)
             (grant_one rtype r false "AnonymousUser")
       | None => ret tt
       end
   | None => ret tt
   end).

(** The branch of [set_permissions] taken for an empty perm spec: the
    default permissions.  [owner_groups] answers [get_user_groups(_owner)]
    without the groups [skip_registered_members_common_group] skips. *)
Definition apply_default_perms (r : Resource) (rtype : string) : M unit :=
  call GetGroup "anonymous" ;;;
  call SetOwnerPermissions (owner r) ;;;
  user_groups <- gets (owner_groups env (owner r)) ;;
  (if DEFAULT_ANONYMOUS_VIEW_PERMISSION cfg
   then assign_perm "view_resourcebase" true "anonymous" CtResourceBase r
   else for_each user_groups (fun g =>
          assign_perm "view_resourcebase" true g CtResourceBase r)) ;;;
  (if assignable_perm_condition "download_resourcebase" rtype then
     if DEFAULT_ANONYMOUS_DOWNLOAD_PERMISSION cfg
     then assign_perm "download_resourcebase" true "anonymous"
            CtResourceBase r
     else for_each user_groups (fun g =>
            assign_perm "download_resourcebase" true g CtResourceBase r)
   else ret tt) ;;;
  (if model_eqb (real_class r) Dataset then
     assign_perm "change_dataset_data" false (owner r) CtDataset r ;;;
     assign_perm "change_dataset_style" false (owner r) CtDataset r
   else ret tt) ;;;
  call HandleModeratedUploads (uuid r).

(** [_resource.resource_type or _resource.polymorphic_ctype.name] *)
Definition resource_type_of (r : Resource) : string :=
  if String.eqb (resource_type r) ""
  then polymorphic_ctype_name env (real_class r)
  else resource_type r.

(** [ResourceManager.set_permissions] *)
Definition set_permissions (u : option string) (instance : option Resource)
    (owner_ : option string) (permissions : PermSpec) (created : bool)
    : M bool :=
  emit (EvOp (OpSetPermissions u permissions)) ;;;
  _resource <- resolve u instance ;;
  match _resource with
  | Some r0 =>
      r1 <- set_processing_state r0 STATE_RUNNING ;;
      try_except
        (atomic
           (r <- (match owner_ with
                  | Some o =>
                      if negb (String.eqb o (owner r1)) then
                        modify (fun w =>
                          with_rows w
                            (map (fun x =>
                                    if String.eqb (uuid x) (uuid r1)
                                    then with_owner x o else x)
                               (rows w))) ;;;
                        emit (EvUpdateOwner (uuid r1) o) ;;;
                        ret (with_owner r1 o)
                      else ret r1
                  | None => ret r1
                  end) ;;
            let _resource_type := resource_type_of r in
            remove_permissions u (Some r) ;;;
            (if Nat.ltb 0 (spec_len permissions)
             then apply_perm_spec r _resource_type permissions
             else apply_default_perms r _resource_type) ;;;
            call BackendSetPermissions (uuid r) ;;;
            ok <- gets (backend_set_permissions env r) ;;
            if ok then ret tt
            else emit (EvLogged (PyException
              "Could not complete concrete manager operation successfully!"))) ;;;
         set_processing_state r1 STATE_PROCESSED ;;;
         ret true)
        (fun e =>
           logger_exception e ;;;
           r' <- set_processing_state r1 STATE_INVALID ;;
           set_dirty_state r' ;;;
           ret false)
  | None => ret false
  end.

(** What [copy] removes from the captured ['users'] dict.  The key is found
    by [anonymous_user_key]; [get_anonymous_user()] is taken to answer. *)
Definition strip_anonymous_user (d : PermDict) : PermDict :=
  match anonymous_user_key d with
  | Some k => dict_pop principal_eqb k d
  | None => d
  end.

(** What [copy] removes from the captured ['groups'] dict; the anonymous
    group is looked up only when the name ['anonymous'] is not a key. *)
Definition strip_anonymous_group (d : PermDict) : M PermDict :=
  if dict_mem principal_eqb (PName "anonymous") d
  then ret (dict_pop principal_eqb (PName "anonymous") d)
  else
    call GetGroup "anonymous" ;;;
    if dict_mem principal_eqb (PObj "anonymous") d
    then call GetGroup "anonymous" ;;;
         ret (dict_pop principal_eqb (PObj "anonymous") d)
    else ret d.

(** [to_update.update(defaults)] *)
Definition dict_update (d extra : Vals) : Vals :=
  fold_left (fun acc kv => dict_set String.eqb (fst kv) (snd kv) acc) extra d.

(** The [try] block of [copy]: what it leaves in [_resource], [_owner],
    [_perms] and [to_update].  [CloneRelated] stands for the loops that clone
    the document links, the dataset attributes or the map layers of the
    source; the rows of those tables are not modelled. *)
Definition copy_clone (i : Resource) (u : option string)
    (owner_ : option string)
    : M (option (Resource * string * PermSpec * Vals)) :=
  i1 <- set_processing_state i STATE_RUNNING ;;
  let _owner := match owner_ with Some o => o | None => owner i1 end in
  call GetAllLevelInfo (uuid i1) ;;;
  _perms <- gets (get_all_level_info env i1) ;;
  fresh <- gets (uuid1 env) ;;
  let u' := match truthy u with Some s => s | None => fresh end in
  _resource <- save (with_uuid (with_pk i1 None) u') ;;
  call CloneRelated (uuid i1) ;;;
  call StorageCopy (uuid _resource) ;;;
  to_update <- gets (storage_copy env _resource) ;;
  call BackendCopy (uuid _resource) ;;;
  ret (Some (_resource, _owner, _perms, to_update)).

(** Whether the nested [remove_permissions] of a run of [set_permissions]
    answers [True], when the run is entered in [w] on the instance [r] with
    the owner [o]: the run up to line 608. *)
Definition nested_removal (u : option string) (r : Resource) (o : string)
    (permissions : PermSpec) (w : World) : bool :=
  match (emit (EvOp (OpSetPermissions u permissions)) ;;;
         r1 <- set_processing_state r STATE_RUNNING ;;
         r' <- (if negb (String.eqb o (owner r1)) then
                  modify (fun w =>
                    with_rows w
                      (map (fun x =>
                              if String.eqb (uuid x) (uuid r1)
                              then with_owner x o else x)
                         (rows w))) ;;;
                  emit (EvUpdateOwner (uuid r1) o) ;;;
                  ret (with_owner r1 o)
                else ret r1) ;;
         remove_permissions u (Some r')) w with
  | Ret b _ => b
  | Exc _ _ => false
  end.

(** What a run of [set_permissions], entered in [w], leaves on the instance
    it is handed, which is the Python object that [copy] goes on to hand to
    [update]: the new owner (line 599; the assignment is not undone when the
    transaction is), the dirty flag of a nested [remove_permissions] that
    failed, and the processing state and dirty flag of the way out (lines
    757 and 761-762). *)
Definition instance_after_set_permissions (u : option string) (r : Resource)
    (o : string) (permissions : PermSpec) (ok : bool) (w : World)
    : Resource :=
  let r1 := if negb (String.eqb o (owner r)) then with_owner r o else r in
  let r2 := if nested_removal u r o permissions w then r1
            else with_dirty r1 true in
  mark (if ok then STATE_PROCESSED else STATE_INVALID) r2.

(** [ResourceManager.copy].  The concrete manager's [copy] either raises or
    hands back the record copy it was called for (line 463 rebinds
    [_resource] to its answer; an answer that is false in Python's sense is
    not modelled).  [get_anonymous_user()] is taken to answer. *)
Definition copy (instance : option Resource) (u : option string)
    (owner_ : option string) (defaults : Vals) : M (option Resource) :=
  match instance with
  | None => ret None
  | Some i =>
      emit (EvOp (OpCopy (uuid i))) ;;;
      res <- try_finally
               (try_except (copy_clone i u owner_)
                  (fun e => logger_exception e ;;; ret None))
               (i' <- set_processing_state i STATE_PROCESSED ;; save i') ;;
      match fst res with
      | Some (r0, _owner, _perms, storage_vals) =>
          r1 <- set_processing_state r0 STATE_PROCESSED ;;
          r2 <- save r1 ;;
          let to_update :=
            dict_pop String.eqb "user" (dict_update storage_vals defaults) in
          let users' := option_map strip_anonymous_user (ps_users _perms) in
          groups' <- match ps_groups _perms with
                     | Some g => g' <- strip_anonymous_group g ;; ret (Some g')
                     | None => ret None
                     end ;;
          let _perms' := mkPermSpec users' groups' in
          r3 <- with_world (fun w_perms =>
                  ok <- set_permissions (Some (uuid r2)) (Some r2)
                          (Some _owner) _perms' false ;;
                  ret (instance_after_set_permissions (Some (uuid r2)) r2
                         _owner _perms' ok w_perms)) ;;
          update (Some (uuid r3)) (Some r3) None false to_update true
      | None => ret (Some (snd res))
      end
  end.

(** [list(set(l))]; Python leaves the order open, the model keeps one
    occurrence of each token. *)
Definition list_set (l : list string) : list string := nodup string_dec l.

(** [d[k] = list(set(d.get(k, []) + perms))] *)
Definition union_onto (k : Principal) (perms : list string) (d : PermDict)
    : PermDict :=
  dict_set principal_eqb k (list_set (perms_of k d ++ perms)) d.

Definition union_users (k : Principal) (perms : list string)
    (spec : PermSpec) : M PermSpec :=
  match ps_users spec with
  | Some d => ret (mkPermSpec (Some (union_onto k perms d)) (ps_groups spec))
  | None => raise (KeyError "users")
  end.

Definition union_groups (k : Principal) (perms : list string)
    (spec : PermSpec) : M PermSpec :=
  match ps_groups spec with
  | Some d => ret (mkPermSpec (ps_users spec) (Some (union_onto k perms d)))
  | None => raise (KeyError "groups")
  end.

Fixpoint fold_m {A S} (xs : list A) (body : A -> S -> M S) (s : S) : M S :=
  match xs with
  | [] => ret s
  | x :: xs' => s' <- body x s ;; fold_m xs' body s'
  end.

(** A ['users'] or ['groups'] entry made a dict: absent becomes empty, a
    list of pairs is read pair by pair. *)
Definition normalise (d : option PermDict) : PermDict :=
  match d with
  | None => []
  | Some l =>
      fold_left (fun acc kv => dict_set principal_eqb (fst kv) (snd kv) acc)
        l []
  end.

Definition view_perms_of (rtype : string) : list string :=
  if negb (mem rtype (DOWNLOADABLE_RESOURCES cfg))
  then VIEW_PERMISSIONS cfg
  else VIEW_PERMISSIONS cfg ++ DOWNLOAD_PERMISSIONS cfg.

Definition anonymous_group : Principal := PObj "anonymous".

(** The block of [get_workflow_permissions] guarded by
    [settings.ADMIN_MODERATE_UPLOADS or settings.RESOURCE_PUBLISHING]. *)
Definition workflow_grants (r : Resource) (rtype : string)
    (perm_spec : PermSpec) : M PermSpec :=
  let view_perms := view_perms_of rtype in
  call GetGroup "anonymous" ;;;
  gm <- gets (get_group_managers env r) ;;
  let '(member_group_perm, group_managers) := gm in
  s1 <- fold_m group_managers
          (fun group_manager s =>
             union_users group_manager (view_perms ++ ADMIN_PERMISSIONS cfg) s)
          perm_spec ;;
  s2 <- match member_group_perm with
        | Some groups =>
            fold_m groups
              (fun item s =>
                 let '(gr, perm) := item in
                 if negb (principal_eqb gr anonymous_group)
                    && negb (String.eqb (principal_name gr)
                               (REGISTERED_MEMBERS_GROUP_NAME cfg))
                 then union_groups gr perm s
                 else ret s)
              s1
        | None => ret s1
        end ;;
  s3 <- (if is_approved r then
           if AUTO_ASSIGN_REGISTERED_MEMBERS cfg then
             call GetGroup (REGISTERED_MEMBERS_GROUP_NAME cfg) ;;;
             union_groups (PObj (REGISTERED_MEMBERS_GROUP_NAME cfg))
               view_perms s2
           else union_groups anonymous_group view_perms s2
         else ret s2) ;;
  if is_published r then union_groups anonymous_group view_perms s3
  else ret s3.

(** The perm spec [get_workflow_permissions] starts from: the given one
    when it is not empty, else the resource's own, with both entries made
    dicts and passed through [fixup_perms]. *)
Definition initial_perm_spec (r : Resource) (_permissions : option PermSpec)
    (w : World) : PermSpec :=
  let perm_spec :=
    match _permissions with
    | Some p => if Nat.ltb 0 (spec_len p) then p
                else get_all_level_info env r w
    | None => get_all_level_info env r w
    end in
  fixup_perms env r
    (mkPermSpec (Some (normalise (ps_users perm_spec)))
                (Some (normalise (ps_groups perm_spec)))).

(** [ResourceManager.get_workflow_permissions] *)
Definition get_workflow_permissions (u : option string)
    (instance : option Resource) (permissions : PermSpec)
    : M (option PermSpec) :=
  _resource <- resolve u instance ;;
  let _permissions :=
    if Nat.ltb 0 (spec_len permissions) then
      Some (if compact_validate env permissions
            then compact_extended env permissions _resource
            else permissions)
    else None in
  match _resource with
  | Some r =>
      perm_spec <- gets (initial_perm_spec r _permissions) ;;
      let _resource_type := resource_type_of r in
      spec <- (if ADMIN_MODERATE_UPLOADS cfg || RESOURCE_PUBLISHING cfg
               then workflow_grants r _resource_type perm_spec
               else ret perm_spec) ;;
      call BackendGetWorkflowPermissions (uuid r) ;;;
      ret (Some (backend_get_workflow_permissions env r spec))
  | None => ret _permissions
  end.

End Engine.

(* ================================================================= *)
(** ** Concrete collaborators, settings and stores used in examples *)

Definition collab_eq_dec (a b : Collab) : {a = b} + {a <> b}.
Proof. decide equality. Defined.

(** Collaborators that answer the same way everywhere and raise as the given
    oracle says.  The concrete manager hands perm specs back unchanged. *)
Definition collaborators_with
    (oracle : Collab -> string -> World -> option Exn)
    (level_info : PermSpec) (at_backend : bool) : Collaborators :=
  mkCollaborators oracle
    (fun _ _ => at_backend) (fun _ _ => true) (fun _ _ => true)
    (fun _ p => p)
    (fun _ => "00000000-0000-0000-0000-00000000f4e5")
    (fun _ => None)
    (fun _ _ => level_info)
    (fun _ _ => [])
    (fun _ => false) (fun p _ => p) (fun _ p => p)
    (fun _ _ => []) (fun _ _ => (None, []))
    (fun _ _ => false)
    (fun m => match m with
              | Dataset => "dataset" | Document => "document" | Map => "map"
              | ResourceBase => "resourcebase" | OtherModel n => n
              end)
    (fun _ => false)
    "/static/geonode/img/missing_thumb.png"
    (fun _ => false).

(** No call raises. *)
Definition no_fault : Collab -> string -> World -> option Exn :=
  fun _ _ _ => None.

(** Exactly the call [c] raises, wherever it is made. *)
Definition fault_at (c : Collab) : Collab -> string -> World -> option Exn :=
  fun c' _ _ =>
    if collab_eq_dec c c' then Some (CollaboratorError "backend unavailable")
    else None.

Definition settings_with (moderate publishing : bool) : Settings :=
  mkSettings moderate publishing true true false "registered-members" false
    ["view_resourcebase"]
    ["change_resourcebase_metadata"; "delete_resourcebase";
     "change_resourcebase_permissions"; "publish_resourcebase"]
    ["download_resourcebase"]
    ["dataset"; "document"]
    ["change_dataset_data"]
    ["vector"].

Definition sample (p : nat) (u : string) (cls : Model) (is_vector_ : bool)
    (s : ProcessingState) : Resource :=
  mkResource (Some p) u cls "" is_vector_ "alice" s false false false []
    "" "" false.

Definition roads : Resource := sample 1 "uuid-roads" Dataset true STATE_PROCESSED.
Definition relief : Resource := sample 2 "uuid-relief" Dataset false STATE_PROCESSED.
Definition report : Resource := sample 3 "uuid-report" Document false STATE_PROCESSED.

Definition store : World := mkWorld [roads; relief; report] [] 4 [].

(** A store in which two dataset rows carry the same uuid. *)
Definition roads_again : Resource :=
  sample 6 "uuid-roads" Dataset true STATE_PROCESSED.

Definition doubled : World := mkWorld [roads; roads_again; report] [] 7 [].

(** The persisted processing states of the rows with uuid [u]. *)
Definition states_of (u : string) (w : World) : list ProcessingState :=
  map state (filter_uuid ResourceBase (Some u) (rows w)).

(* ================================================================= *)
(** ** Properties *)

(** *** Processing state after an operation *)

(** C1.  A lifecycle operation should leave PROCESSED or INVALID behind on
    every surviving resource, whether it succeeded or failed.
    [set_thumbnail] does not: when the concrete manager's [set_thumbnail]
    raises, the [except] branch only logs, the call returns [False], and the
    row of the resource still says RUNNING. *)
Theorem set_thumbnail_failure_leaves_running :
  exists w',
    set_thumbnail (collaborators_with (fault_at BackendSetThumbnail) empty_spec true)
      (Some "uuid-roads") None true true store = Ret false w'
    /\ states_of "uuid-roads" w' = [STATE_RUNNING].
Proof.
  eexists. split; vm_compute; reflexivity.
Qed.

(** *** Idempotence of [create] *)

Lemma model_eqb_refl (m : Model) : model_eqb m m = true.
Proof. destruct m; simpl; auto using String.eqb_refl. Qed.

Lemma isinstance_with_class (r : Resource) (cls : Model) :
  isinstance (with_class r cls) cls = true.
Proof. destruct cls; simpl; auto using String.eqb_refl. Qed.

(** When the queryset of the requested class holds one row, [create] gives
    that row back and leaves nothing but its own entry in the trace. *)
Lemma create_existing (env : Collaborators) (cfg : Settings)
    (u : option string) (cls : Model) (defaults : Resource) (w : World)
    (r : Resource) :
  filter_uuid cls u (rows w) = [r] ->
  create env cfg u cls defaults w = Ret r (add_log (EvOp (OpCreate u cls)) w).
Proof.
  intro H. unfold create, bind, emit, modify, gets. simpl.
  rewrite H. simpl. rewrite H. reflexivity.
Qed.

(** C2, as stated, fails: a dataset with the uuid exists (two of them do),
    and [create] does not return it: the queryset's [get()] raises
    [MultipleObjectsReturned]. *)
Lemma create_on_shared_uuid_raises :
  In roads (rows doubled)
  /\ isinstance roads Dataset = true
  /\ create (collaborators_with no_fault empty_spec true)
       (settings_with false false) (Some (uuid roads)) Dataset report doubled
     = Exc MultipleObjectsReturned
         (add_log (EvOp (OpCreate (Some (uuid roads)) Dataset)) doubled).
Proof.
  split; [simpl; auto|]. split; reflexivity.
Qed.

(** C2, amended.  [create] is idempotent on a uuid that exactly one resource
    of the requested class carries: it returns that row as it is, and the
    world after the call differs from the world before only by the record
    of the call: no insert, no call to the concrete manager, no state
    transition.  A second call therefore returns the same resource again.
    Nothing is asked of the other rows of the store. *)
Theorem create_idempotent (env : Collaborators) (cfg : Settings)
    (u : option string) (cls : Model) (defaults : Resource) (w : World)
    (r : Resource) :
  filter_uuid cls u (rows w) = [r] ->
  let w1 := add_log (EvOp (OpCreate u cls)) w in
  create env cfg u cls defaults w = Ret r w1
  /\ create env cfg u cls defaults w1
     = Ret r (add_log (EvOp (OpCreate u cls)) w1).
Proof.
  intros H w1. split; apply create_existing; exact H.
Qed.

Lemma create_idempotent_witness :
  create (collaborators_with no_fault empty_spec true)
    (settings_with false false) (Some "uuid-report") Document roads doubled
  = Ret report
      (add_log (EvOp (OpCreate (Some "uuid-report") Document)) doubled)
  /\ create (collaborators_with no_fault empty_spec true)
       (settings_with false false) (Some "uuid-report") Document roads
       (add_log (EvOp (OpCreate (Some "uuid-report") Document)) doubled)
     = Ret report
         (add_log (EvOp (OpCreate (Some "uuid-report") Document))
            (add_log (EvOp (OpCreate (Some "uuid-report") Document))
               doubled)).
Proof.
  apply (create_idempotent (collaborators_with no_fault empty_spec true)
           (settings_with false false) (Some "uuid-report") Document roads
           doubled report).
  reflexivity.
Defined.

Lemma filter_update_rows (P : Resource -> bool) (p : option nat)
    (f : Resource -> Resource) (rs : list Resource) :
  (forall x, P (f x) = P x) ->
  filter P (update_rows p f rs) = update_rows p f (filter P rs).
Proof.
  intro HP. unfold update_rows.
  induction rs as [|x rs IH]; simpl; auto.
  destruct (opt_nat_eqb (pk x) p) eqn:E.
  - rewrite HP. destruct (P x); simpl; rewrite ?E, IH; reflexivity.
  - destruct (P x); simpl; rewrite ?E, IH; reflexivity.
Qed.

Lemma filter_uuid_update_rows (cls : Model) (u : option string)
    (p : option nat) (s : ProcessingState) (rs : list Resource) :
  filter_uuid cls u (update_rows p (mark s) rs)
  = update_rows p (mark s) (filter_uuid cls u rs).
Proof.
  destruct u as [v|]; simpl; auto.
  apply filter_update_rows. intro x. destruct s, cls; reflexivity.
Qed.

(** Creating a resource under a uuid that no row of the class carries, with
    a concrete manager that does not fail, and then calling [create] again
    with that uuid: the second call returns the resource of the first and
    inserts nothing. *)
Lemma create_twice_same_resource (env : Collaborators) (cfg : Settings)
    (s : string) (cls : Model) (defaults : Resource) (w : World) :
  s <> "" ->
  filter_uuid cls (Some s) (rows w) = [] ->
  (forall w', raises env BackendCreate s w' = None) ->
  exists r w1,
    create env cfg (Some s) cls defaults w = Ret r w1
    /\ create env cfg (Some s) cls defaults w1
       = Ret r (add_log (EvOp (OpCreate (Some s) cls)) w1).
Proof.
  intros Hs Hnone Hok.
  assert (Ht : truthy (Some s) = Some s).
  { simpl. destruct (String.eqb s "") eqn:E; auto.
    apply String.eqb_eq in E. contradiction. }
  unfold create at 1. rewrite Ht.
  cbv beta delta [bind emit modify gets]. cbn [rows add_log].
  rewrite Hnone. cbn [qs_exists].
  unfold get_or_create. cbv beta delta [bind gets]. cbn [rows add_log].
  rewrite Hnone.
  cbv beta iota delta [save try_except atomic bind set_missing_info ret call
    set_processing_state resourcebase_post_save emit modify].
  cbn [rows add_log with_rows grants next_pk log uuid pk with_pk].
  rewrite Hok.
  eexists. eexists. split; [reflexivity|].
  apply create_existing.
  cbn [rows add_log with_rows pk mark with_state with_pk].
  rewrite !filter_uuid_update_rows.
  unfold filter_uuid in *. rewrite filter_app, Hnone.
  assert (Hi : isinstance
                 (with_pk (with_pk (with_class (with_uuid defaults s) cls) None)
                    (Some (next_pk w))) cls = true)
    by (destruct cls; simpl; auto using String.eqb_refl).
  cbn [filter app]. rewrite Hi.
  cbn [uuid with_pk with_class with_uuid]. rewrite String.eqb_refl.
  cbn [andb update_rows map pk with_pk opt_nat_eqb mark with_state].
  rewrite Nat.eqb_refl. simpl. rewrite Nat.eqb_refl. reflexivity.
Qed.

(** *** The trace only grows *)

(** [extends w w']: the trace of [w'] is the trace of [w] with more events
    in front. *)
Definition extends (w w' : World) : Prop :=
  exists l : list Event, log w' = (l ++ log w)%list.

(** A computation that never drops an event from the trace. *)
Definition grows {A} (m : M A) : Prop :=
  forall w, extends w (world_of (m w)).

Lemma extends_refl (w : World) : extends w w.
Proof. exists []. reflexivity. Qed.

Lemma extends_trans (w1 w2 w3 : World) :
  extends w1 w2 -> extends w2 w3 -> extends w1 w3.
Proof.
  intros [l1 H1] [l2 H2]. exists (l2 ++ l1)%list.
  rewrite H2, H1, app_assoc. reflexivity.
Qed.

Lemma extends_same_log (w w' : World) : log w' = log w -> extends w w'.
Proof. intro H. exists []. exact H. Qed.

Lemma extends_add_log (ev : Event) (w w' : World) :
  extends w w' -> extends w (add_log ev w').
Proof. intros [l H]. exists (ev :: l). simpl. rewrite H. reflexivity. Qed.

Lemma extends_In (ev : Event) (w w' : World) :
  extends w w' -> In ev (log w) -> In ev (log w').
Proof. intros [l H] Hin. rewrite H. apply in_or_app. auto. Qed.

Lemma grows_ret {A} (a : A) : grows (ret a).
Proof. intro w. apply extends_refl. Qed.

Lemma grows_raise {A} (e : Exn) : grows (@raise A e).
Proof. intro w. apply extends_refl. Qed.

Lemma grows_gets {A} (f : World -> A) : grows (gets f).
Proof. intro w. apply extends_refl. Qed.

Lemma grows_emit (ev : Event) : grows (emit ev).
Proof. intro w. apply extends_add_log, extends_refl. Qed.

Lemma grows_modify (f : World -> World) :
  (forall w, log (f w) = log w) -> grows (modify f).
Proof. intros H w. apply extends_same_log. simpl. apply H. Qed.

Lemma grows_bind {A B} (m : M A) (k : A -> M B) :
  grows m -> (forall a, grows (k a)) -> grows (bind m k).
Proof.
  intros Hm Hk w. unfold bind. specialize (Hm w).
  destruct (m w) as [a w'|e w']; simpl in *; auto.
  eapply extends_trans; [exact Hm|apply Hk].
Qed.

Lemma grows_try_except {A} (m : M A) (h : Exn -> M A) :
  grows m -> (forall e, grows (h e)) -> grows (try_except m h).
Proof.
  intros Hm Hh w. unfold try_except. specialize (Hm w).
  destruct (m w) as [a w'|e w']; simpl in *; auto.
  eapply extends_trans; [exact Hm|apply Hh].
Qed.

Lemma grows_try_finally {A B} (m : M A) (f : M B) :
  grows m -> grows f -> grows (try_finally m f).
Proof.
  intros Hm Hf w. unfold try_finally. specialize (Hm w).
  destruct (m w) as [a w'|e w']; simpl in *;
    specialize (Hf w'); destruct (f w'); simpl in *;
    eapply extends_trans; eauto.
Qed.

Lemma grows_atomic {A} (m : M A) : grows m -> grows (atomic m).
Proof.
  intros Hm w. unfold atomic. specialize (Hm w).
  destruct (m w) as [a w'|e w']; simpl in *; auto.
  destruct Hm as [l H]. exists (EvRollback :: l). simpl. rewrite H.
  reflexivity.
Qed.

Lemma grows_with_world {A} (f : World -> M A) :
  (forall w0, grows (f w0)) -> grows (with_world f).
Proof. intros H w. apply (H w w). Qed.

Lemma grows_for_each {A} (xs : list A) (body : A -> M unit) :
  (forall x, grows (body x)) -> grows (for_each xs body).
Proof.
  intro H. induction xs as [|x xs IH]; simpl.
  - apply grows_ret.
  - apply grows_bind; auto.
Qed.

Lemma grows_fold_m {A S} (xs : list A) (body : A -> S -> M S) (s : S) :
  (forall x s', grows (body x s')) -> grows (fold_m xs body s).
Proof.
  intro H. revert s. induction xs as [|x xs IH]; intro s; simpl.
  - apply grows_ret.
  - apply grows_bind; auto.
Qed.

Lemma grows_call (env : Collaborators) (c : Collab) (t : string) :
  grows (call env c t).
Proof.
  intro w. unfold call. destruct (raises env c t w); simpl;
    apply extends_add_log, extends_refl.
Qed.

Lemma grows_save (r : Resource) : grows (save r).
Proof.
  intro w. unfold save. destruct (pk r) as [p|]; [destruct (has_pk p (rows w))|];
    simpl; eexists [_]; reflexivity.
Qed.

Lemma grows_qs_get (q : list Resource) : grows (qs_get q).
Proof.
  destruct q as [|x [|y q]]; simpl; auto using grows_ret, grows_raise.
Qed.

Create HintDb grows.

#[export] Hint Resolve grows_ret grows_raise grows_gets grows_emit grows_call
  grows_save grows_qs_get grows_atomic : grows.

(** Takes a computation apart along its binds, handlers and branches. *)
Ltac grows_step :=
  match goal with
  | |- grows (bind _ _) => apply grows_bind; [|intro]
  | |- grows (try_except _ _) => apply grows_try_except; [|intro]
  | |- grows (try_finally _ _) => apply grows_try_finally
  | |- grows (atomic _) => apply grows_atomic
  | |- grows (with_world _) => apply grows_with_world; intro
  | |- grows (swallow _) => apply grows_try_except; [|intro]
  | |- grows (for_each _ _) => apply grows_for_each; intro
  | |- grows (fold_m _ _ _) => apply grows_fold_m; intros
  | |- grows (modify _) => apply grows_modify; intro; try reflexivity
  | |- grows (logger_exception _) => apply grows_emit
  | |- grows (if ?b then _ else _) => destruct b
  | |- grows (match ?x with _ => _ end) => destruct x
  | |- grows (let '(_, _) := ?x in _) => destruct x
  | |- grows _ => solve [auto with grows]
  end.

Ltac grows_tac := repeat grows_step.

Lemma grows_set_processing_state (r : Resource) (s : ProcessingState) :
  grows (set_processing_state r s).
Proof. unfold set_processing_state. grows_tac. Qed.

Lemma grows_set_dirty_state (r : Resource) : grows (set_dirty_state r).
Proof. unfold set_dirty_state. grows_tac. Qed.

Lemma grows_resolve (u : option string) (i : option Resource) :
  grows (resolve u i).
Proof.
  unfold resolve, _get_instance. grows_tac.
Qed.

Lemma grows_delete_rows_pk (p : option nat) : grows (delete_rows_pk p).
Proof. unfold delete_rows_pk. grows_tac. Qed.

Lemma grows_delete_rows_uuid (u : string) : grows (delete_rows_uuid u).
Proof. unfold delete_rows_uuid. grows_tac. Qed.

Lemma grows_remove_grants (ct : ContentType) (p : option nat) :
  grows (remove_grants ct p).
Proof. unfold remove_grants. grows_tac. Qed.

#[export] Hint Resolve grows_set_processing_state grows_set_dirty_state
  grows_resolve grows_delete_rows_pk grows_delete_rows_uuid
  grows_remove_grants : grows.

Lemma grows_remove_permissions (env : Collaborators) (u : option string)
    (i : option Resource) : grows (remove_permissions env u i).
Proof. unfold remove_permissions. grows_tac. Qed.

#[export] Hint Resolve grows_remove_permissions : grows.

Lemma grows_delete_body (env : Collaborators) (cfg : Settings) (u : string)
    (r : Resource) : grows (delete_body env cfg u r).
Proof. unfold delete_body. grows_tac. Qed.

#[export] Hint Resolve grows_delete_body : grows.

Lemma grows_delete (env : Collaborators) (cfg : Settings) (u : option string)
    (i : option Resource) : grows (delete env cfg u i).
Proof. unfold delete. grows_tac. Qed.

#[export] Hint Resolve grows_delete : grows.

(** *** [delete] *)

(** What [instance or _get_instance(uuid)] evaluates to. *)
Definition resolved (u : option string) (instance : option Resource)
    (w : World) : option Resource :=
  match instance with
  | Some r => Some r
  | None =>
      match filter_uuid ResourceBase u (rows w) with
      | [r] => Some r
      | _ => None
      end
  end.

(** [uuid or _resource.uuid] *)
Definition effective_uuid (u : option string) (r : Resource) : string :=
  match truthy u with Some s => s | None => uuid r end.

Lemma resolve_resolved (u : option string) (i : option Resource) (w : World) :
  resolve u i w = Ret (resolved u i w) w.
Proof.
  unfold resolve, resolved, _get_instance, bind, gets, ret.
  destruct i as [r|]; auto.
  destruct (filter_uuid ResourceBase u (rows w)) as [|x [|y q]]; reflexivity.
Qed.

Lemma bind_Ret {A B} (m : M A) (k : A -> M B) (w : World) (a : A)
    (w' : World) :
  m w = Ret a w' -> bind m k w = k a w'.
Proof. intro H. unfold bind. rewrite H. reflexivity. Qed.

Lemma bind_Exc {A B} (m : M A) (k : A -> M B) (w : World) (e : Exn)
    (w' : World) :
  m w = Exc e w' -> bind m k w = Exc e w'.
Proof. intro H. unfold bind. rewrite H. reflexivity. Qed.

(** A handler that returns makes the whole [try] return. *)
Lemma try_except_returns {A} (m : M A) (h : Exn -> M A) (w : World) :
  (forall e w1, exists a w2, h e w1 = Ret a w2) ->
  exists a w2, try_except m h w = Ret a w2.
Proof.
  intro Hh. unfold try_except. destruct (m w) as [a w'|e w']; eauto.
Qed.

Lemma swallow_returns (m : M unit) (w : World) :
  exists w', swallow m w = Ret tt w'.
Proof.
  unfold swallow, try_except. destruct (m w) as [[] w'|e w']; eauto.
  unfold logger_exception, emit, modify. eauto.
Qed.

(** The shape of every run of [delete] that resolves its target [r]: the
    guarded body returns some [n] (1 from [return 1], 0 from the handler),
    and when a base record with the uuid exists the [finally] clause then
    removes every such record. *)
Lemma delete_outcome (env : Collaborators) (cfg : Settings)
    (u : option string) (i : option Resource) (w : World) (r : Resource) :
  resolved u i w = Some r ->
  let s := effective_uuid u r in
  let w0 := add_log (EvOp (OpDelete u)) w in
  exists n w2,
    try_except (delete_body env cfg s r)
      (fun e => logger_exception e ;;; ret 0) w0 = Ret n w2
    /\ delete env cfg u i w
       = if qs_exists (filter_uuid ResourceBase (Some s) (rows w))
         then Ret n (add_log (EvDeleteByUuid s)
                       (with_rows w2
                          (filter (fun x => negb (String.eqb (uuid x) s))
                             (rows w2))))
         else Ret 0 w0.
Proof.
  intros Hr s w0.
  destruct (try_except_returns (delete_body env cfg s r)
              (fun e => logger_exception e ;;; ret 0) w0) as (n & w2 & Hbody).
  { intros e w1. unfold logger_exception, emit, modify, bind, ret. eauto. }
  exists n, w2. split; [exact Hbody|].
  assert (Hres : resolve u i w0 = Ret (Some r) w0).
  { rewrite resolve_resolved. f_equal. rewrite <- Hr. reflexivity. }
  unfold delete, atomic.
  rewrite (bind_Ret _ _ w tt w0) by reflexivity.
  rewrite (bind_Ret _ _ w0 (Some r) w0) by exact Hres.
  rewrite (bind_Ret _ _ w0 s w0)
    by (unfold s, effective_uuid; destruct (truthy u); reflexivity).
  rewrite (bind_Ret _ _ w0
             (qs_exists (filter_uuid ResourceBase (Some s) (rows w))) w0)
    by reflexivity.
  destruct (qs_exists (filter_uuid ResourceBase (Some s) (rows w))); auto.
  unfold bind at 1. unfold try_finally. rewrite Hbody.
  unfold delete_rows_uuid, bind, modify, emit, ret. reflexivity.
Qed.

Lemma filter_uuid_after_delete (s : string) (rs : list Resource) :
  filter_uuid ResourceBase (Some s)
    (filter (fun x => negb (String.eqb (uuid x) s)) rs) = [].
Proof.
  unfold filter_uuid. induction rs as [|x rs IH]; simpl; auto.
  destruct (String.eqb (uuid x) s) eqn:E; simpl; auto.
  rewrite E. exact IH.
Qed.

Lemma filter_uuid_nil_not_in (s : string) (rs : list Resource) :
  filter_uuid ResourceBase (Some s) rs = [] ->
  forall x, In x rs -> uuid x <> s.
Proof.
  unfold filter_uuid. intros H x Hin Heq.
  assert (Hx : In x (filter (fun r => isinstance r ResourceBase
                                       && String.eqb (uuid r) s) rs)).
  { apply filter_In. split; auto. simpl. apply String.eqb_eq. exact Heq. }
  rewrite H in Hx. contradiction.
Qed.

(** Whenever [delete] resolves its target it returns, and no base record
    with the uuid it worked on is left, whatever the collaborators did. *)
Lemma delete_removes (env : Collaborators) (cfg : Settings)
    (u : option string) (i : option Resource) (w : World) (r : Resource) :
  resolved u i w = Some r ->
  exists n w',
    delete env cfg u i w = Ret n w'
    /\ filter_uuid ResourceBase (Some (effective_uuid u r)) (rows w') = [].
Proof.
  intro Hr.
  destruct (delete_outcome env cfg u i w r Hr) as (n & w2 & _ & Hd).
  rewrite Hd.
  destruct (qs_exists (filter_uuid ResourceBase (Some (effective_uuid u r))
                         (rows w))) eqn:E.
  - eexists. eexists. split; [reflexivity|].
    apply filter_uuid_after_delete.
  - assert (F : filter_uuid ResourceBase (Some (effective_uuid u r)) (rows w)
                 = []).
    { destruct (filter_uuid ResourceBase (Some (effective_uuid u r)) (rows w));
        [reflexivity|discriminate E]. }
    exists 0. eexists. split; [reflexivity|]. exact F.
Qed.

(** Every call raises. *)
Definition all_fault : Collab -> string -> World -> option Exn :=
  fun _ _ _ => Some (CollaboratorError "backend unavailable").

(** The cascade steps and the permission reset all raise, the concrete
    manager's delete does not. *)
Definition cascade_fault : Collab -> string -> World -> option Exn :=
  fun c _ _ =>
    match c with
    | MapLayersDelete | OverallRatingDelete | UploadsDelete | StylesDelete
    | DefaultStyleDelete | HarvesterUnmark | BackendRemovePermissions =>
        Some (CollaboratorError "cascade step failed")
    | _ => None
    end.

Lemma call_ok (env : Collaborators) (c : Collab) (t : string) (w : World) :
  raises env c t w = None ->
  call env c t w = Ret tt (add_log (EvCall c t) w).
Proof. intro H. unfold call. rewrite H. reflexivity. Qed.

Lemma call_raises (env : Collaborators) (c : Collab) (t : string) (w : World)
    (e : Exn) :
  raises env c t w = Some e ->
  call env c t w = Exc e (add_log (EvCall c t) w).
Proof. intro H. unfold call. rewrite H. reflexivity. Qed.

(** Runs the next [swallow]ed block of a sequence: it returns. *)
Ltac step_swallow :=
  match goal with
  | |- context [bind (swallow ?m) ?k ?w] =>
      let w' := fresh "w" in
      let H := fresh "H" in
      destruct (swallow_returns m w) as [w' H];
      rewrite (bind_Ret (swallow m) k w tt w' H)
  end.

(** When neither the concrete manager's delete nor the deletion of the
    concrete record fails (a missing record apart), the body of [delete]
    reaches [return 1], whatever the cascade steps do. *)
Lemma delete_body_returns (env : Collaborators) (cfg : Settings) (s : string)
    (r : Resource) (w0 : World) :
  (forall w, raises env BackendDelete s w = None) ->
  (forall w e, raises env ConcreteDelete (uuid r) w = Some e ->
               e = ResourceBaseDoesNotExist) ->
  exists w2, delete_body env cfg s r w0 = Ret 1 w2.
Proof.
  intros Hb Hc. unfold delete_body.
  erewrite bind_Ret; [|reflexivity].
  erewrite bind_Ret; [|apply call_ok, Hb].
  step_swallow. step_swallow.
  match goal with
  | |- context [bind (try_except ?m ?h) ?k ?w] =>
      assert (Ht : exists w', try_except m h w = Ret tt w')
  end.
  { unfold try_except, bind, call. cbn [uuid mark with_state].
    match goal with
    | |- context [raises env ConcreteDelete ?t ?w] =>
        destruct (raises env ConcreteDelete t w) as [e|] eqn:E
    end.
    - apply Hc in E. subst e. eexists. reflexivity.
    - eexists. reflexivity. }
  destruct Ht as [w' Ht]. erewrite bind_Ret; [|exact Ht].
  eexists. reflexivity.
Qed.

(** When the concrete manager's delete raises, so does the body. *)
Lemma delete_body_raises (env : Collaborators) (cfg : Settings) (s : string)
    (r : Resource) (w0 : World) (e : Exn) :
  (forall w, raises env BackendDelete s w = Some e) ->
  exists w2, delete_body env cfg s r w0 = Exc e w2.
Proof.
  intro Hb. unfold delete_body.
  erewrite bind_Ret; [|reflexivity].
  erewrite bind_Exc; [|apply call_raises, Hb].
  eexists. reflexivity.
Qed.

(** *** What the trace of [delete] shows *)












(** C5, as stated, fails: the concrete manager's delete raises for a dataset
    that exists; [delete] was attempted (and the base record is removed by
    the [finally] clause), yet the call returns 0, not 1. *)
Lemma delete_of_existing_returns_0 :
  In roads (rows store)
  /\ exists w',
       delete (collaborators_with (fault_at BackendDelete) empty_spec true)
         (settings_with false false) (Some "uuid-roads") None store = Ret 0 w'
       /\ states_of "uuid-roads" w' = [].
Proof.
  split; [simpl; auto|].
  eexists. split; vm_compute; reflexivity.
Qed.

(** C5, amended.  For a call that names its target, by a uuid that is not
    empty or by an instance:
    - when the target is not resolved, or no base record carries the uuid
      the call works on, [delete] returns 0 and the world changes only by
      the record of the call;
    - when the target exists, [delete] returns 1 and the base record is
      gone, provided neither the concrete manager's delete nor the deletion
      of the concrete record raises (a missing record apart), whatever the
      cascade steps do;
    - when the target exists and the concrete manager's delete raises,
      [delete] logs the failure, still removes the base record and
      returns 0. *)
Theorem delete_return_value (env : Collaborators) (cfg : Settings)
    (u : option string) (i : option Resource) (w : World) :
  truthy u <> None \/ i <> None ->
  (resolved u i w = None ->
   delete env cfg u i w = Ret 0 (add_log (EvOp (OpDelete u)) w))
  /\ (forall r,
        resolved u i w = Some r ->
        let s := effective_uuid u r in
        (filter_uuid ResourceBase (Some s) (rows w) = [] ->
         delete env cfg u i w = Ret 0 (add_log (EvOp (OpDelete u)) w))
        /\ (filter_uuid ResourceBase (Some s) (rows w) <> [] ->
            ((forall w1, raises env BackendDelete s w1 = None) ->
             (forall w1 e, raises env ConcreteDelete (uuid r) w1 = Some e ->
                           e = ResourceBaseDoesNotExist) ->
             exists w',
               delete env cfg u i w = Ret 1 w'
               /\ forall x, In x (rows w') -> uuid x <> s)
            /\ (forall e,
                  (forall w1, raises env BackendDelete s w1 = Some e) ->
                  exists w',
                    delete env cfg u i w = Ret 0 w'
                    /\ In (EvLogged e) (log w')
                    /\ forall x, In x (rows w') -> uuid x <> s))).
Proof.
  intro Hnamed. split.
  - intro Hr.
    destruct (truthy u) as [s|] eqn:Hu.
    + unfold delete, atomic.
      rewrite (bind_Ret _ _ w tt (add_log (EvOp (OpDelete u)) w))
        by reflexivity.
      rewrite (bind_Ret _ _ _ None (add_log (EvOp (OpDelete u)) w))
        by (rewrite resolve_resolved; f_equal; exact Hr).
      rewrite Hu. reflexivity.
    + destruct Hnamed as [H|H]; [contradiction|].
      destruct i as [r|]; [discriminate Hr|contradiction].
  - intros r Hr s.
    destruct (delete_outcome env cfg u i w r Hr) as (n & w2 & Hbody & Hd).
    fold s in Hbody, Hd.
    split.
    + intro H. rewrite Hd, H. reflexivity.
    + intro Hex.
      assert (Hq : qs_exists (filter_uuid ResourceBase (Some s) (rows w))
                   = true)
        by (destruct (filter_uuid ResourceBase (Some s) (rows w));
            [contradiction|reflexivity]).
      rewrite Hq in Hd. rewrite Hd.
      assert (Hgone : forall (k : nat) (w3 : World) (x : Resource),
                In x (rows (add_log (EvDeleteByUuid s)
                              (with_rows w3
                                 (filter (fun y => negb (String.eqb (uuid y) s))
                                    (rows w3))))) ->
                uuid x <> s).
      { intros _ w3. apply filter_uuid_nil_not_in.
        apply filter_uuid_after_delete. }
      split.
      * intros Hb Hc.
        destruct (delete_body_returns env cfg s r
                    (add_log (EvOp (OpDelete u)) w) Hb Hc) as [w3 H3].
        unfold try_except in Hbody. rewrite H3 in Hbody.
        inversion Hbody; subst. eexists. split; [reflexivity|].
        apply (Hgone 0).
      * intros e Hb.
        destruct (delete_body_raises env cfg s r
                    (add_log (EvOp (OpDelete u)) w) e Hb) as [w3 H3].
        unfold try_except in Hbody. rewrite H3 in Hbody.
        unfold bind, logger_exception, emit, modify, ret in Hbody.
        inversion Hbody; subst. eexists. split; [reflexivity|]. split.
        -- simpl. auto.
        -- apply (Hgone 0).
Qed.

Lemma delete_return_value_witness :
  delete (collaborators_with no_fault empty_spec true)
    (settings_with false false) (Some "uuid-none") None store
  = Ret 0 (add_log (EvOp (OpDelete (Some "uuid-none"))) store)
  /\ (exists w',
        delete (collaborators_with cascade_fault empty_spec true)
          (settings_with false false) (Some "uuid-roads") None store
        = Ret 1 w'
        /\ forall x, In x (rows w') -> uuid x <> "uuid-roads")
  /\ (exists w',
        delete (collaborators_with (fault_at BackendDelete) empty_spec true)
          (settings_with false false) None (Some roads) store
        = Ret 0 w'
        /\ In (EvLogged (CollaboratorError "backend unavailable")) (log w')
        /\ forall x, In x (rows w') -> uuid x <> "uuid-roads").
Proof.
  split; [|split].
  - apply (delete_return_value (collaborators_with no_fault empty_spec true)
             (settings_with false false) (Some "uuid-none") None store).
    + left. discriminate.
    + reflexivity.
  - destruct (delete_return_value
                (collaborators_with cascade_fault empty_spec true)
                (settings_with false false) (Some "uuid-roads") None store)
      as [_ H]; [left; discriminate|].
    destruct (H roads eq_refl) as [_ H1].
    destruct H1 as [H1 _]; [discriminate|].
    apply H1.
    + intro w1. reflexivity.
    + intros w1 e He. discriminate He.
  - destruct (delete_return_value
                (collaborators_with (fault_at BackendDelete) empty_spec true)
                (settings_with false false) None (Some roads) store)
      as [_ H]; [right; discriminate|].
    destruct (H roads eq_refl) as [_ H1].
    destruct H1 as [_ H1]; [discriminate|].
    apply H1. intro w1. reflexivity.
Defined.

(** *** Failure of [create] *)

(** A transition to INVALID in the trace. *)
Definition marks_invalid (ev : Event) : bool :=
  match ev with
  | EvSetState _ STATE_INVALID => true
  | _ => false
  end.

(** C3, as stated, fails: the concrete manager's create raises for a new
    dataset; [create] re-raises, but no transition to INVALID was made on the
    way. *)
Lemma create_failure_without_invalid :
  exists e w',
    create (collaborators_with (fault_at BackendCreate) empty_spec true)
      (settings_with false false) (Some "uuid-new") Dataset roads store
    = Exc e w'
    /\ existsb marks_invalid (log w') = false.
Proof.
  eexists. eexists. split; vm_compute; reflexivity.
Qed.

(** The trace of a run of [delete] starts with the record of the call. *)
Lemma delete_extends_entry (env : Collaborators) (cfg : Settings)
    (u : option string) (i : option Resource) (w : World) :
  extends (add_log (EvOp (OpDelete u)) w) (world_of (delete env cfg u i w)).
Proof.
  unfold delete.
  match goal with
  | |- context [atomic (bind (emit ?ev) ?k)] =>
      assert (Hk : grows (k tt)) by grows_tac;
      specialize (Hk (add_log ev w));
      unfold atomic; rewrite (bind_Ret (emit ev) k w tt (add_log ev w))
        by reflexivity;
      destruct (k tt (add_log ev w)) as [a w'|e w']; simpl in *; auto
  end.
  destruct Hk as [l H]. exists (EvRollback :: l). simpl. rewrite H.
  reflexivity.
Qed.

(** C3, amended.  When the concrete manager's create raises [e] for a new
    record, [create] makes no transition of its own but the one to RUNNING:
    it rolls the block back, logs [e], invokes [delete] on the new resource
    and raises [e] again.  After that no record with the uuid is left. *)
Theorem create_failure_compensates (env : Collaborators) (cfg : Settings)
    (s : string) (cls : Model) (defaults : Resource) (w : World) (e : Exn) :
  s <> "" ->
  filter_uuid cls (Some s) (rows w) = [] ->
  (forall w1, raises env BackendCreate s w1 = Some e) ->
  exists w' l,
    create env cfg (Some s) cls defaults w = Exc e w'
    /\ log w' = (l ++ [EvOp (OpDelete (Some s)); EvLogged e; EvRollback;
                       EvCall BackendCreate s;
                       EvSetState (Some (next_pk w)) STATE_RUNNING;
                       EvInsert (next_pk w) s;
                       EvOp (OpCreate (Some s) cls)] ++ log w)%list
    /\ forall x, In x (rows w') -> uuid x <> s.
Proof.
  intros Hs Hnone Hraise.
  assert (Ht : truthy (Some s) = Some s).
  { simpl. destruct (String.eqb s "") eqn:E; auto.
    apply String.eqb_eq in E. contradiction. }
  unfold create. rewrite Ht.
  cbv beta delta [bind emit modify gets]. cbn [rows add_log].
  rewrite Hnone. cbn [qs_exists].
  unfold get_or_create. cbv beta delta [bind gets]. cbn [rows add_log].
  rewrite Hnone.
  cbv beta iota delta [save try_except atomic bind set_missing_info ret call
    set_processing_state emit modify logger_exception raise].
  cbn [rows add_log with_rows grants next_pk log uuid pk with_pk].
  rewrite Hraise.
  set (r := mark STATE_RUNNING
              (with_pk (with_pk (with_class (with_uuid defaults s) cls) None)
                 (Some (next_pk w)))).
  assert (Hur : uuid r = s) by reflexivity.
  match goal with
  | |- context [delete env cfg ?a ?b ?W] =>
      destruct (delete_removes env cfg a b W r eq_refl)
        as (n & w' & Hd & Hgone);
      pose proof (delete_extends_entry env cfg a b W) as Hext;
      rewrite Hd in *
  end.
  exists w'. destruct Hext as [l Hl]. exists l.
  split; [reflexivity|]. split.
  - cbn [world_of] in Hl. rewrite Hl, Hur. reflexivity.
  - apply filter_uuid_nil_not_in.
    replace (effective_uuid (Some (uuid r)) r) with s in Hgone; auto.
    unfold effective_uuid. rewrite Hur, Ht. reflexivity.
Qed.

Lemma create_failure_compensates_witness :
  exists w' l,
    create (collaborators_with (fault_at BackendCreate) empty_spec true)
      (settings_with false false) (Some "uuid-new") Dataset roads store
    = Exc (CollaboratorError "backend unavailable") w'
    /\ log w' = (l ++ [EvOp (OpDelete (Some "uuid-new"));
                       EvLogged (CollaboratorError "backend unavailable");
                       EvRollback;
                       EvCall BackendCreate "uuid-new";
                       EvSetState (Some (next_pk store)) STATE_RUNNING;
                       EvInsert (next_pk store) "uuid-new";
                       EvOp (OpCreate (Some "uuid-new") Dataset)]
                   ++ log store)%list
    /\ forall x, In x (rows w') -> uuid x <> "uuid-new".
Proof.
  apply (create_failure_compensates
           (collaborators_with (fault_at BackendCreate) empty_spec true)
           (settings_with false false) "uuid-new" Dataset roads store
           (CollaboratorError "backend unavailable")).
  - discriminate.
  - reflexivity.
  - intro w1. reflexivity.
Defined.

(** *** Failure inside the transaction of [update] *)

(** The instance and the world with which [update] enters its [try]. *)
Definition update_entry_instance (r : Resource) (metadata_uploaded_ : bool)
    : Resource :=
  with_metadata_uploaded (mark STATE_RUNNING r) metadata_uploaded_.

Definition update_entry_world (u : option string) (vals : Vals)
    (r : Resource) (w : World) : World :=
  add_log (EvSetState (pk r) STATE_RUNNING)
    (with_rows (add_log (EvOp (OpUpdate u vals)) w)
       (update_rows (pk r) (mark STATE_RUNNING) (rows w))).

Lemma update_rows_In (p : nat) (f : Resource -> Resource)
    (rs : list Resource) (x : Resource) :
  (forall y, pk (f y) = pk y) ->
  In x (update_rows (Some p) f rs) -> pk x = Some p ->
  exists y, In y rs /\ x = f y.
Proof.
  intros Hf. unfold update_rows. induction rs as [|y rs IH]; simpl.
  - contradiction.
  - intros [Hx|Hx] Hp.
    + destruct (opt_nat_eqb (pk y) (Some p)) eqn:E.
      * exists y. auto.
      * subst x. rewrite Hp in E. simpl in E. rewrite Nat.eqb_refl in E.
        discriminate E.
    + destruct (IH Hx Hp) as (z & Hz & Hxz). exists z. auto.
Qed.

Lemma save_uuid (r r' : Resource) (w w' : World) :
  save r w = Ret r' w' -> uuid r' = uuid r.
Proof.
  unfold save. destruct (pk r) as [p|]; [destruct (has_pk p (rows w))|];
    intro H; inversion H; reflexivity.
Qed.

Lemma instance_in_try_uuid (env : Collaborators) (u : option string)
    (r : Resource) (xml : option string) (md : bool) (w : World) :
  uuid (instance_in_try env u r xml md w) = uuid r.
Proof.
  unfold instance_in_try. destruct (update_metadata env u xml md w); auto.
  destruct (save r w0) eqn:E; auto. eapply save_uuid; eauto.
Qed.

(** C6.  When the block of [update] that runs under the transaction raises
    [e] (whatever raised it: a collaborator or the uuid check), [update]
    does not raise: it logs [e] and returns the instance, marked INVALID and
    dirty; so is every row of that instance in the store. *)
Theorem update_exception_marks_invalid (env : Collaborators)
    (u : option string) (instance : option Resource)
    (xml_file : option string) (metadata_uploaded_ : bool) (vals : Vals)
    (notify : bool) (w : World) (r : Resource) (e : Exn) (wt : World) :
  resolved u instance w = Some r ->
  update_transaction env u (update_entry_instance r metadata_uploaded_)
    xml_file metadata_uploaded_ (update_entry_world u vals r w) = Exc e wt ->
  exists r' w',
    update env u instance xml_file metadata_uploaded_ vals notify w
    = Ret (Some r') w'
    /\ state r' = STATE_INVALID /\ dirty_state r' = true
    /\ uuid r' = uuid r
    /\ In (EvLogged e) (log w')
    /\ forall x, In x (rows w') -> pk x = pk r' -> pk r' <> None ->
                 state x = STATE_INVALID /\ dirty_state x = true.
Proof.
  intros Hr Htxn.
  unfold update.
  rewrite (bind_Ret _ _ w tt (add_log (EvOp (OpUpdate u vals)) w))
    by reflexivity.
  rewrite (bind_Ret _ _ _ (Some r) (add_log (EvOp (OpUpdate u vals)) w))
    by (rewrite resolve_resolved; f_equal; rewrite <- Hr; reflexivity).
  rewrite (bind_Ret _ _ _ (mark STATE_RUNNING r) (update_entry_world u vals r w))
    by reflexivity.
  rewrite (bind_Ret _ _ _ (mark STATE_RUNNING r) (update_entry_world u vals r w))
    by reflexivity.
  fold (update_entry_instance r metadata_uploaded_).
  set (r1 := update_entry_instance r metadata_uploaded_) in *.
  set (w1 := update_entry_world u vals r w) in *.
  set (rm := instance_in_try env u r1 xml_file metadata_uploaded_ w1).
  assert (Hfail : exists w2,
             with_world (fun w_try =>
               try_except
                 (r3 <- update_transaction env u r1 xml_file
                          metadata_uploaded_ ;;
                  r4 <- set_processing_state r3 STATE_PROCESSED ;; save r4)
                 (update_failed
                    (instance_in_try env u r1 xml_file metadata_uploaded_
                       w_try))) w1
             = Ret (with_dirty (mark STATE_INVALID rm) true) w2
             /\ In (EvLogged e) (log w2)
             /\ rows w2
                = update_rows (pk rm) (fun x => with_dirty x true)
                    (update_rows (pk rm) (mark STATE_INVALID) (rows wt))).
  { unfold with_world, try_except. rewrite (bind_Exc _ _ _ e wt Htxn).
    fold rm.
    unfold update_failed, logger_exception, set_processing_state,
      set_dirty_state, bind, emit, modify, ret.
    eexists. split; [reflexivity|]. split; [|reflexivity].
    simpl. auto. }
  destruct Hfail as (w2 & Htry & Hlog & Hrows).
  rewrite (bind_Ret _ _ _ _ _ Htry).
  unfold resourcebase_post_save, bind, emit, modify, ret.
  eexists. eexists. split; [reflexivity|].
  repeat split; auto.
  - apply (instance_in_try_uuid env u r1 xml_file metadata_uploaded_ w1).
  - cbn [log add_log]. right. exact Hlog.
  - cbn [rows add_log] in H. rewrite Hrows in H.
    change (pk (with_dirty (mark STATE_INVALID rm) true)) with (pk rm)
      in H0, H1.
    destruct (pk rm) as [p|] eqn:Hp; [|congruence].
    destruct (update_rows_In p (fun x => with_dirty x true) _ x
                (fun y => eq_refl) H H0)
      as (y & Hy & ->).
    assert (Hpy : pk y = Some p) by exact H0.
    destruct (update_rows_In p (mark STATE_INVALID) _ y
                (fun z => eq_refl) Hy Hpy)
      as (z & _ & ->).
    reflexivity.
  - cbn [rows add_log] in H. rewrite Hrows in H.
    change (pk (with_dirty (mark STATE_INVALID rm) true)) with (pk rm)
      in H0, H1.
    destruct (pk rm) as [p|] eqn:Hp; [|congruence].
    destruct (update_rows_In p (fun x => with_dirty x true) _ x
                (fun y => eq_refl) H H0)
      as (y & Hy & ->).
    reflexivity.
Qed.

Definition uuid_mismatch : Exn :=
  ValidationError
    "The UUID identifier from the XML Metadata is different from the {_resource} one.".

(** The uuid check is one of the failures of the block: with an uploaded
    metadata document that can be read, whose parsed uuid is not the uuid of
    the request, the block raises the validation error. *)
Lemma update_transaction_uuid_mismatch (env : Collaborators) (s xml : string)
    (r : Resource) (w : World) :
  s <> "" -> xml <> "" ->
  (forall w1, raises env StorageOpen xml w1 = None) ->
  (forall w1, raises env ParseMetadata xml w1 = None) ->
  parse_metadata env xml <> Some s ->
  exists wt,
    update_transaction env (Some s) r (Some xml) true w = Exc uuid_mismatch wt
    /\ rows wt = rows w.
Proof.
  intros Hs Hx Ho Hp Hne.
  assert (Hts : truthy (Some s) = Some s).
  { simpl. destruct (String.eqb s "") eqn:E; auto.
    apply String.eqb_eq in E. contradiction. }
  assert (Htx : truthy (Some xml) = Some xml).
  { simpl. destruct (String.eqb xml "") eqn:E; auto.
    apply String.eqb_eq in E. contradiction. }
  unfold update_transaction, update_metadata. rewrite Htx, Hts.
  unfold atomic, bind, try_except, call. rewrite Ho, Hp.
  destruct (parse_metadata env xml) as [s'|] eqn:E.
  - destruct (String.eqb s s') eqn:E'.
    + apply String.eqb_eq in E'. subst s'. contradiction.
    + eexists. split; reflexivity.
  - eexists. split; reflexivity.
Qed.

Lemma update_exception_marks_invalid_witness :
  exists r' w',
    update (collaborators_with no_fault empty_spec true) (Some "uuid-roads")
      None (Some "/uploads/roads.xml") true [] true store
    = Ret (Some r') w'
    /\ state r' = STATE_INVALID /\ dirty_state r' = true
    /\ uuid r' = uuid roads
    /\ In (EvLogged uuid_mismatch) (log w')
    /\ forall x, In x (rows w') -> pk x = pk r' -> pk r' <> None ->
                 state x = STATE_INVALID /\ dirty_state x = true.
Proof.
  eapply (update_exception_marks_invalid
            (collaborators_with no_fault empty_spec true) (Some "uuid-roads")
            None (Some "/uploads/roads.xml") true [] true store roads
            uuid_mismatch).
  - reflexivity.
  - vm_compute. reflexivity.
Defined.

(** *** [append] on resources that are not vector datasets *)

(** On an instance that is not a dataset [append] raises the exception of
    the policy check at once; the world changes only by the record of the
    call. *)
Lemma append_non_dataset (env : Collaborators) (instance : Resource)
    (vals : Vals) (w : World) :
  isinstance instance Dataset = false ->
  append env instance vals w
  = Exc (PyException "Append data is available only for Layers")
      (add_log (EvOp (OpAppend (uuid instance))) w).
Proof.
  intro H. unfold append, _validate_resource, bind, emit, modify.
  rewrite H. reflexivity.
Qed.

(** C7.  On a raster dataset that exists at the backend, [append] does fail
    and touches neither the backend data nor the record, but not with the
    error of the policy check: [_validate_resource] assigns [is_valid] only
    for vector datasets, so [return is_valid] raises [UnboundLocalError]. *)
Theorem append_raster_unbound_local (env : Collaborators)
    (instance : Resource) (vals : Vals) (w : World) :
  isinstance instance Dataset = true ->
  vector instance = false ->
  (forall w1, raises env BackendExists (uuid instance) w1 = None) ->
  (forall w1, backend_exists env instance w1 = true) ->
  append env instance vals w
  = Exc (UnboundLocalError "is_valid")
      (add_log (EvCall BackendExists (uuid instance))
         (add_log (EvOp (OpAppend (uuid instance))) w)).
Proof.
  intros Hd Hv Hr He.
  unfold append, _validate_resource. rewrite Hd, Hv.
  replace (String.eqb "append" "replace") with false by reflexivity.
  rewrite andb_false_r. cbn [negb andb].
  unfold bind, emit, modify, call, gets.
  rewrite Hr, He. reflexivity.
Qed.

Lemma append_raster_unbound_local_witness :
  append (collaborators_with no_fault empty_spec true) relief [] store
  = Exc (UnboundLocalError "is_valid")
      (add_log (EvCall BackendExists (uuid relief))
         (add_log (EvOp (OpAppend (uuid relief))) store)).
Proof.
  apply (append_raster_unbound_local
           (collaborators_with no_fault empty_spec true) relief [] store).
  - reflexivity.
  - reflexivity.
  - intro w1. reflexivity.
  - intro w1. reflexivity.
Defined.

(** *** Failure of the backend copy *)

Lemma has_pk_update_rows (p : nat) (q : option nat)
    (f : Resource -> Resource) (rs : list Resource) :
  (forall y, pk (f y) = pk y) ->
  has_pk p (update_rows q f rs) = has_pk p rs.
Proof.
  intro Hf. unfold has_pk, update_rows.
  induction rs as [|y rs IH]; simpl; auto.
  destruct (opt_nat_eqb (pk y) q); rewrite ?Hf, IH; reflexivity.
Qed.

Lemma update_rows_keeps (q : option nat) (f : Resource -> Resource)
    (rs : list Resource) (x : Resource) :
  In x rs -> opt_nat_eqb (pk x) q = false -> In x (update_rows q f rs).
Proof.
  unfold update_rows. intros Hin Hne.
  apply in_map_iff. exists x. rewrite Hne. auto.
Qed.

Lemma update_rows_const (p : nat) (c : Resource) (rs : list Resource)
    (x : Resource) :
  In x (update_rows (Some p) (fun _ => c) rs) -> pk x = Some p -> x = c.
Proof.
  unfold update_rows. intros Hin Hp.
  apply in_map_iff in Hin. destruct Hin as (y & Hy & _).
  destruct (opt_nat_eqb (pk y) (Some p)) eqn:E; auto.
  subst y. rewrite Hp in E. simpl in E. rewrite Nat.eqb_refl in E.
  discriminate E.
Qed.

(** C9, as stated, fails: the backend copy raises; [copy] does not return
    [None] but the source instance. *)
Lemma copy_failure_returns_source :
  exists w',
    copy (collaborators_with (fault_at BackendCopy) empty_spec true)
      (settings_with false false) (Some roads) (Some "uuid-roads-copy") None
      [] store
    = Ret (Some roads) w'.
Proof.
  eexists. vm_compute. reflexivity.
Qed.

(** C9, amended.  When the backend copy raises, [copy] does not raise: the
    record copy that was already saved is not rolled back (a row with the
    new uuid and the new key is in the store), the source instance is
    marked PROCESSED and saved, and the call returns the source
    instance. *)
Theorem copy_backend_failure (env : Collaborators) (cfg : Settings)
    (i : Resource) (p : nat) (s : string) (owner_ : option string)
    (defaults : Vals) (w : World) (e : Exn) :
  pk i = Some p -> has_pk p (rows w) = true -> p <> next_pk w ->
  s <> "" ->
  (forall w1, raises env GetAllLevelInfo (uuid i) w1 = None) ->
  (forall w1, raises env CloneRelated (uuid i) w1 = None) ->
  (forall w1, raises env StorageCopy s w1 = None) ->
  (forall w1, raises env BackendCopy s w1 = Some e) ->
  exists w',
    copy env cfg (Some i) (Some s) owner_ defaults w
    = Ret (Some (mark STATE_PROCESSED i)) w'
    /\ (exists c, In c (rows w') /\ uuid c = s /\ pk c = Some (next_pk w))
    /\ forall x, In x (rows w') -> pk x = Some p -> x = mark STATE_PROCESSED i.
Proof.
  intros Hp Hhas Hne Hs Hinfo Hrel Hsto Hcopy.
  assert (Ht : truthy (Some s) = Some s).
  { simpl. destruct (String.eqb s "") eqn:E; auto.
    apply String.eqb_eq in E. contradiction. }
  unfold copy, copy_clone. rewrite Ht.
  cbv beta iota delta [bind emit modify gets try_finally try_except call
    set_processing_state logger_exception ret].
  cbn [uuid mark with_state with_uuid with_pk pk].
  rewrite Hinfo.
  unfold save at 1. cbn [pk with_uuid with_pk uuid].
  cbn [rows grants next_pk log add_log with_rows].
  rewrite Hrel, Hsto, Hcopy.
  unfold save. cbn [pk mark with_state]. rewrite Hp.
  cbn [rows grants next_pk log add_log with_rows].
  rewrite !has_pk_update_rows by (intro y; reflexivity).
  unfold has_pk at 1. rewrite existsb_app.
  change (existsb (fun x => opt_nat_eqb (pk x) (Some p))
            (update_rows (Some p) (mark STATE_RUNNING) (rows w)))
    with (has_pk p (update_rows (Some p) (mark STATE_RUNNING) (rows w))).
  rewrite has_pk_update_rows by (intro y; reflexivity).
  rewrite Hhas. cbn [orb fst snd].
  eexists. split; [reflexivity|].
  cbn [rows add_log with_rows]. split.
  - exists (with_uuid (with_pk (mark STATE_RUNNING i) (Some (next_pk w))) s).
    split; [|split; reflexivity].
    apply update_rows_keeps.
    + apply update_rows_keeps.
      * apply in_or_app. right. simpl. left.
        destruct i; reflexivity.
      * simpl. apply Nat.eqb_neq. auto.
    + simpl. apply Nat.eqb_neq. auto.
  - intros x Hx Hpx. eapply update_rows_const; eauto.
Qed.

Lemma copy_backend_failure_witness :
  exists w',
    copy (collaborators_with (fault_at BackendCopy) empty_spec true)
      (settings_with false false) (Some roads) (Some "uuid-roads-copy") None
      [] store
    = Ret (Some (mark STATE_PROCESSED roads)) w'
    /\ (exists c,
          In c (rows w') /\ uuid c = "uuid-roads-copy"
          /\ pk c = Some (next_pk store))
    /\ forall x, In x (rows w') -> pk x = Some 1 ->
                 x = mark STATE_PROCESSED roads.
Proof.
  apply (copy_backend_failure
           (collaborators_with (fault_at BackendCopy) empty_spec true)
           (settings_with false false) roads 1 "uuid-roads-copy" None []
           store (CollaboratorError "backend unavailable")).
  - reflexivity.
  - reflexivity.
  - simpl. lia.
  - discriminate.
  - intro w1. reflexivity.
  - intro w1. reflexivity.
  - intro w1. reflexivity.
  - intro w1. reflexivity.
Defined.

(** *** Grants of the anonymous group for a published resource *)

Lemma principal_eqb_refl (k : Principal) : principal_eqb k k = true.
Proof. destruct k; simpl; apply String.eqb_refl. Qed.

Lemma principal_eqb_eq (a b : Principal) :
  principal_eqb a b = true -> a = b.
Proof.
  destruct a, b; simpl; intro H; try discriminate;
    apply String.eqb_eq in H; congruence.
Qed.

Lemma dict_get_set_same (k : Principal) (v : list string) (d : PermDict) :
  dict_get principal_eqb k (dict_set principal_eqb k v d) = Some v.
Proof.
  induction d as [|[k0 v0] d IH]; simpl.
  - rewrite principal_eqb_refl. reflexivity.
  - destruct (principal_eqb k0 k) eqn:E; simpl; rewrite E; auto.
Qed.

Lemma dict_get_set_other (k k' : Principal) (v : list string) (d : PermDict) :
  principal_eqb k' k = false ->
  dict_get principal_eqb k (dict_set principal_eqb k' v d)
  = dict_get principal_eqb k d.
Proof.
  intro Hne. induction d as [|[k0 v0] d IH]; simpl.
  - rewrite Hne. reflexivity.
  - destruct (principal_eqb k0 k') eqn:E; simpl.
    + destruct (principal_eqb k0 k) eqn:E'; auto.
      apply principal_eqb_eq in E, E'. subst.
      rewrite principal_eqb_refl in Hne. discriminate Hne.
    + destruct (principal_eqb k0 k); auto.
Qed.

Lemma perms_of_union_same (k : Principal) (perms : list string)
    (d : PermDict) (t : string) :
  In t (perms_of k (union_onto k perms d))
  <-> In t (perms_of k d) \/ In t perms.
Proof.
  unfold union_onto, perms_of at 1. rewrite dict_get_set_same.
  unfold list_set. rewrite nodup_In. apply in_app_iff.
Qed.

Lemma perms_of_union_other (k k' : Principal) (perms : list string)
    (d : PermDict) :
  principal_eqb k' k = false ->
  perms_of k (union_onto k' perms d) = perms_of k d.
Proof.
  intro H. unfold union_onto, perms_of. rewrite dict_get_set_other; auto.
Qed.

Lemma perms_of_union_NoDup (k : Principal) (perms : list string)
    (d : PermDict) :
  NoDup (perms_of k (union_onto k perms d)).
Proof.
  unfold union_onto, perms_of. rewrite dict_get_set_same.
  apply NoDup_nodup.
Qed.

(** The perm spec still has both entries, and the tokens of the anonymous
    group lie between [prev] and [prev] with [view] added. *)
Definition anon_between (prev view : list string) (spec : PermSpec) : Prop :=
  ps_users spec <> None
  /\ exists g,
       ps_groups spec = Some g
       /\ (forall t, In t prev -> In t (perms_of anonymous_group g))
       /\ (forall t, In t (perms_of anonymous_group g) ->
                     In t prev \/ In t view).

(** [permissions], expanded, when it is not empty. *)
Definition given_permissions (env : Collaborators) (permissions : PermSpec)
    (_resource : option Resource) : option PermSpec :=
  if Nat.ltb 0 (spec_len permissions) then
    Some (if compact_validate env permissions
          then compact_extended env permissions _resource
          else permissions)
  else None.

Lemma fold_m_invariant {A S} (I : S -> Prop) (xs : list A)
    (body : A -> S -> M S) :
  (forall x s w, I s -> exists s', body x s w = Ret s' w /\ I s') ->
  forall s w, I s -> exists s', fold_m xs body s w = Ret s' w /\ I s'.
Proof.
  intro Hbody. induction xs as [|x xs IH]; intros s w Hs; simpl.
  - exists s. auto.
  - destruct (Hbody x s w Hs) as (s1 & H1 & HI1).
    rewrite (bind_Ret _ _ _ _ _ H1). apply IH. exact HI1.
Qed.

Lemma union_users_between (prev view : list string) (k : Principal)
    (perms : list string) (spec : PermSpec) (w : World) :
  anon_between prev view spec ->
  exists s', union_users k perms spec w = Ret s' w
             /\ anon_between prev view s'.
Proof.
  intros (Hu & g & Hg & Hlo & Hhi). unfold union_users.
  destruct (ps_users spec) as [d|]; [|congruence].
  eexists. split; [reflexivity|].
  split; simpl; [discriminate|]. exists g. auto.
Qed.

Lemma union_groups_other_between (prev view : list string) (k : Principal)
    (perms : list string) (spec : PermSpec) (w : World) :
  principal_eqb k anonymous_group = false ->
  anon_between prev view spec ->
  exists s', union_groups k perms spec w = Ret s' w
             /\ anon_between prev view s'.
Proof.
  intros Hk (Hu & g & Hg & Hlo & Hhi). unfold union_groups. rewrite Hg.
  eexists. split; [reflexivity|].
  split; simpl; [exact Hu|]. eexists. split; [reflexivity|].
  rewrite perms_of_union_other by exact Hk. auto.
Qed.

Lemma union_groups_anon_between (prev view : list string) (spec : PermSpec)
    (w : World) :
  anon_between prev view spec ->
  exists s', union_groups anonymous_group view spec w = Ret s' w
             /\ anon_between prev view s'
             /\ exists g, ps_groups s' = Some g
                  /\ NoDup (perms_of anonymous_group g)
                  /\ forall t, In t (perms_of anonymous_group g)
                               <-> In t prev \/ In t view.
Proof.
  intros (Hu & g & Hg & Hlo & Hhi). unfold union_groups. rewrite Hg.
  eexists. split; [reflexivity|].
  assert (Hiff : forall t,
             In t (perms_of anonymous_group
                     (union_onto anonymous_group view g))
             <-> In t prev \/ In t view).
  { intro t. rewrite perms_of_union_same. split.
    - intros [H|H]; auto.
    - intros [H|H]; auto. }
  split; [|eexists; split; [reflexivity|]; split;
            [apply perms_of_union_NoDup|exact Hiff]].
  split; simpl; [exact Hu|]. eexists. split; [reflexivity|]. split.
  - intros t Ht. apply Hiff. auto.
  - intros t Ht. apply Hiff. exact Ht.
Qed.

(** The block guarded by the workflow settings, run for a published
    resource: it returns, and the anonymous group ends with exactly its
    earlier tokens and the view tokens. *)
Lemma workflow_grants_published (env : Collaborators) (cfg : Settings)
    (r : Resource) (rtype : string) (spec0 : PermSpec) (w : World)
    (prev : list string) :
  is_published r = true ->
  (forall t w1, raises env GetGroup t w1 = None) ->
  anon_between prev (view_perms_of cfg rtype) spec0 ->
  exists spec w' g,
    workflow_grants env cfg r rtype spec0 w = Ret spec w'
    /\ ps_groups spec = Some g
    /\ NoDup (perms_of anonymous_group g)
    /\ forall t, In t (perms_of anonymous_group g)
                 <-> In t prev \/ In t (view_perms_of cfg rtype).
Proof.
  intros Hpub Hgrp H0. unfold workflow_grants.
  set (view := view_perms_of cfg rtype) in *.
  erewrite bind_Ret; [|apply call_ok, Hgrp].
  set (w1 := add_log (EvCall GetGroup "anonymous") w).
  erewrite bind_Ret; [|reflexivity].
  destruct (get_group_managers env r w1) as [member_group_perm managers].
  (* group managers *)
  destruct (fold_m_invariant (anon_between prev view) managers
              (fun gm s => union_users gm (view ++ ADMIN_PERMISSIONS cfg) s)%list
              (fun x s w2 Hs => union_users_between prev view x _ s w2 Hs)
              spec0 w1 H0) as (s1 & Hs1 & HI1).
  rewrite (bind_Ret _ _ _ _ _ Hs1).
  (* group members *)
  assert (Hmem : exists s2,
             match member_group_perm with
             | Some groups =>
                 fold_m groups
                   (fun item s =>
                      let '(gr, perm) := item in
                      if negb (principal_eqb gr anonymous_group)
                         && negb (String.eqb (principal_name gr)
                                    (REGISTERED_MEMBERS_GROUP_NAME cfg))
                      then union_groups gr perm s
                      else ret s) s1
             | None => ret s1
             end w1 = Ret s2 w1 /\ anon_between prev view s2).
  { destruct member_group_perm as [groups|]; [|exists s1; auto].
    apply fold_m_invariant; auto.
    intros [gr perm] s w2 Hs.
    destruct (principal_eqb gr anonymous_group) eqn:E; simpl.
    - exists s. auto.
    - destruct (negb (String.eqb (principal_name gr)
                        (REGISTERED_MEMBERS_GROUP_NAME cfg))).
      + apply union_groups_other_between; auto.
      + exists s. auto. }
  destruct Hmem as (s2 & Hs2 & HI2).
  rewrite (bind_Ret _ _ _ _ _ Hs2).
  (* approved *)
  assert (Happ : exists s3 w3,
             (if is_approved r then
                if AUTO_ASSIGN_REGISTERED_MEMBERS cfg then
                  call env GetGroup (REGISTERED_MEMBERS_GROUP_NAME cfg) ;;;
                  union_groups (PObj (REGISTERED_MEMBERS_GROUP_NAME cfg))
                    view s2
                else union_groups anonymous_group view s2
              else ret s2) w1 = Ret s3 w3 /\ anon_between prev view s3).
  { destruct (is_approved r).
    - destruct (AUTO_ASSIGN_REGISTERED_MEMBERS cfg).
      + erewrite bind_Ret; [|apply call_ok, Hgrp].
        destruct (principal_eqb (PObj (REGISTERED_MEMBERS_GROUP_NAME cfg))
                    anonymous_group) eqn:E.
        * apply principal_eqb_eq in E. rewrite E.
          match goal with
          | |- context [union_groups _ _ _ ?w2] =>
              destruct (union_groups_anon_between prev view s2 w2 HI2)
                as (s3 & H3 & HI3 & _)
          end.
          eauto.
        * match goal with
          | |- context [union_groups ?k _ _ ?w2] =>
              destruct (union_groups_other_between prev view k view s2 w2
                          E HI2) as (s3 & H3 & HI3)
          end.
          eauto.
      + destruct (union_groups_anon_between prev view s2 w1 HI2)
          as (s3 & H3 & HI3 & _).
        eauto.
    - exists s2, w1. auto. }
  destruct Happ as (s3 & w3 & Hs3 & HI3).
  rewrite (bind_Ret _ _ _ _ _ Hs3).
  (* published *)
  rewrite Hpub.
  destruct (union_groups_anon_between prev view s3 w3 HI3)
    as (s4 & H4 & _ & g & Hg & Hnd & Hiff).
  exists s4, w3, g. auto.
Qed.

Definition atlas : Resource :=
  mkResource (Some 5) "uuid-atlas" Map "" false "alice" STATE_PROCESSED false
    false true [] "" "" false.

Definition no_grants : PermSpec := mkPermSpec (Some []) (Some []).

(** C10, as stated, fails: with both workflow settings off (auto publish)
    the guarded block is skipped, and a published resource whose spec has no
    anonymous entry gets none: the anonymous group holds no view token in the
    returned spec. *)
Lemma published_without_workflow_settings :
  is_published atlas = true
  /\ exists w',
       get_workflow_permissions
         (collaborators_with no_fault empty_spec true)
         (settings_with false false) (Some "uuid-atlas") (Some atlas)
         no_grants store
       = Ret (Some (mkPermSpec (Some []) (Some []))) w'.
Proof.
  split; [reflexivity|]. eexists. vm_compute. reflexivity.
Qed.

(** C10, amended.  When [ADMIN_MODERATE_UPLOADS] or [RESOURCE_PUBLISHING]
    is set, for a published resource (whose starting spec has both entries,
    and with group lookups and the concrete manager not failing),
    [get_workflow_permissions] returns what the concrete manager makes of a
    spec in which the anonymous group holds exactly the tokens it had in the
    starting spec together with the view tokens (and the download tokens for
    a downloadable type), each once.  The approved branch does not change
    this. *)
Theorem published_anonymous_union (env : Collaborators) (cfg : Settings)
    (u : option string) (instance : option Resource) (permissions : PermSpec)
    (w : World) (r : Resource) (g0 : PermDict) :
  ADMIN_MODERATE_UPLOADS cfg || RESOURCE_PUBLISHING cfg = true ->
  resolved u instance w = Some r ->
  is_published r = true ->
  (forall t w1, raises env GetGroup t w1 = None) ->
  (forall w1, raises env BackendGetWorkflowPermissions (uuid r) w1 = None) ->
  let start :=
    initial_perm_spec env r (given_permissions env permissions (Some r)) w in
  ps_users start <> None ->
  ps_groups start = Some g0 ->
  exists spec g w',
    get_workflow_permissions env cfg u instance permissions w
    = Ret (Some (backend_get_workflow_permissions env r spec)) w'
    /\ ps_groups spec = Some g
    /\ NoDup (perms_of anonymous_group g)
    /\ forall t,
         In t (perms_of anonymous_group g)
         <-> In t (perms_of anonymous_group g0)
             \/ In t (view_perms_of cfg (resource_type_of env r)).
Proof.
  intros Hcfg Hr Hpub Hgrp Hback start Hu Hg.
  unfold get_workflow_permissions.
  rewrite (bind_Ret _ _ w (Some r) w)
    by (rewrite resolve_resolved, Hr; reflexivity).
  fold (given_permissions env permissions (Some r)).
  rewrite (bind_Ret _ _ w start w) by reflexivity.
  rewrite Hcfg.
  destruct (workflow_grants_published env cfg r (resource_type_of env r)
              start w (perms_of anonymous_group g0) Hpub Hgrp)
    as (spec & w' & g & Hrun & Hgs & Hnd & Hiff).
  { split; [exact Hu|]. exists g0. auto. }
  rewrite (bind_Ret _ _ _ _ _ Hrun).
  erewrite bind_Ret; [|apply call_ok, Hback].
  exists spec, g. eexists. split; [reflexivity|]. auto.
Qed.

Lemma published_anonymous_union_witness :
  exists spec g w',
    get_workflow_permissions (collaborators_with no_fault empty_spec true)
      (settings_with false true) (Some "uuid-atlas") (Some atlas) no_grants
      store
    = Ret (Some spec) w'
    /\ ps_groups spec = Some g
    /\ NoDup (perms_of anonymous_group g)
    /\ forall t,
         In t (perms_of anonymous_group g)
         <-> In t (perms_of anonymous_group [])
             \/ In t ["view_resourcebase"].
Proof.
  apply (published_anonymous_union
           (collaborators_with no_fault empty_spec true)
           (settings_with false true) (Some "uuid-atlas") (Some atlas)
           no_grants store atlas []).
  - reflexivity.
  - reflexivity.
  - reflexivity.
  - intros t w1. reflexivity.
  - intro w1. reflexivity.
  - discriminate.
  - reflexivity.
Defined.

(** *** Anonymous entries of the spec applied to a clone *)

(** What [copy] applies to the clone: the captured spec without the entry
    [strip_anonymous_user] and the entry [strip_anonymous_group] drop. *)
Definition strip_groups (d : PermDict) : PermDict :=
  if dict_mem principal_eqb (PName "anonymous") d
  then dict_pop principal_eqb (PName "anonymous") d
  else if dict_mem principal_eqb (PObj "anonymous") d
  then dict_pop principal_eqb (PObj "anonymous") d
  else d.

Definition stripped (p : PermSpec) : PermSpec :=
  mkPermSpec (option_map strip_anonymous_user (ps_users p))
             (option_map strip_groups (ps_groups p)).

(** A key that stands for [name], in either form. *)
Definition named (name : string) (kv : Principal * list string) : bool :=
  String.eqb (principal_name (fst kv)) name.

(** The spec has an entry for the anonymous user or the anonymous group. *)
Definition has_anonymous (p : PermSpec) : bool :=
  match ps_users p with
  | Some d => existsb (named "AnonymousUser") d
  | None => false
  end
  || match ps_groups p with
     | Some d => existsb (named "anonymous") d
     | None => false
     end.

(** The dict does not hold [name] under both key forms at once. *)
Definition one_form (name : string) (d : PermDict) : bool :=
  negb (dict_mem principal_eqb (PName name) d
        && dict_mem principal_eqb (PObj name) d).

(** Every principal of the spec appears under one key form. *)
Definition one_form_spec (p : PermSpec) : bool :=
  match ps_users p with Some d => one_form "AnonymousUser" d | None => true end
  && match ps_groups p with Some d => one_form "anonymous" d | None => true end.

Lemma dict_mem_false (k : Principal) (d : PermDict) :
  dict_mem principal_eqb k d = false ->
  forall kv, In kv d -> fst kv <> k.
Proof.
  induction d as [|[k0 v0] d IH]; simpl; intros H kv Hin.
  - contradiction.
  - apply orb_false_iff in H. destruct H as [H1 H2].
    destruct Hin as [<-|Hin]; [|auto].
    simpl. intro Heq. subst. rewrite principal_eqb_refl in H1.
    discriminate H1.
Qed.

Lemma dict_pop_not_in (k : Principal) (d : PermDict) :
  forall kv, In kv (dict_pop principal_eqb k d) -> In kv d /\ fst kv <> k.
Proof.
  unfold dict_pop. intros kv Hin. apply filter_In in Hin.
  destruct Hin as [Hin Hne]. split; auto.
  intro Heq. subst. rewrite principal_eqb_refl in Hne. discriminate Hne.
Qed.

Lemma named_forms (name : string) (kv : Principal * list string) :
  named name kv = true -> fst kv = PName name \/ fst kv = PObj name.
Proof.
  unfold named. destruct kv as [[n|n] v]; simpl; intro H;
    apply String.eqb_eq in H; subst; auto.
Qed.

(** Dropping the key the source picks leaves no key for [name], provided the
    dict held [name] under one form only. *)
Lemma strip_leaves_none (name : string) (d : PermDict) :
  one_form name d = true ->
  existsb (named name)
    (if dict_mem principal_eqb (PName name) d
     then dict_pop principal_eqb (PName name) d
     else if dict_mem principal_eqb (PObj name) d
     then dict_pop principal_eqb (PObj name) d
     else d) = false.
Proof.
  unfold one_form. intro H.
  apply not_true_iff_false. intro Hex.
  apply existsb_exists in Hex. destruct Hex as (kv & Hin & Hnamed).
  apply named_forms in Hnamed.
  destruct (dict_mem principal_eqb (PName name) d) eqn:E1.
  - destruct (dict_mem principal_eqb (PObj name) d) eqn:E2;
      [discriminate H|].
    apply dict_pop_not_in in Hin. destruct Hin as [Hin Hne].
    destruct Hnamed as [Hn|Hn]; [contradiction|].
    exact (dict_mem_false _ _ E2 kv Hin Hn).
  - destruct (dict_mem principal_eqb (PObj name) d) eqn:E2.
    + apply dict_pop_not_in in Hin. destruct Hin as [Hin Hne].
      destruct Hnamed as [Hn|Hn]; [|contradiction].
      exact (dict_mem_false _ _ E1 kv Hin Hn).
    + destruct Hnamed as [Hn|Hn].
      * exact (dict_mem_false _ _ E1 kv Hin Hn).
      * exact (dict_mem_false _ _ E2 kv Hin Hn).
Qed.

Lemma strip_anonymous_user_eq (d : PermDict) :
  strip_anonymous_user d
  = if dict_mem principal_eqb (PName "AnonymousUser") d
    then dict_pop principal_eqb (PName "AnonymousUser") d
    else if dict_mem principal_eqb (PObj "AnonymousUser") d
    then dict_pop principal_eqb (PObj "AnonymousUser") d
    else d.
Proof.
  unfold strip_anonymous_user, anonymous_user_key.
  destruct (dict_mem principal_eqb (PName "AnonymousUser") d); auto.
  destruct (dict_mem principal_eqb (PObj "AnonymousUser") d); auto.
Qed.

(** The stripped spec has no anonymous entry. *)
Lemma stripped_has_no_anonymous (p : PermSpec) :
  one_form_spec p = true -> has_anonymous (stripped p) = false.
Proof.
  unfold one_form_spec, has_anonymous, stripped. intro H.
  apply andb_true_iff in H. destruct H as [Hu Hg]. simpl.
  apply orb_false_iff. split.
  - destruct (ps_users p) as [d|]; simpl; auto.
    rewrite strip_anonymous_user_eq. apply strip_leaves_none. exact Hu.
  - destruct (ps_groups p) as [d|]; simpl; auto.
    apply strip_leaves_none. exact Hg.
Qed.

(** A grant to the anonymous group or to the anonymous user. *)
Definition is_anonymous_grant (g : Grant) : bool :=
  if g_group g then String.eqb (g_name g) "anonymous"
  else String.eqb (g_name g) "AnonymousUser".

(** No grant on the object with key [c] goes to an anonymous principal. *)
Definition clean (c : nat) (gs : list Grant) : Prop :=
  forall g, In g gs -> g_object_pk g = Some c -> is_anonymous_grant g = false.

(** A computation that gives the object [c] no anonymous grant. *)
Definition keeps_clean (c : nat) {A} (m : M A) : Prop :=
  forall w, clean c (grants w) -> clean c (grants (world_of (m w))).

Lemma clean_incl (c : nat) (gs gs' : list Grant) :
  incl gs' gs -> clean c gs -> clean c gs'.
Proof. intros Hi Hc g Hin. apply Hc, Hi, Hin. Qed.

Lemma keeps_clean_ret (c : nat) {A} (a : A) : keeps_clean c (ret a).
Proof. intros w H. exact H. Qed.

Lemma keeps_clean_raise (c : nat) {A} (e : Exn) : keeps_clean c (@raise A e).
Proof. intros w H. exact H. Qed.

Lemma keeps_clean_gets (c : nat) {A} (f : World -> A) :
  keeps_clean c (gets f).
Proof. intros w H. exact H. Qed.

Lemma keeps_clean_emit (c : nat) (ev : Event) : keeps_clean c (emit ev).
Proof. intros w H. exact H. Qed.

Lemma keeps_clean_modify (c : nat) (f : World -> World) :
  (forall w, incl (grants (f w)) (grants w)) -> keeps_clean c (modify f).
Proof. intros Hf w H. simpl. eapply clean_incl; eauto. Qed.

Lemma keeps_clean_bind (c : nat) {A B} (m : M A) (k : A -> M B) :
  keeps_clean c m -> (forall a, keeps_clean c (k a)) ->
  keeps_clean c (bind m k).
Proof.
  intros Hm Hk w H. unfold bind. specialize (Hm w H).
  destruct (m w) as [a w'|e w']; simpl in *; auto. apply Hk. exact Hm.
Qed.

Lemma keeps_clean_try_except (c : nat) {A} (m : M A) (h : Exn -> M A) :
  keeps_clean c m -> (forall e, keeps_clean c (h e)) ->
  keeps_clean c (try_except m h).
Proof.
  intros Hm Hh w H. unfold try_except. specialize (Hm w H).
  destruct (m w) as [a w'|e w']; simpl in *; auto. apply Hh. exact Hm.
Qed.

Lemma keeps_clean_try_finally (c : nat) {A B} (m : M A) (f : M B) :
  keeps_clean c m -> keeps_clean c f -> keeps_clean c (try_finally m f).
Proof.
  intros Hm Hf w H. unfold try_finally. specialize (Hm w H).
  destruct (m w) as [a w'|e w']; simpl in *;
    specialize (Hf w' Hm); destruct (f w'); simpl in *; auto.
Qed.

(** A rollback puts the grants of the entry world back. *)
Lemma keeps_clean_atomic (c : nat) {A} (m : M A) :
  keeps_clean c m -> keeps_clean c (atomic m).
Proof.
  intros Hm w H. unfold atomic. specialize (Hm w H).
  destruct (m w) as [a w'|e w']; simpl in *; auto.
Qed.

Lemma keeps_clean_with_world (c : nat) {A} (f : World -> M A) :
  (forall w0, keeps_clean c (f w0)) -> keeps_clean c (with_world f).
Proof. intros H w. apply (H w w). Qed.

Lemma keeps_clean_for_each (c : nat) {A} (xs : list A) (body : A -> M unit) :
  (forall x, In x xs -> keeps_clean c (body x)) ->
  keeps_clean c (for_each xs body).
Proof.
  induction xs as [|x xs IH]; simpl; intro H.
  - apply keeps_clean_ret.
  - apply keeps_clean_bind; [apply H; auto|].
    intros _. apply IH. intros y Hy. apply H. auto.
Qed.

Lemma keeps_clean_call (c : nat) (env : Collaborators) (k : Collab)
    (t : string) : keeps_clean c (call env k t).
Proof.
  intros w H. unfold call. destruct (raises env k t w); exact H.
Qed.

Lemma keeps_clean_save (c : nat) (r : Resource) : keeps_clean c (save r).
Proof.
  intros w H. unfold save.
  destruct (pk r) as [p|]; [destruct (has_pk p (rows w))|]; exact H.
Qed.

Lemma keeps_clean_qs_get (c : nat) (q : list Resource) :
  keeps_clean c (qs_get q).
Proof.
  destruct q as [|x [|y q]]; simpl;
    auto using keeps_clean_ret, keeps_clean_raise.
Qed.

Create HintDb clean.

#[export] Hint Resolve keeps_clean_ret keeps_clean_raise keeps_clean_gets
  keeps_clean_emit keeps_clean_call keeps_clean_save keeps_clean_qs_get
  : clean.

(** Takes a computation apart, as [grows_step] does. *)
Ltac clean_step :=
  match goal with
  | |- keeps_clean _ (bind _ _) => apply keeps_clean_bind; [|intro]
  | |- keeps_clean _ (try_except _ _) => apply keeps_clean_try_except; [|intro]
  | |- keeps_clean _ (try_finally _ _) => apply keeps_clean_try_finally
  | |- keeps_clean _ (atomic _) => apply keeps_clean_atomic
  | |- keeps_clean _ (with_world _) => apply keeps_clean_with_world; intro
  | |- keeps_clean _ (swallow _) => apply keeps_clean_try_except; [|intro]
  | |- keeps_clean _ (logger_exception _) => apply keeps_clean_emit
  | |- keeps_clean _ (modify _) =>
      apply keeps_clean_modify; intro; simpl;
      solve [apply incl_refl | apply incl_filter]
  | |- keeps_clean _ (if ?b then _ else _) => destruct b
  | |- keeps_clean _ (match ?x with _ => _ end) => destruct x
  | |- keeps_clean _ _ => solve [auto with clean]
  end.

Ltac clean_tac := repeat clean_step.

Lemma keeps_clean_set_processing_state (c : nat) (r : Resource)
    (s : ProcessingState) : keeps_clean c (set_processing_state r s).
Proof. unfold set_processing_state. clean_tac. Qed.

Lemma keeps_clean_set_dirty_state (c : nat) (r : Resource) :
  keeps_clean c (set_dirty_state r).
Proof. unfold set_dirty_state. clean_tac. Qed.

Lemma keeps_clean_resolve (c : nat) (u : option string)
    (i : option Resource) : keeps_clean c (resolve u i).
Proof. unfold resolve, _get_instance. clean_tac. Qed.

Lemma keeps_clean_remove_grants (c : nat) (ct : ContentType)
    (p : option nat) : keeps_clean c (remove_grants ct p).
Proof. unfold remove_grants. clean_tac. Qed.

#[export] Hint Resolve keeps_clean_set_processing_state
  keeps_clean_set_dirty_state keeps_clean_resolve keeps_clean_remove_grants
  : clean.

Lemma keeps_clean_remove_permissions (c : nat) (env : Collaborators)
    (u : option string) (i : option Resource) :
  keeps_clean c (remove_permissions env u i).
Proof. unfold remove_permissions. clean_tac. Qed.

Lemma keeps_clean_update (c : nat) (env : Collaborators) (u : option string)
    (i : option Resource) (xml : option string) (md : bool) (vals : Vals)
    (notify : bool) : keeps_clean c (update env u i xml md vals notify).
Proof.
  unfold update, update_transaction, update_metadata, update_failed,
    resourcebase_post_save, set_missing_info.
  clean_tac.
Qed.

#[export] Hint Resolve keeps_clean_remove_permissions keeps_clean_update
  : clean.

Lemma keeps_clean_assign_perm (c : nat) (perm : string) (group : bool)
    (name : string) (ct : ContentType) (r : Resource) :
  (if group then String.eqb name "anonymous"
   else String.eqb name "AnonymousUser") = false ->
  keeps_clean c (assign_perm perm group name ct r).
Proof.
  intros Hname w H. unfold assign_perm, bind, modify, emit. simpl.
  destruct (existsb _ (grants w)); simpl; auto.
  intros g [<-|Hin] Hpk; auto.
Qed.

Lemma keeps_clean_grant_one (c : nat) (cfg : Settings) (rtype : string)
    (r : Resource) (group : bool) (name perm : string) :
  (if group then String.eqb name "anonymous"
   else String.eqb name "AnonymousUser") = false ->
  keeps_clean c (grant_one cfg rtype r group name perm).
Proof.
  intro H. unfold grant_one.
  destruct (String.eqb rtype "dataset" && mem perm dataset_perms);
    [apply keeps_clean_assign_perm; exact H|].
  destruct (assignable_perm_condition cfg perm rtype);
    [apply keeps_clean_assign_perm; exact H|apply keeps_clean_ret].
Qed.

Lemma not_named_no_member (name : string) (d : PermDict) :
  existsb (named name) d = false ->
  dict_mem principal_eqb (PName name) d = false
  /\ dict_mem principal_eqb (PObj name) d = false.
Proof.
  induction d as [|[k v] d IH]; simpl; auto.
  intro H. apply orb_false_iff in H. destruct H as [Hk Hd].
  destruct (IH Hd) as [H1 H2]. rewrite H1, H2.
  unfold named in Hk. simpl in Hk.
  destruct k as [n|n]; simpl in *; rewrite ?Hk; auto.
Qed.

Lemma anonymous_user_key_none (d : PermDict) :
  existsb (named "AnonymousUser") d = false -> anonymous_user_key d = None.
Proof.
  intro H. destruct (not_named_no_member _ _ H) as [H1 H2].
  unfold anonymous_user_key. rewrite H1, H2. reflexivity.
Qed.

Lemma existsb_false_In {A} (f : A -> bool) (l : list A) (x : A) :
  existsb f l = false -> In x l -> f x = false.
Proof.
  intros H Hin. destruct (f x) eqn:E; auto.
  assert (existsb f l = true) by (apply existsb_exists; eauto).
  congruence.
Qed.

(** Applying a spec without anonymous entries, in expanded form, grants
    nothing to the anonymous user or group. *)
Lemma keeps_clean_apply_perm_spec (c : nat) (env : Collaborators)
    (cfg : Settings) (r : Resource) (rtype : string) (spec : PermSpec) :
  compact_validate env spec = false ->
  has_anonymous spec = false ->
  keeps_clean c (apply_perm_spec env cfg r rtype spec).
Proof.
  intros Hcv Hanon. unfold apply_perm_spec. rewrite Hcv.
  unfold has_anonymous in Hanon. apply orb_false_iff in Hanon.
  destruct Hanon as [Hu Hg].
  destruct (ps_users spec) as [users|]; destruct (ps_groups spec) as [groups|];
    rewrite ?(anonymous_user_key_none users Hu);
    repeat (apply keeps_clean_bind; [|intro]);
    auto with clean;
    apply keeps_clean_for_each; intros [k perms] Hin;
    (apply keeps_clean_bind; [auto with clean|intro]).
  - destruct (negb (String.eqb (principal_name k) (owner r))
              && negb (is_anonymous_user_key k)) eqn:E; auto with clean.
    apply andb_true_iff in E. destruct E as [_ E].
    apply negb_true_iff in E.
    apply keeps_clean_for_each. intros perm _.
    apply keeps_clean_grant_one. exact E.
  - apply keeps_clean_for_each. intros perm _.
    apply keeps_clean_grant_one.
    exact (existsb_false_In _ _ _ Hg Hin).
  - destruct (negb (String.eqb (principal_name k) (owner r))
              && negb (is_anonymous_user_key k)) eqn:E; auto with clean.
    apply andb_true_iff in E. destruct E as [_ E].
    apply negb_true_iff in E.
    apply keeps_clean_for_each. intros perm _.
    apply keeps_clean_grant_one. exact E.
  - apply keeps_clean_for_each. intros perm _.
    apply keeps_clean_grant_one.
    exact (existsb_false_In _ _ _ Hg Hin).
Qed.

Lemma keeps_clean_set_permissions (c : nat) (env : Collaborators)
    (cfg : Settings) (u : option string) (i : option Resource)
    (owner_ : option string) (spec : PermSpec) (created : bool) :
  0 < spec_len spec ->
  compact_validate env spec = false ->
  has_anonymous spec = false ->
  keeps_clean c (set_permissions env cfg u i owner_ spec created).
Proof.
  intros Hlen Hcv Hanon. unfold set_permissions.
  replace (Nat.ltb 0 (spec_len spec)) with true
    by (symmetry; apply Nat.ltb_lt; exact Hlen).
  clean_tac; apply keeps_clean_apply_perm_spec; assumption.
Qed.

(** [set_permissions] and [update] catch what their blocks raise. *)
Lemma set_permissions_returns (env : Collaborators) (cfg : Settings)
    (u : option string) (r : Resource) (owner_ : option string)
    (spec : PermSpec) (created : bool) (w : World) :
  exists b w', set_permissions env cfg u (Some r) owner_ spec created w
               = Ret b w'.
Proof.
  unfold set_permissions.
  erewrite bind_Ret; [|reflexivity].
  erewrite bind_Ret; [|reflexivity]. cbv beta iota.
  erewrite bind_Ret; [|reflexivity].
  apply try_except_returns. intros e w1.
  cbv beta iota delta [bind logger_exception emit modify set_processing_state
    set_dirty_state ret].
  eauto.
Qed.

Lemma update_returns (env : Collaborators) (u : option string)
    (r : Resource) (xml : option string) (md : bool) (vals : Vals)
    (notify : bool) (w : World) :
  exists r' w', update env u (Some r) xml md vals notify w = Ret (Some r') w'.
Proof.
  unfold update.
  erewrite bind_Ret; [|reflexivity].
  erewrite bind_Ret; [|reflexivity]. cbv beta iota.
  erewrite bind_Ret; [|reflexivity].
  erewrite bind_Ret; [|reflexivity].
  match goal with
  | |- context [bind (with_world ?f) ?k ?w1] =>
      assert (H : exists r' w2, with_world f w1 = Ret r' w2)
  end.
  { unfold with_world. apply try_except_returns. intros e w1.
    cbv beta iota delta [update_failed bind logger_exception emit modify
      set_processing_state set_dirty_state ret].
    eauto. }
  destruct H as (r' & w2 & H).
  rewrite (bind_Ret _ _ _ _ _ H).
  unfold resourcebase_post_save, bind, emit, modify, ret. eauto.
Qed.

Lemma grows_update (env : Collaborators) (u : option string)
    (i : option Resource) (xml : option string) (md : bool) (vals : Vals)
    (notify : bool) : grows (update env u i xml md vals notify).
Proof.
  unfold update, update_transaction, update_metadata, update_failed,
    resourcebase_post_save, set_missing_info.
  grows_tac.
Qed.

Lemma grows_assign_perm (perm : string) (group : bool) (name : string)
    (ct : ContentType) (r : Resource) :
  grows (assign_perm perm group name ct r).
Proof.
  unfold assign_perm. apply grows_bind; [|intro; apply grows_emit].
  apply grows_modify. intro w. destruct (existsb _ (grants w)); reflexivity.
Qed.

#[export] Hint Resolve grows_update grows_assign_perm : grows.

Lemma grows_set_permissions (env : Collaborators) (cfg : Settings)
    (u : option string) (i : option Resource) (owner_ : option string)
    (spec : PermSpec) (created : bool) :
  grows (set_permissions env cfg u i owner_ spec created).
Proof.
  unfold set_permissions, apply_perm_spec, apply_default_perms, grant_one.
  grows_tac.
Qed.

(** The trace of a run of [set_permissions] starts with the record of the
    call and of the spec it was given. *)
Lemma set_permissions_extends_entry (env : Collaborators) (cfg : Settings)
    (u : option string) (i : option Resource) (owner_ : option string)
    (spec : PermSpec) (created : bool) (w : World) :
  extends (add_log (EvOp (OpSetPermissions u spec)) w)
    (world_of (set_permissions env cfg u i owner_ spec created w)).
Proof.
  unfold set_permissions.
  match goal with
  | |- context [bind (emit ?ev) ?k] =>
      assert (Hk : grows (k tt))
        by (unfold apply_perm_spec, apply_default_perms, grant_one;
            grows_tac);
      specialize (Hk (add_log ev w));
      rewrite (bind_Ret (emit ev) k w tt (add_log ev w)) by reflexivity;
      exact Hk
  end.
Qed.

Lemma extends_with_rows (w w' : World) (rs : list Resource) :
  extends w w' -> extends w (with_rows w' rs).
Proof. intros [l H]. exists l. exact H. Qed.

Lemma save_returns (r : Resource) (w : World) :
  exists r' w',
    save r w = Ret r' w' /\ extends w w' /\ grants w' = grants w
    /\ (pk r <> None -> r' = r).
Proof.
  unfold save. destruct (pk r) as [p|] eqn:E.
  - destruct (has_pk p (rows w)); eexists; eexists;
      (split; [reflexivity|]); repeat split; auto;
      apply extends_add_log, extends_with_rows, extends_refl.
  - eexists. eexists. split; [reflexivity|]. repeat split.
    + eexists [_]. reflexivity.
    + intro H. congruence.
Qed.

Lemma strip_anonymous_group_returns (env : Collaborators) (d : PermDict)
    (w : World) :
  (forall w1, raises env GetGroup "anonymous" w1 = None) ->
  exists w',
    strip_anonymous_group env d w = Ret (strip_groups d) w'
    /\ extends w w' /\ grants w' = grants w.
Proof.
  intro Hg. unfold strip_anonymous_group, strip_groups.
  destruct (dict_mem principal_eqb (PName "anonymous") d).
  - exists w. repeat split. apply extends_refl.
  - erewrite bind_Ret; [|apply call_ok, Hg].
    destruct (dict_mem principal_eqb (PObj "anonymous") d).
    + erewrite bind_Ret; [|apply call_ok, Hg].
      eexists. split; [reflexivity|]. split; [|reflexivity].
      repeat apply extends_add_log. apply extends_refl.
    + eexists. split; [reflexivity|]. split; [|reflexivity].
      apply extends_add_log, extends_refl.
Qed.

(** The world in which [copy] captures the permissions of the source: the
    source is marked RUNNING and nothing has been cloned yet. *)
Definition copy_capture_world (i : Resource) (w : World) : World :=
  add_log (EvCall GetAllLevelInfo (uuid i))
    (add_log (EvSetState (pk i) STATE_RUNNING)
       (with_rows (add_log (EvOp (OpCopy (uuid i))) w)
          (update_rows (pk i) (mark STATE_RUNNING) (rows w)))).

(** The clone as [copy] first saves it. *)
Definition clone_of (i : Resource) (s : string) (w : World) : Resource :=
  with_pk (with_uuid (with_pk (mark STATE_RUNNING i) None) s)
    (Some (next_pk w)).

(** With collaborators that do not fail, the [try] block of [copy] returns
    the clone and the spec captured before the clone was inserted. *)
Lemma copy_clone_succeeds (env : Collaborators) (i : Resource) (s : string)
    (owner_ : option string) (w : World) :
  s <> "" ->
  (forall w1, raises env GetAllLevelInfo (uuid i) w1 = None) ->
  (forall w1, raises env CloneRelated (uuid i) w1 = None) ->
  (forall w1, raises env StorageCopy s w1 = None) ->
  (forall w1, raises env BackendCopy s w1 = None) ->
  exists vals wc,
    copy_clone env i (Some s) owner_ (add_log (EvOp (OpCopy (uuid i))) w)
    = Ret (Some (clone_of i s w,
                 match owner_ with Some o => o | None => owner i end,
                 get_all_level_info env (mark STATE_RUNNING i)
                   (copy_capture_world i w),
                 vals)) wc
    /\ extends (add_log (EvInsert (next_pk w) s) (copy_capture_world i w)) wc
    /\ grants wc = grants w.
Proof.
  intros Hs Hinfo Hrel Hsto Hcopy.
  assert (Ht : truthy (Some s) = Some s).
  { simpl. destruct (String.eqb s "") eqn:E; auto.
    apply String.eqb_eq in E. contradiction. }
  unfold copy_clone. rewrite Ht.
  cbv beta iota delta [bind emit modify gets call set_processing_state ret].
  cbn [uuid mark with_state with_uuid with_pk pk].
  rewrite Hinfo.
  unfold save at 1. cbn [pk with_uuid with_pk uuid].
  cbn [rows grants next_pk log add_log with_rows].
  rewrite Hrel, Hsto, Hcopy.
  eexists. eexists. split; [|split].
  - unfold clone_of, copy_capture_world.
    cbn [uuid mark with_state with_uuid with_pk pk rows grants next_pk log
         add_log with_rows owner].
    reflexivity.
  - do 3 apply extends_add_log. apply extends_same_log. reflexivity.
  - reflexivity.
Qed.

Lemma set_processing_state_returns (r : Resource) (s : ProcessingState)
    (w : World) :
  exists w',
    set_processing_state r s w = Ret (mark s r) w'
    /\ extends w w' /\ grants w' = grants w.
Proof.
  eexists. split; [reflexivity|]. split; [|reflexivity].
  apply extends_add_log, extends_with_rows, extends_refl.
Qed.

Lemma copy_finally_returns (i : Resource) (w : World) :
  exists i' w',
    (i' <- set_processing_state i STATE_PROCESSED ;; save i') w = Ret i' w'
    /\ extends w w' /\ grants w' = grants w.
Proof.
  destruct (set_processing_state_returns i STATE_PROCESSED w)
    as (w1 & H1 & He1 & Hg1).
  rewrite (bind_Ret _ _ _ _ _ H1).
  destruct (save_returns (mark STATE_PROCESSED i) w1)
    as (i' & w2 & H2 & He2 & Hg2 & _).
  exists i', w2. split; [exact H2|]. split.
  - eapply extends_trans; eauto.
  - congruence.
Qed.

Lemma spec_len_stripped (p : PermSpec) : spec_len (stripped p) = spec_len p.
Proof.
  unfold spec_len, stripped. simpl.
  destruct (ps_users p), (ps_groups p); reflexivity.
Qed.

(** C8.  In a run of [copy] whose collaborators do not fail, the permission
    spec of the source is captured in a world where the clone does not exist
    yet (the record of the capture is older than the insert of the clone);
    the spec handed to [set_permissions] for the clone is the captured spec
    without its anonymous-user and anonymous-group entries; and when [copy]
    returns, no grant on the clone goes to the anonymous user or group.
    The captured spec is taken to be in expanded form, not empty, with each
    principal under one key form, and keys not yet handed out carry no
    anonymous grant. *)
Theorem copy_strips_anonymous (env : Collaborators) (cfg : Settings)
    (i : Resource) (s : string) (owner_ : option string) (defaults : Vals)
    (w : World) :
  s <> "" ->
  (forall w1, raises env GetAllLevelInfo (uuid i) w1 = None) ->
  (forall w1, raises env CloneRelated (uuid i) w1 = None) ->
  (forall w1, raises env StorageCopy s w1 = None) ->
  (forall w1, raises env BackendCopy s w1 = None) ->
  (forall w1, raises env GetGroup "anonymous" w1 = None) ->
  let captured :=
    get_all_level_info env (mark STATE_RUNNING i) (copy_capture_world i w) in
  one_form_spec captured = true ->
  0 < spec_len captured ->
  compact_validate env (stripped captured) = false ->
  clean (next_pk w) (grants w) ->
  exists out w' l1 l2,
    copy env cfg (Some i) (Some s) owner_ defaults w = Ret (Some out) w'
    /\ has_anonymous (stripped captured) = false
    /\ log w'
       = (l2 ++ EvOp (OpSetPermissions (Some s) (stripped captured))
             :: l1 ++ EvInsert (next_pk w) s
             :: log (copy_capture_world i w))%list
    /\ clean (next_pk w) (grants w').
Proof.
  intros Hs Hinfo Hrel Hsto Hcopy Hgrp captured Hone Hlen Hcv Hclean.
  pose proof (stripped_has_no_anonymous captured Hone) as Hanon.
  unfold copy.
  rewrite (bind_Ret _ _ w tt (add_log (EvOp (OpCopy (uuid i))) w))
    by reflexivity.
  (* the try block and its finally clause *)
  destruct (copy_clone_succeeds env i s owner_ w Hs Hinfo Hrel Hsto Hcopy)
    as (vals & wc & Hclone & Hec & Hgc).
  fold captured in Hclone.
  destruct (copy_finally_returns i wc) as (i' & wf & Hfin & Hef & Hgf).
  erewrite bind_Ret;
    [|unfold try_finally, try_except; rewrite Hclone, Hfin; reflexivity].
  cbn [fst snd].
  (* the clone is marked PROCESSED and saved *)
  destruct (set_processing_state_returns (clone_of i s w) STATE_PROCESSED wf)
    as (w3 & H3 & He3 & Hg3).
  rewrite (bind_Ret _ _ _ _ _ H3).
  destruct (save_returns (mark STATE_PROCESSED (clone_of i s w)) w3)
    as (r2 & w4 & H4 & He4 & Hg4 & Hr2).
  rewrite (bind_Ret _ _ _ _ _ H4).
  assert (Hr2' : r2 = mark STATE_PROCESSED (clone_of i s w))
    by (apply Hr2; discriminate).
  subst r2.
  (* the anonymous entries are dropped *)
  assert (Hstrip : exists w5,
             match ps_groups captured with
             | Some g => g' <- strip_anonymous_group env g ;; ret (Some g')
             | None => ret None
             end w4 = Ret (option_map strip_groups (ps_groups captured)) w5
             /\ extends w4 w5 /\ grants w5 = grants w4).
  { destruct (ps_groups captured) as [g|].
    - destruct (strip_anonymous_group_returns env g w4 Hgrp)
        as (w5 & H5 & He5 & Hg5).
      exists w5. rewrite (bind_Ret _ _ _ _ _ H5). auto.
    - exists w4. repeat split. apply extends_refl. }
  destruct Hstrip as (w5 & H5 & He5 & Hg5).
  rewrite (bind_Ret _ _ _ _ _ H5).
  fold (stripped captured).
  replace (uuid (mark STATE_PROCESSED (clone_of i s w))) with s
    by reflexivity.
  (* set_permissions, then update *)
  set (spec := stripped captured) in *.
  set (clone := mark STATE_PROCESSED (clone_of i s w)).
  set (own := match owner_ with Some o => o | None => owner i end).
  destruct (set_permissions_returns env cfg (Some s) clone (Some own) spec
              false w5) as (b & w6 & H6).
  pose proof (set_permissions_extends_entry env cfg (Some s) (Some clone)
                (Some own) spec false w5) as He6.
  pose proof (keeps_clean_set_permissions (next_pk w) env cfg (Some s)
                (Some clone) (Some own) spec false) as Hk6.
  rewrite H6 in He6. cbn [world_of] in He6.
  set (vals' := dict_pop String.eqb "user" (dict_update vals defaults)).
  set (clone' := instance_after_set_permissions env (Some s) clone own spec
                   b w5).
  cbv zeta.
  rewrite (bind_Ret _ _ w5 clone' w6)
    by (unfold with_world; rewrite (bind_Ret _ _ _ _ _ H6); reflexivity).
  replace (uuid clone') with s
    by (unfold clone', instance_after_set_permissions;
        destruct (negb (String.eqb own (owner clone))),
          (nested_removal env (Some s) clone own spec w5), b; reflexivity).
  destruct (update_returns env (Some s) clone' None false vals' true w6)
    as (out & w7 & H7).
  pose proof (grows_update env (Some s) (Some clone') None false vals' true w6)
    as He7.
  pose proof (keeps_clean_update (next_pk w) env (Some s) (Some clone') None
                false vals' true w6) as Hk7.
  rewrite H7 in He7, Hk7. cbn [world_of] in He7, Hk7.
  exists out, w7.
  (* the trace *)
  assert (Hpre : extends (add_log (EvInsert (next_pk w) s)
                            (copy_capture_world i w)) w5).
  { apply (extends_trans _ wc); [exact Hec|].
    apply (extends_trans _ wf); [exact Hef|].
    apply (extends_trans _ w3); [exact He3|].
    apply (extends_trans _ w4); [exact He4|exact He5]. }
  destruct Hpre as [l1 Hl1]. destruct He6 as [l6 Hl6].
  destruct He7 as [l7 Hl7].
  exists l1, (l7 ++ l6)%list.
  split; [exact H7|]. split; [exact Hanon|]. split.
  - rewrite Hl7, Hl6. cbn [log add_log]. rewrite Hl1.
    cbn [log add_log]. rewrite <- app_assoc. reflexivity.
  - apply Hk7.
    specialize (Hk6 (eq_ind_r (fun n => 0 < n) Hlen (spec_len_stripped captured))
                  Hcv Hanon w5).
    rewrite H6 in Hk6. cbn [world_of] in Hk6. apply Hk6.
    rewrite Hg5, Hg4, Hg3, Hgf, Hgc. exact Hclean.
Qed.

(** A source spec that grants view to the anonymous user and view and
    download to the anonymous group. *)
Definition public_spec : PermSpec :=
  mkPermSpec
    (Some [(PObj "AnonymousUser", ["view_resourcebase"]);
           (PObj "bob", ["view_resourcebase"; "change_resourcebase"])])
    (Some [(PObj "anonymous", ["view_resourcebase"; "download_resourcebase"]);
           (PObj "editors", ["view_resourcebase"])]).

Lemma copy_strips_anonymous_witness :
  exists out w' l1 l2,
    copy (collaborators_with no_fault public_spec true)
      (settings_with false false) (Some roads) (Some "uuid-roads-copy") None
      [] store
    = Ret (Some out) w'
    /\ has_anonymous (stripped public_spec) = false
    /\ log w'
       = (l2 ++ EvOp (OpSetPermissions (Some "uuid-roads-copy")
                        (stripped public_spec))
             :: l1 ++ EvInsert (next_pk store) "uuid-roads-copy"
             :: log (copy_capture_world roads store))%list
    /\ clean (next_pk store) (grants w').
Proof.
  apply (copy_strips_anonymous (collaborators_with no_fault public_spec true)
           (settings_with false false) roads "uuid-roads-copy" None []
           store).
  - discriminate.
  - intro w1. reflexivity.
  - intro w1. reflexivity.
  - intro w1. reflexivity.
  - intro w1. reflexivity.
  - intro w1. reflexivity.
  - reflexivity.
  - vm_compute. repeat constructor.
  - reflexivity.
  - intros g H. destruct H.
Defined.

(** The grants the clone of the example ends with: those of the remaining
    user and group of the source spec, none for an anonymous principal. *)
Example copy_public_source_grants :
  exists out w',
    copy (collaborators_with no_fault public_spec true)
      (settings_with false false) (Some roads) (Some "uuid-roads-copy") None
      [] store
    = Ret (Some out) w'
    /\ map (fun g => (g_name g, g_perm g)) (grants w')
       = [("editors", "view_resourcebase"); ("bob", "change_resourcebase");
          ("bob", "view_resourcebase")]
    /\ state out = STATE_PROCESSED.
Proof.
  eexists. eexists. split; [|split]; vm_compute; reflexivity.
Qed.

(** The owner that [set_permissions] gives to the clone stays on it: the
    instance that [update] saves is the one [set_permissions] has set the
    owner on. *)
Example copy_for_new_owner :
  exists out w',
    copy (collaborators_with no_fault public_spec true)
      (settings_with false false) (Some roads) (Some "uuid-roads-copy")
      (Some "bob") [] store
    = Ret (Some out) w'
    /\ owner out = "bob"
    /\ map (fun x => (uuid x, owner x)) (rows w')
       = [("uuid-roads", "alice"); ("uuid-relief", "alice");
          ("uuid-report", "alice"); ("uuid-roads-copy", "bob")].
Proof.
  eexists. eexists. split; [vm_compute; reflexivity|].
  split; vm_compute; reflexivity.
Qed.

(** [set_permissions] fails on the clone (a user of the spec cannot be
    found) and its change of owner is rolled back in the store, but the
    instance keeps the owner and the dirty flag: [update] saves them. *)
Example copy_after_failed_permissions :
  exists out w',
    copy (collaborators_with (fault_at GetUser) public_spec true)
      (settings_with false false) (Some roads) (Some "uuid-roads-copy")
      (Some "bob") [] store
    = Ret (Some out) w'
    /\ map (fun x => (uuid x, owner x, state x, dirty_state x)) (rows w')
       = [("uuid-roads", "alice", STATE_PROCESSED, false);
          ("uuid-relief", "alice", STATE_PROCESSED, false);
          ("uuid-report", "alice", STATE_PROCESSED, false);
          ("uuid-roads-copy", "bob", STATE_PROCESSED, true)].
Proof.
  eexists. eexists. split; vm_compute; reflexivity.
Qed.

(** *** Further runs of the operations *)

(** The failure of C1 does not depend on the store: whenever the concrete
    manager's [set_thumbnail] raises, [set_thumbnail] returns [False] and
    every row of the resource is left RUNNING. *)
Lemma set_thumbnail_backend_failure (env : Collaborators)
    (u : option string) (instance : option Resource)
    (overwrite check_bbox : bool) (w : World) (r : Resource) (p : nat)
    (e : Exn) :
  resolved u instance w = Some r ->
  pk r = Some p ->
  (forall w1, raises env BackendSetThumbnail (uuid r) w1 = Some e) ->
  exists w',
    set_thumbnail env u instance overwrite check_bbox w = Ret false w'
    /\ forall x, In x (rows w') -> pk x = Some p -> state x = STATE_RUNNING.
Proof.
  intros Hr Hp Hraise. unfold set_thumbnail.
  rewrite (bind_Ret _ _ w tt (add_log (EvOp (OpSetThumbnail u)) w))
    by reflexivity.
  rewrite (bind_Ret _ _ _ (Some r) (add_log (EvOp (OpSetThumbnail u)) w))
    by (rewrite resolve_resolved; f_equal; rewrite <- Hr; reflexivity).
  destruct (set_processing_state_returns r STATE_RUNNING
              (add_log (EvOp (OpSetThumbnail u)) w)) as (w1 & H1 & _ & _).
  assert (Hrows : rows w1 = update_rows (Some p) (mark STATE_RUNNING) (rows w)).
  { unfold set_processing_state, bind, modify, emit, ret in H1.
    inversion H1; subst. simpl. rewrite Hp. reflexivity. }
  rewrite (bind_Ret _ _ _ _ _ H1).
  match goal with
  | |- context [try_except (bind (atomic ?m) ?k) ?h w1] =>
      assert (Hbody : exists w2, atomic m w1 = Exc e w2 \/
                        exists e', atomic m w1 = Exc e' w2);
      [|assert (Hrb : forall e' w2, atomic m w1 = Exc e' w2 ->
                        rows w2 = rows w1)]
  end.
  - unfold atomic, bind.
    match goal with
    | |- context [match ?pre w1 with _ => _ end] =>
        destruct (pre w1) as [[] w2|e' w2]
    end.
    + unfold call. cbn [uuid mark with_state]. rewrite Hraise. eauto.
    + eauto.
  - intros e' w2. unfold atomic.
    match goal with
    | |- context [match ?m w1 with _ => _ end] => destruct (m w1)
    end; intro H; inversion H; reflexivity.
  - destruct Hbody as (w2 & [Hb|[e' Hb]]);
      unfold try_except; rewrite (bind_Exc _ _ _ _ _ Hb);
      unfold bind, logger_exception, emit, modify, ret;
      (eexists; split; [reflexivity|]);
      cbn [rows add_log]; rewrite (Hrb _ _ Hb), Hrows;
      intros x Hx Hpx;
      destruct (update_rows_In p (mark STATE_RUNNING) _ x
                  (fun y => eq_refl) Hx Hpx) as (y & _ & ->);
      reflexivity.
Qed.

(** The cascade steps and the permission reset all raise, the concrete
    manager's delete does not: [delete] still returns 1 and the record is
    gone. *)
Example delete_survives_cascade_failures :
  exists w',
    delete (collaborators_with cascade_fault empty_spec true)
      (settings_with false false) (Some "uuid-roads") None store = Ret 1 w'
    /\ states_of "uuid-roads" w' = []
    /\ length (rows w') = 2.
Proof.
  eexists. split; [|split]; vm_compute; reflexivity.
Qed.

(** A vector dataset that exists at the backend: [append] calls the
    concrete manager once and runs one [update]. *)
Example append_vector_dataset :
  exists r' w',
    append (collaborators_with no_fault empty_spec true) roads
      [("user", "alice"); ("title", "Roads")] store = Ret (Some r') w'
    /\ state r' = STATE_PROCESSED
    /\ filter (fun ev => match ev with
                         | EvCall BackendAppend _ | EvOp (OpUpdate _ _) => true
                         | _ => false
                         end) (log w')
       = [EvOp (OpUpdate (Some "uuid-roads") [("title", "Roads")]);
          EvCall BackendAppend "uuid-roads"].
Proof.
  eexists. eexists. split; [|split]; vm_compute; reflexivity.
Qed.

(* ================================================================= *)
(** ** Further properties of the operations *)

(** *** What [update] leaves behind *)

Lemma atomic_Exc {A} (m : M A) (w : World) (e : Exn) (w' : World) :
  atomic m w = Exc e w' -> rows w' = rows w /\ grants w' = grants w.
Proof.
  unfold atomic. destruct (m w); intro H; inversion H; auto.
Qed.

Lemma save_pk (r r' : Resource) (w w' : World) :
  save r w = Ret r' w' -> pk r' <> None.
Proof.
  unfold save. destruct (pk r) as [p|] eqn:E;
    [destruct (has_pk p (rows w))|]; intro H; inversion H; subst;
    simpl; congruence.
Qed.

Lemma has_pk_false (p : nat) (rs : list Resource) (x : Resource) :
  has_pk p rs = false -> In x rs -> pk x <> Some p.
Proof.
  unfold has_pk. intros H Hin Hp.
  assert (existsb (fun y => opt_nat_eqb (pk y) (Some p)) rs = true).
  { apply existsb_exists. exists x. split; auto. rewrite Hp. simpl.
    apply Nat.eqb_refl. }
  congruence.
Qed.

(** After [save] of an instance that has a key, every row under that key is
    the instance. *)
Lemma save_row_is_instance (r r' : Resource) (p : nat) (w w' : World) :
  save r w = Ret r' w' -> pk r = Some p ->
  r' = r /\ forall x, In x (rows w') -> pk x = Some p -> x = r.
Proof.
  unfold save. intros H Hp. rewrite Hp in H.
  destruct (has_pk p (rows w)) eqn:E; inversion H; subst; split; auto;
    intros x Hx Hpx; simpl in Hx.
  - eapply update_rows_const; eauto.
  - apply in_app_or in Hx. destruct Hx as [Hx|[Hx|[]]]; auto.
    exfalso. exact (has_pk_false p _ x E Hx Hpx).
Qed.

(** What the block of [update] returns is what its [save] returned. *)
Lemma update_transaction_Ret (env : Collaborators) (u : option string)
    (r : Resource) (xml : option string) (md : bool) (w : World)
    (r3 : Resource) (w3 : World) :
  update_transaction env u r xml md w = Ret r3 w3 ->
  exists w1 w2, save r w1 = Ret r3 w2.
Proof.
  unfold update_transaction, atomic, bind.
  destruct (update_metadata env u xml md w) as [[] w1|]; [|discriminate].
  destruct (save r w1) as [r1 w2|] eqn:E; [|discriminate].
  intro H. exists w1, w2.
  assert (r3 = r1); [|subst; exact E].
  destruct (call env UpdateResource (uuid r1) w2) as [[] w4|];
    [|discriminate].
  destruct (call env BackendUpdate (uuid r1) w4) as [[] w5|];
    [|discriminate].
  destruct (call env MetadataStorers (uuid r1) w5) as [[] w6|];
    [|discriminate].
  unfold gets, ret in H.
  destruct (workflow_enabled env w6);
    [destruct (call env WorkflowTasks (uuid r1) w6) as [[] w7|];
     [|discriminate]|];
    inversion H; reflexivity.
Qed.

(** X1.  Whenever [update] resolves its target it returns it, and never
    raises, whatever the collaborators do.  The instance it returns is
    PROCESSED, or INVALID and dirty, and the rows of that instance in the
    store carry the same state. *)
Theorem update_outcome (env : Collaborators) (u : option string)
    (instance : option Resource) (xml_file : option string)
    (metadata_uploaded_ : bool) (vals : Vals) (notify : bool) (w : World)
    (r : Resource) :
  resolved u instance w = Some r ->
  exists r' w',
    update env u instance xml_file metadata_uploaded_ vals notify w
    = Ret (Some r') w'
    /\ uuid r' = uuid r
    /\ (state r' = STATE_PROCESSED
        \/ (state r' = STATE_INVALID /\ dirty_state r' = true))
    /\ forall x, In x (rows w') -> pk x = pk r' -> pk r' <> None ->
                 state x = state r'.
Proof.
  intro Hr. unfold update.
  rewrite (bind_Ret _ _ w tt (add_log (EvOp (OpUpdate u vals)) w))
    by reflexivity.
  rewrite (bind_Ret _ _ _ (Some r) (add_log (EvOp (OpUpdate u vals)) w))
    by (rewrite resolve_resolved; f_equal; rewrite <- Hr; reflexivity).
  rewrite (bind_Ret _ _ _ (mark STATE_RUNNING r) (update_entry_world u vals r w))
    by reflexivity.
  rewrite (bind_Ret _ _ _ (mark STATE_RUNNING r) (update_entry_world u vals r w))
    by reflexivity.
  fold (update_entry_instance r metadata_uploaded_).
  set (r1 := update_entry_instance r metadata_uploaded_) in *.
  set (w1 := update_entry_world u vals r w) in *.
  set (rm := instance_in_try env u r1 xml_file metadata_uploaded_ w1).
  assert (Hrm : uuid rm = uuid r)
    by apply (instance_in_try_uuid env u r1 xml_file metadata_uploaded_ w1).
  destruct (update_transaction env u r1 xml_file metadata_uploaded_ w1)
    as [r3 w3|e wt] eqn:Htxn.
  - (* the block returned *)
    destruct (update_transaction_Ret _ _ _ _ _ _ _ _ Htxn) as (wa & wb & Hs).
    pose proof (save_pk _ _ _ _ Hs) as Hpk3.
    pose proof (save_uuid _ _ _ _ Hs) as Hu3.
    destruct (pk r3) as [p|] eqn:Hp; [|congruence].
    set (r4 := mark STATE_PROCESSED r3).
    destruct (set_processing_state_returns r3 STATE_PROCESSED w3)
      as (w4 & H4 & _ & _).
    destruct (save r4 w4) as [r5 w5|] eqn:H5;
      [|unfold save in H5; simpl in H5; rewrite Hp in H5;
        destruct (has_pk p (rows w4)); discriminate].
    destruct (save_row_is_instance r4 r5 p w4 w5 H5 Hp) as [-> Hrows].
    assert (Htry : with_world (fun w_try =>
               try_except
                 (r3 <- update_transaction env u r1 xml_file
                          metadata_uploaded_ ;;
                  r4 <- set_processing_state r3 STATE_PROCESSED ;; save r4)
                 (update_failed
                    (instance_in_try env u r1 xml_file metadata_uploaded_
                       w_try))) w1 = Ret r4 w5).
    { unfold with_world, try_except.
      rewrite (bind_Ret _ _ _ _ _ Htxn), (bind_Ret _ _ _ _ _ H4).
      fold r4. rewrite H5. reflexivity. }
    rewrite (bind_Ret _ _ _ _ _ Htry).
    unfold resourcebase_post_save, bind, emit, modify, ret.
    eexists. eexists. split; [reflexivity|].
    split; [exact Hu3|]. split; [left; reflexivity|].
    intros x Hx Hpx _. cbn [rows add_log] in Hx.
    change (pk r4) with (pk r3) in Hpx. rewrite Hp in Hpx.
    rewrite (Hrows x Hx Hpx). reflexivity.
  - (* the block raised *)
    assert (Htry : exists w2,
               with_world (fun w_try =>
                 try_except
                   (r3 <- update_transaction env u r1 xml_file
                            metadata_uploaded_ ;;
                    r4 <- set_processing_state r3 STATE_PROCESSED ;; save r4)
                   (update_failed
                      (instance_in_try env u r1 xml_file metadata_uploaded_
                         w_try))) w1
               = Ret (with_dirty (mark STATE_INVALID rm) true) w2
               /\ rows w2
                  = update_rows (pk rm) (fun x => with_dirty x true)
                      (update_rows (pk rm) (mark STATE_INVALID) (rows wt))).
    { unfold with_world, try_except. rewrite (bind_Exc _ _ _ e wt Htxn).
      fold rm.
      unfold update_failed, logger_exception, set_processing_state,
        set_dirty_state, bind, emit, modify, ret.
      eexists. split; reflexivity. }
    destruct Htry as (w2 & Htry & Hrows).
    rewrite (bind_Ret _ _ _ _ _ Htry).
    unfold resourcebase_post_save, bind, emit, modify, ret.
    eexists. eexists. split; [reflexivity|].
    split; [exact Hrm|]. split; [right; split; reflexivity|].
    intros x Hx Hpx Hne. cbn [rows add_log] in Hx. rewrite Hrows in Hx.
    change (pk (with_dirty (mark STATE_INVALID rm) true)) with (pk rm)
      in Hpx, Hne.
    destruct (pk rm) as [p|] eqn:Hp; [|congruence].
    destruct (update_rows_In p (fun x => with_dirty x true) _ x
                (fun y => eq_refl) Hx Hpx) as (y & Hy & ->).
    assert (Hpy : pk y = Some p) by exact Hpx.
    destruct (update_rows_In p (mark STATE_INVALID) _ y
                (fun z => eq_refl) Hy Hpy) as (z & _ & ->).
    reflexivity.
Qed.

Lemma update_outcome_witness :
  exists r' w',
    update (collaborators_with all_fault empty_spec true)
      (Some "uuid-report") None None false [] true store = Ret (Some r') w'
    /\ uuid r' = uuid report
    /\ (state r' = STATE_PROCESSED
        \/ (state r' = STATE_INVALID /\ dirty_state r' = true))
    /\ forall x, In x (rows w') -> pk x = pk r' -> pk r' <> None ->
                 state x = state r'.
Proof.
  apply (update_outcome (collaborators_with all_fault empty_spec true)
           (Some "uuid-report") None None false [] true store report).
  reflexivity.
Defined.

(** *** What [remove_permissions] and [set_permissions] leave behind *)

(** The grants on the object with key [p] under content type [ct]. *)
Definition grants_on (ct : ContentType) (p : option nat) (g : Grant) : bool :=
  ct_eqb (g_ct g) ct && opt_nat_eqb (g_object_pk g) p.

Lemma mark_rows_state (p : nat) (s : ProcessingState) (rs : list Resource)
    (x : Resource) :
  In x (update_rows (Some p) (mark s) rs) -> pk x = Some p -> state x = s.
Proof.
  intros Hx Hp.
  destruct (update_rows_In p (mark s) rs x
              (fun y => match s with
                        | STATE_RUNNING | STATE_PROCESSED | STATE_INVALID =>
                            eq_refl
                        end) Hx Hp) as (y & _ & ->).
  destruct s; reflexivity.
Qed.

(** X2.  [remove_permissions] never raises.  When it answers [True] the
    rows of the resource are PROCESSED and no grant on its base content type
    is left; when it answers [False] for a resolved resource the rows are
    INVALID and dirty and the grants are those from before the call: the
    deletions were rolled back. *)
Theorem remove_permissions_outcome (env : Collaborators)
    (u : option string) (instance : option Resource) (w : World)
    (r : Resource) (p : nat) :
  resolved u instance w = Some r -> pk r = Some p ->
  exists b w',
    remove_permissions env u instance w = Ret b w'
    /\ if b then
         (forall x, In x (rows w') -> pk x = Some p ->
                    state x = STATE_PROCESSED)
         /\ (forall g, In g (grants w') ->
                       grants_on CtResourceBase (Some p) g = false)
         /\ incl (grants w') (grants w)
       else
         (forall x, In x (rows w') -> pk x = Some p ->
                    state x = STATE_INVALID /\ dirty_state x = true)
         /\ grants w' = grants w.
Proof.
  intros Hr Hp. unfold remove_permissions.
  rewrite (bind_Ret _ _ w tt (add_log (EvOp (OpRemovePermissions u)) w))
    by reflexivity.
  rewrite (bind_Ret _ _ _ (Some r) (add_log (EvOp (OpRemovePermissions u)) w))
    by (rewrite resolve_resolved; f_equal; rewrite <- Hr; reflexivity).
  destruct (set_processing_state_returns r STATE_RUNNING
              (add_log (EvOp (OpRemovePermissions u)) w))
    as (w1 & H1 & _ & Hg1).
  rewrite (bind_Ret _ _ _ _ _ H1).
  set (r1 := mark STATE_RUNNING r).
  assert (Hp1 : pk r1 = Some p) by exact Hp.
  unfold try_except.
  match goal with
  | |- context [bind (atomic ?m) ?k w1] =>
      destruct (atomic m w1) as [[] w2|e w2] eqn:Hblk
  end.
  - (* the block returned: its deletions stand *)
    rewrite (bind_Ret _ _ _ _ _ Hblk).
    assert (Hg2 : (forall g, In g (grants w2) ->
                     grants_on CtResourceBase (Some p) g = false)
                  /\ incl (grants w2) (grants w)).
    { cbv beta iota delta [atomic bind remove_grants modify emit call gets
        ret raise] in Hblk.
      rewrite Hp1 in Hblk.
      destruct (isinstance r1 Dataset || legacy_dataset env r1);
        cbn [grants with_grants add_log rows] in Hblk;
        match type of Hblk with
        | context [raises env ?c ?t ?w0] => destruct (raises env c t w0)
        end; try discriminate;
        match type of Hblk with
        | context [backend_remove_permissions env r1 ?w0] =>
            destruct (backend_remove_permissions env r1 w0)
        end; try discriminate;
        inversion Hblk; subst; cbn [grants with_grants add_log];
        rewrite Hg1; cbn [grants add_log]; split.
      - intros g Hin. apply filter_In in Hin. destruct Hin as [_ Hn].
        unfold grants_on. apply negb_true_iff in Hn. exact Hn.
      - eapply incl_tran; [apply incl_filter|apply incl_filter].
      - intros g Hin. apply filter_In in Hin. destruct Hin as [_ Hn].
        unfold grants_on. apply negb_true_iff in Hn. exact Hn.
      - apply incl_filter. }
    unfold set_processing_state, bind, modify, emit, ret.
    exists true. eexists. split; [reflexivity|].
    cbn [rows grants add_log with_rows]. rewrite Hp1.
    split; [|exact Hg2].
    intros x Hx Hpx. eapply mark_rows_state; eauto.
  - (* the block raised: everything it did is rolled back *)
    rewrite (bind_Exc _ _ _ _ _ Hblk).
    destruct (atomic_Exc _ _ _ _ Hblk) as [Hrows2 Hgr2].
    unfold logger_exception, set_processing_state, set_dirty_state, bind,
      modify, emit, ret.
    exists false. eexists. split; [reflexivity|].
    cbn [rows grants add_log with_rows pk mark with_state with_dirty].
    rewrite Hp1. split.
    + intros x Hx Hpx.
      destruct (update_rows_In p (fun y => with_dirty y true) _ x
                  (fun y => eq_refl) Hx Hpx) as (y & Hy & ->).
      assert (Hpy : pk y = Some p) by exact Hpx.
      split; [|reflexivity].
      exact (mark_rows_state p STATE_INVALID _ y Hy Hpy).
    + rewrite Hgr2, Hg1. reflexivity.
Qed.

Lemma remove_permissions_outcome_witness :
  exists b w',
    remove_permissions
      (collaborators_with (fault_at BackendRemovePermissions) empty_spec true)
      (Some "uuid-roads") None store = Ret b w'
    /\ if b then
         (forall x, In x (rows w') -> pk x = Some 1 ->
                    state x = STATE_PROCESSED)
         /\ (forall g, In g (grants w') ->
                       grants_on CtResourceBase (Some 1) g = false)
         /\ incl (grants w') (grants store)
       else
         (forall x, In x (rows w') -> pk x = Some 1 ->
                    state x = STATE_INVALID /\ dirty_state x = true)
         /\ grants w' = grants store.
Proof.
  apply (remove_permissions_outcome
           (collaborators_with (fault_at BackendRemovePermissions) empty_spec
              true) (Some "uuid-roads") None store roads 1).
  - reflexivity.
  - reflexivity.
Defined.

Lemma map_owner_update_rows (q : option nat) (f : Resource -> Resource)
    (rs : list Resource) :
  (forall y, owner (f y) = owner y) ->
  map owner (update_rows q f rs) = map owner rs.
Proof.
  intro Hf. unfold update_rows. induction rs as [|y rs IH]; simpl; auto.
  destruct (opt_nat_eqb (pk y) q); rewrite ?Hf, IH; reflexivity.
Qed.

Lemma owner_mark (s : ProcessingState) (y : Resource) :
  owner (mark s y) = owner y.
Proof. destruct s; reflexivity. Qed.

(** X3.  [set_permissions] never raises, and a call that answers [False]
    leaves nothing of its own in the grants or the owners: for a resolved
    resource (a principal that cannot be found, a collaborator that fails)
    the rows are INVALID and dirty, and the grants and the owners in the
    store are those from before the call, since removals, grants and the
    change of owner were rolled back.  When it answers [True] the rows of
    the resource are PROCESSED; the answer says no more than that (the
    answer of the nested [remove_permissions] is not looked at, see
    [set_permissions_ignores_failed_removal]). *)
Theorem set_permissions_outcome (env : Collaborators) (cfg : Settings)
    (u : option string) (instance : option Resource)
    (owner_ : option string) (spec : PermSpec) (created : bool) (w : World)
    (r : Resource) (p : nat) :
  resolved u instance w = Some r -> pk r = Some p ->
  exists b w',
    set_permissions env cfg u instance owner_ spec created w = Ret b w'
    /\ if b then
         forall x, In x (rows w') -> pk x = Some p ->
                   state x = STATE_PROCESSED
       else
         (forall x, In x (rows w') -> pk x = Some p ->
                    state x = STATE_INVALID /\ dirty_state x = true)
         /\ grants w' = grants w
         /\ map owner (rows w') = map owner (rows w).
Proof.
  intros Hr Hp. unfold set_permissions.
  rewrite (bind_Ret _ _ w tt (add_log (EvOp (OpSetPermissions u spec)) w))
    by reflexivity.
  rewrite (bind_Ret _ _ _ (Some r) (add_log (EvOp (OpSetPermissions u spec)) w))
    by (rewrite resolve_resolved; f_equal; rewrite <- Hr; reflexivity).
  cbv beta iota.
  set (w0 := add_log (EvOp (OpSetPermissions u spec)) w).
  set (w1 := add_log (EvSetState (pk r) STATE_RUNNING)
               (with_rows w0 (update_rows (pk r) (mark STATE_RUNNING)
                                (rows w0)))).
  rewrite (bind_Ret _ _ _ (mark STATE_RUNNING r) w1) by reflexivity.
  set (r1 := mark STATE_RUNNING r).
  assert (Hp1 : pk r1 = Some p) by exact Hp.
  unfold try_except.
  match goal with
  | |- context [bind (atomic ?m) ?k w1] =>
      destruct (atomic m w1) as [[] w2|e w2] eqn:Hblk
  end.
  - rewrite (bind_Ret _ _ _ _ _ Hblk).
    unfold set_processing_state, bind, modify, emit, ret.
    exists true. eexists. split; [reflexivity|].
    cbn [rows add_log with_rows]. rewrite Hp1.
    intros x Hx Hpx. eapply mark_rows_state; eauto.
  - rewrite (bind_Exc _ _ _ _ _ Hblk).
    destruct (atomic_Exc _ _ _ _ Hblk) as [Hrows2 Hgr2].
    unfold logger_exception, set_processing_state, set_dirty_state, bind,
      modify, emit, ret.
    exists false. eexists. split; [reflexivity|].
    cbn [rows grants add_log with_rows pk mark with_state with_dirty].
    rewrite Hp1. split; [|split].
    + intros x Hx Hpx.
      destruct (update_rows_In p (fun y => with_dirty y true) _ x
                  (fun y => eq_refl) Hx Hpx) as (y & Hy & ->).
      assert (Hpy : pk y = Some p) by exact Hpx.
      split; [|reflexivity].
      exact (mark_rows_state p STATE_INVALID _ y Hy Hpy).
    + rewrite Hgr2. reflexivity.
    + rewrite !map_owner_update_rows, Hrows2
        by (intro y; try apply owner_mark; reflexivity).
      unfold w1. cbn [rows add_log with_rows].
      apply map_owner_update_rows. intro y. apply owner_mark.
Qed.

(** A user of the spec that does not exist. *)
Definition unknown_user : Collab -> string -> World -> option Exn :=
  fun c t _ =>
    match c with
    | GetUser =>
        if String.eqb t "nobody"
        then Some (ObjectDoesNotExist "User matching query does not exist.")
        else None
    | _ => None
    end.

Lemma set_permissions_outcome_witness :
  exists b w',
    set_permissions (collaborators_with unknown_user empty_spec true)
      (settings_with false false) (Some "uuid-roads") None (Some "bob")
      (mkPermSpec (Some [(PName "carol", ["view_resourcebase"]);
                         (PName "nobody", ["view_resourcebase"])]) None)
      false store = Ret b w'
    /\ if b then
         forall x, In x (rows w') -> pk x = Some 1 ->
                   state x = STATE_PROCESSED
       else
         (forall x, In x (rows w') -> pk x = Some 1 ->
                    state x = STATE_INVALID /\ dirty_state x = true)
         /\ grants w' = grants store
         /\ map owner (rows w') = map owner (rows store).
Proof.
  apply (set_permissions_outcome
           (collaborators_with unknown_user empty_spec true)
           (settings_with false false) (Some "uuid-roads") None (Some "bob")
           _ false store roads 1).
  - reflexivity.
  - reflexivity.
Defined.

(** In that run the second user is unknown: the call answers [False]
    and the grant already made to the first user is gone again. *)
Example set_permissions_unknown_user :
  exists w',
    set_permissions (collaborators_with unknown_user empty_spec true)
      (settings_with false false) (Some "uuid-roads") None (Some "bob")
      (mkPermSpec (Some [(PName "carol", ["view_resourcebase"]);
                         (PName "nobody", ["view_resourcebase"])]) None)
      false store = Ret false w'
    /\ grants w' = []
    /\ In (EvAssignPerm (mkGrant "view_resourcebase" false "carol"
                           CtResourceBase (Some 1))) (log w').
Proof.
  eexists. split; [vm_compute; reflexivity|].
  split; [vm_compute; reflexivity|].
  vm_compute. repeat (first [left; reflexivity | right]).
Qed.

(** The nested [remove_permissions] fails and answers [False];
    [set_permissions] does not look at the answer (manager.py 608), goes on
    and answers [True]: the grant from before the call is still there
    beside the new one, and the row is PROCESSED but dirty. *)
Example set_permissions_ignores_failed_removal :
  exists w',
    set_permissions
      (collaborators_with (fault_at BackendRemovePermissions) empty_spec true)
      (settings_with false false) (Some "uuid-roads") None None
      (mkPermSpec (Some [(PName "carol", ["view_resourcebase"])]) None)
      false
      (mkWorld [roads; relief; report]
         [mkGrant "view_resourcebase" true "anonymous" CtResourceBase
            (Some 1)] 4 [])
    = Ret true w'
    /\ grants w'
       = [mkGrant "view_resourcebase" false "carol" CtResourceBase (Some 1);
          mkGrant "view_resourcebase" true "anonymous" CtResourceBase
            (Some 1)]
    /\ map (fun x => (state x, dirty_state x))
         (filter_uuid ResourceBase (Some "uuid-roads") (rows w'))
       = [(STATE_PROCESSED, true)].
Proof.
  eexists. split; [|split]; vm_compute; reflexivity.
Qed.

(** *** The perm spec computed by [get_workflow_permissions] *)

(** [spec['users'][k] = list(set(prev + perms))] and the same for
    ['groups'], on a spec that has the entry. *)
Definition users_step (perms : list string) (s : PermSpec) (k : Principal)
    : PermSpec :=
  mkPermSpec (option_map (union_onto k perms) (ps_users s)) (ps_groups s).

Definition groups_step (k : Principal) (perms : list string) (s : PermSpec)
    : PermSpec :=
  mkPermSpec (ps_users s) (option_map (union_onto k perms) (ps_groups s)).

Definition member_step (cfg : Settings) (s : PermSpec)
    (item : Principal * list string) : PermSpec :=
  if negb (principal_eqb (fst item) anonymous_group)
     && negb (String.eqb (principal_name (fst item))
                (REGISTERED_MEMBERS_GROUP_NAME cfg))
  then groups_step (fst item) (snd item) s
  else s.

(** The spec that the block guarded by the workflow settings computes from
    [spec0], given the member groups and the managers of the resource. *)
Definition workflow_result (cfg : Settings) (r : Resource) (rtype : string)
    (gm : option PermDict * list Principal) (spec0 : PermSpec) : PermSpec :=
  let view := view_perms_of cfg rtype in
  let s1 := fold_left (users_step (view ++ ADMIN_PERMISSIONS cfg)%list)
              (snd gm) spec0 in
  let s2 := match fst gm with
            | Some groups => fold_left (member_step cfg) groups s1
            | None => s1
            end in
  let s3 := if is_approved r then
              if AUTO_ASSIGN_REGISTERED_MEMBERS cfg
              then groups_step (PObj (REGISTERED_MEMBERS_GROUP_NAME cfg))
                     view s2
              else groups_step anonymous_group view s2
            else s2 in
  if is_published r then groups_step anonymous_group view s3 else s3.

(** A spec with both entries. *)
Definition both_entries (s : PermSpec) : Prop :=
  ps_users s <> None /\ ps_groups s <> None.

Lemma users_step_run (k : Principal) (perms : list string) (s : PermSpec)
    (w : World) :
  both_entries s ->
  union_users k perms s w = Ret (users_step perms s k) w
  /\ both_entries (users_step perms s k).
Proof.
  intros [Hu Hg]. unfold union_users, users_step, both_entries.
  destruct (ps_users s); [|congruence]. simpl. repeat split; congruence.
Qed.

Lemma groups_step_run (k : Principal) (perms : list string) (s : PermSpec)
    (w : World) :
  both_entries s ->
  union_groups k perms s w = Ret (groups_step k perms s) w
  /\ both_entries (groups_step k perms s).
Proof.
  intros [Hu Hg]. unfold union_groups, groups_step, both_entries.
  destruct (ps_groups s); [|congruence]. simpl. repeat split; congruence.
Qed.

Lemma fold_m_pure {A} (step : PermSpec -> A -> PermSpec)
    (body : A -> PermSpec -> M PermSpec) (xs : list A) :
  (forall x s w, both_entries s ->
                 body x s w = Ret (step s x) w /\ both_entries (step s x)) ->
  forall s w, both_entries s ->
    fold_m xs body s w = Ret (fold_left step xs s) w
    /\ both_entries (fold_left step xs s).
Proof.
  intro Hb. induction xs as [|x xs IH]; intros s w Hs; simpl.
  - auto.
  - destruct (Hb x s w Hs) as [H1 H2].
    rewrite (bind_Ret _ _ _ _ _ H1). apply IH. exact H2.
Qed.

(** With group lookups that do not fail and a spec that has both entries,
    the guarded block returns [workflow_result]. *)
Lemma workflow_grants_run (env : Collaborators) (cfg : Settings)
    (r : Resource) (rtype : string) (spec0 : PermSpec) (w : World) :
  (forall t w1, raises env GetGroup t w1 = None) ->
  both_entries spec0 ->
  exists w',
    workflow_grants env cfg r rtype spec0 w
    = Ret (workflow_result cfg r rtype
             (get_group_managers env r
                (add_log (EvCall GetGroup "anonymous") w)) spec0) w'.
Proof.
  intros Hgrp H0. unfold workflow_grants, workflow_result.
  set (view := view_perms_of cfg rtype).
  erewrite bind_Ret; [|apply call_ok, Hgrp].
  set (w1 := add_log (EvCall GetGroup "anonymous") w).
  erewrite bind_Ret; [|reflexivity].
  destruct (get_group_managers env r w1) as [member_group_perm managers].
  cbn [fst snd].
  destruct (fold_m_pure (users_step (view ++ ADMIN_PERMISSIONS cfg)%list)
              (fun gm s => union_users gm (view ++ ADMIN_PERMISSIONS cfg) s)%list
              managers
              (fun x s w2 Hs => users_step_run x _ s w2 Hs) spec0 w1 H0)
    as [Hs1 HI1].
  rewrite (bind_Ret _ _ _ _ _ Hs1).
  set (s1 := fold_left (users_step (view ++ ADMIN_PERMISSIONS cfg)%list)
               managers spec0) in *.
  set (s2 := match member_group_perm with
             | Some groups => fold_left (member_step cfg) groups s1
             | None => s1
             end).
  assert (Hmem : match member_group_perm with
                 | Some groups =>
                     fold_m groups
                       (fun item s =>
                          let '(gr, perm) := item in
                          if negb (principal_eqb gr anonymous_group)
                             && negb (String.eqb (principal_name gr)
                                        (REGISTERED_MEMBERS_GROUP_NAME cfg))
                          then union_groups gr perm s
                          else ret s) s1
                 | None => ret s1
                 end w1 = Ret s2 w1 /\ both_entries s2).
  { unfold s2. destruct member_group_perm as [groups|]; [|auto].
    apply fold_m_pure; auto.
    intros [gr perm] s w2 Hs. unfold member_step. cbn [fst snd].
    destruct (negb (principal_eqb gr anonymous_group)
              && negb (String.eqb (principal_name gr)
                         (REGISTERED_MEMBERS_GROUP_NAME cfg))).
    - apply groups_step_run. exact Hs.
    - auto. }
  destruct Hmem as [Hs2 HI2].
  rewrite (bind_Ret _ _ _ _ _ Hs2).
  assert (Happ : exists w3,
             (if is_approved r then
                if AUTO_ASSIGN_REGISTERED_MEMBERS cfg then
                  call env GetGroup (REGISTERED_MEMBERS_GROUP_NAME cfg) ;;;
                  union_groups (PObj (REGISTERED_MEMBERS_GROUP_NAME cfg))
                    view s2
                else union_groups anonymous_group view s2
              else ret s2) w1
             = Ret (if is_approved r then
                      if AUTO_ASSIGN_REGISTERED_MEMBERS cfg
                      then groups_step
                             (PObj (REGISTERED_MEMBERS_GROUP_NAME cfg)) view s2
                      else groups_step anonymous_group view s2
                    else s2) w3
             /\ both_entries
                  (if is_approved r then
                     if AUTO_ASSIGN_REGISTERED_MEMBERS cfg
                     then groups_step
                            (PObj (REGISTERED_MEMBERS_GROUP_NAME cfg)) view s2
                     else groups_step anonymous_group view s2
                   else s2)).
  { destruct (is_approved r); [|exists w1; auto].
    destruct (AUTO_ASSIGN_REGISTERED_MEMBERS cfg).
    - erewrite bind_Ret; [|apply call_ok, Hgrp].
      eexists. apply groups_step_run. exact HI2.
    - exists w1. apply groups_step_run. exact HI2. }
  destruct Happ as (w3 & Hs3 & HI3).
  rewrite (bind_Ret _ _ _ _ _ Hs3).
  destruct (is_published r).
  - exists w3. apply groups_step_run. exact HI3.
  - exists w3. reflexivity.
Qed.

(** The spec [get_workflow_permissions] starts from, the member groups and
    managers it looks up, and the spec it hands to the concrete manager when
    a workflow setting is on. *)
Definition workflow_start (env : Collaborators) (permissions : PermSpec)
    (r : Resource) (w : World) : PermSpec :=
  initial_perm_spec env r (given_permissions env permissions (Some r)) w.

Definition workflow_groups (env : Collaborators) (r : Resource) (w : World)
    : option PermDict * list Principal :=
  get_group_managers env r (add_log (EvCall GetGroup "anonymous") w).

Definition workflow_spec (env : Collaborators) (cfg : Settings)
    (permissions : PermSpec) (r : Resource) (w : World) : PermSpec :=
  workflow_result cfg r (resource_type_of env r) (workflow_groups env r w)
    (workflow_start env permissions r w).

(** The tokens a spec gives to a user key or to a group key. *)
Definition user_tokens (s : PermSpec) (k : Principal) : list string :=
  match ps_users s with Some d => perms_of k d | None => [] end.

Definition group_tokens (s : PermSpec) (k : Principal) : list string :=
  match ps_groups s with Some d => perms_of k d | None => [] end.

Lemma perms_of_union_grows (k k' : Principal) (perms : list string)
    (d : PermDict) (t : string) :
  In t (perms_of k' d) -> In t (perms_of k' (union_onto k perms d)).
Proof.
  intro H. destruct (principal_eqb k k') eqn:E.
  - apply principal_eqb_eq in E. subst. apply perms_of_union_same. auto.
  - rewrite perms_of_union_other; auto.
Qed.

Lemma users_step_user_tokens (perms : list string) (s : PermSpec)
    (k k' : Principal) (t : string) :
  In t (user_tokens s k') -> In t (user_tokens (users_step perms s k) k').
Proof.
  unfold user_tokens, users_step. simpl.
  destruct (ps_users s); simpl; auto. apply perms_of_union_grows.
Qed.

Lemma groups_step_group_tokens (perms : list string) (s : PermSpec)
    (k k' : Principal) (t : string) :
  In t (group_tokens s k') -> In t (group_tokens (groups_step k perms s) k').
Proof.
  unfold group_tokens, groups_step. simpl.
  destruct (ps_groups s); simpl; auto. apply perms_of_union_grows.
Qed.

Lemma member_step_group_tokens (cfg : Settings) (s : PermSpec)
    (item : Principal * list string) (k' : Principal) (t : string) :
  In t (group_tokens s k') -> In t (group_tokens (member_step cfg s item) k').
Proof.
  unfold member_step.
  destruct (negb (principal_eqb (fst item) anonymous_group)
            && negb (String.eqb (principal_name (fst item))
                       (REGISTERED_MEMBERS_GROUP_NAME cfg))); auto.
  apply groups_step_group_tokens.
Qed.

Lemma fold_left_preserves {A S} (P : S -> Prop) (step : S -> A -> S)
    (xs : list A) :
  (forall s x, P s -> P (step s x)) ->
  forall s, P s -> P (fold_left step xs s).
Proof.
  intro H. induction xs as [|x xs IH]; simpl; auto.
Qed.

(** The users of the result are those the managers loop leaves, the groups
    of the managers loop are those of the start. *)
Lemma workflow_result_users (cfg : Settings) (r : Resource) (rtype : string)
    (gm : option PermDict * list Principal) (spec0 : PermSpec) :
  ps_users (workflow_result cfg r rtype gm spec0)
  = ps_users (fold_left
                (users_step (view_perms_of cfg rtype
                             ++ ADMIN_PERMISSIONS cfg)%list)
                (snd gm) spec0).
Proof.
  unfold workflow_result.
  set (s1 := fold_left _ (snd gm) spec0).
  assert (Hm : forall groups s, ps_users (fold_left (member_step cfg) groups s)
                                = ps_users s).
  { induction groups as [|x xs IH]; intro s; simpl; auto.
    rewrite IH. unfold member_step.
    destruct (negb _ && negb _); reflexivity. }
  destruct (is_published r), (is_approved r),
    (AUTO_ASSIGN_REGISTERED_MEMBERS cfg), (fst gm);
    simpl; rewrite ?Hm; reflexivity.
Qed.

Lemma users_loop_groups (perms : list string) (ks : list Principal)
    (s : PermSpec) :
  ps_groups (fold_left (users_step perms) ks s) = ps_groups s.
Proof.
  revert s. induction ks as [|k ks IH]; intro s; simpl; auto.
  rewrite IH. reflexivity.
Qed.

(** Tokens only accumulate along the computation. *)
Lemma workflow_result_grows (cfg : Settings) (r : Resource) (rtype : string)
    (gm : option PermDict * list Principal) (spec0 : PermSpec)
    (k : Principal) (t : string) :
  (In t (user_tokens spec0 k) ->
   In t (user_tokens (workflow_result cfg r rtype gm spec0) k))
  /\ (In t (group_tokens spec0 k) ->
      In t (group_tokens (workflow_result cfg r rtype gm spec0) k)).
Proof.
  split.
  - intro H. unfold user_tokens. rewrite workflow_result_users.
    apply (fold_left_preserves (fun s => In t (user_tokens s k))); auto.
    intros s x. apply users_step_user_tokens.
  - intro H. unfold workflow_result.
    set (view := view_perms_of cfg rtype).
    set (s1 := fold_left _ (snd gm) spec0).
    assert (H1 : In t (group_tokens s1 k)).
    { unfold group_tokens, s1. rewrite users_loop_groups. exact H. }
    assert (H2 : In t (group_tokens
                         match fst gm with
                         | Some groups => fold_left (member_step cfg) groups s1
                         | None => s1
                         end k)).
    { destruct (fst gm); auto.
      apply (fold_left_preserves (fun s => In t (group_tokens s k))); auto.
      intros s x. apply member_step_group_tokens. }
    destruct (is_published r), (is_approved r),
      (AUTO_ASSIGN_REGISTERED_MEMBERS cfg);
      repeat apply groups_step_group_tokens; exact H2.
Qed.

(** A manager holds every token the managers loop unions in. *)
Lemma users_loop_manager (perms : list string) (ks : list Principal)
    (s : PermSpec) (k : Principal) (t : string) :
  ps_users s <> None -> In k ks -> In t perms ->
  In t (user_tokens (fold_left (users_step perms) ks s) k).
Proof.
  revert s. induction ks as [|x ks IH]; intros s Hs Hk Ht; [contradiction|].
  simpl. destruct Hk as [->|Hk].
  - apply (fold_left_preserves (fun s' => In t (user_tokens s' k))).
    + intros s' y. apply users_step_user_tokens.
    + unfold user_tokens, users_step. simpl.
      destruct (ps_users s); [|congruence]. simpl.
      apply perms_of_union_same. auto.
  - apply IH; auto. unfold users_step. simpl.
    destruct (ps_users s); simpl; congruence.
Qed.

(** The managers loop leaves every other user's tokens as they are. *)
Lemma users_loop_other (perms : list string) (ks : list Principal)
    (s : PermSpec) (k : Principal) :
  ~ In k ks ->
  user_tokens (fold_left (users_step perms) ks s) k = user_tokens s k.
Proof.
  revert s. induction ks as [|x ks IH]; intros s Hk; simpl; auto.
  rewrite IH by (intro H; apply Hk; right; exact H).
  unfold user_tokens, users_step. simpl.
  destruct (ps_users s); simpl; auto.
  apply perms_of_union_other.
  destruct (principal_eqb x k) eqn:E; auto.
  apply principal_eqb_eq in E. subst. exfalso. apply Hk. left. reflexivity.
Qed.

Lemma groups_step_same (k : Principal) (perms : list string) (s : PermSpec)
    (t : string) :
  ps_groups s <> None ->
  (In t (group_tokens (groups_step k perms s) k)
   <-> In t (group_tokens s k) \/ In t perms).
Proof.
  intro Hs. unfold group_tokens, groups_step. simpl.
  destruct (ps_groups s); [|congruence]. simpl. apply perms_of_union_same.
Qed.

Lemma groups_step_other (k k' : Principal) (perms : list string)
    (s : PermSpec) :
  k <> k' ->
  group_tokens (groups_step k perms s) k' = group_tokens s k'.
Proof.
  intro Hne. unfold group_tokens, groups_step. simpl.
  destruct (ps_groups s); simpl; auto.
  apply perms_of_union_other.
  destruct (principal_eqb k k') eqn:E; auto.
  apply principal_eqb_eq in E. contradiction.
Qed.

Lemma groups_step_entries (k : Principal) (perms : list string)
    (s : PermSpec) :
  ps_groups s <> None -> ps_groups (groups_step k perms s) <> None.
Proof.
  unfold groups_step. simpl. destruct (ps_groups s); simpl; congruence.
Qed.

(** A group the member loop skips: the anonymous group, or a group named as
    the registered members group. *)
Definition skipped_group (cfg : Settings) (k : Principal) : Prop :=
  k = anonymous_group
  \/ principal_name k = REGISTERED_MEMBERS_GROUP_NAME cfg.

Lemma member_step_skipped (cfg : Settings) (s : PermSpec)
    (item : Principal * list string) (k : Principal) :
  skipped_group cfg k ->
  group_tokens (member_step cfg s item) k = group_tokens s k.
Proof.
  intro Hk. unfold member_step.
  destruct (negb (principal_eqb (fst item) anonymous_group)
            && negb (String.eqb (principal_name (fst item))
                       (REGISTERED_MEMBERS_GROUP_NAME cfg))) eqn:E; auto.
  apply groups_step_other. intro Heq. subst k.
  apply andb_true_iff in E. destruct E as [E1 E2].
  apply negb_true_iff in E1, E2.
  destruct Hk as [Hk|Hk].
  - rewrite Hk, principal_eqb_refl in E1. discriminate.
  - rewrite Hk, String.eqb_refl in E2. discriminate.
Qed.

Lemma member_step_entries (cfg : Settings) (s : PermSpec)
    (item : Principal * list string) :
  ps_groups s <> None -> ps_groups (member_step cfg s item) <> None.
Proof.
  intro H. unfold member_step.
  destruct (negb _ && negb _); auto. apply groups_step_entries. exact H.
Qed.

(** The spec after the managers loop and the member loop. *)
Definition after_loops (cfg : Settings) (rtype : string)
    (gm : option PermDict * list Principal) (spec0 : PermSpec) : PermSpec :=
  let s1 := fold_left
              (users_step (view_perms_of cfg rtype
                           ++ ADMIN_PERMISSIONS cfg)%list)
              (snd gm) spec0 in
  match fst gm with
  | Some groups => fold_left (member_step cfg) groups s1
  | None => s1
  end.

Lemma after_loops_skipped (cfg : Settings) (rtype : string)
    (gm : option PermDict * list Principal) (spec0 : PermSpec)
    (k : Principal) :
  skipped_group cfg k ->
  group_tokens (after_loops cfg rtype gm spec0) k = group_tokens spec0 k.
Proof.
  intro Hk. unfold after_loops.
  set (s1 := fold_left _ (snd gm) spec0).
  assert (H1 : group_tokens s1 k = group_tokens spec0 k).
  { unfold group_tokens, s1. rewrite users_loop_groups. reflexivity. }
  destruct (fst gm) as [groups|]; auto.
  rewrite <- H1. generalize s1. clear H1 s1.
  induction groups as [|x xs IH]; intro s; simpl; auto.
  rewrite IH. apply member_step_skipped. exact Hk.
Qed.

Lemma after_loops_entries (cfg : Settings) (rtype : string)
    (gm : option PermDict * list Principal) (spec0 : PermSpec) :
  ps_groups spec0 <> None ->
  ps_groups (after_loops cfg rtype gm spec0) <> None.
Proof.
  intro H. unfold after_loops.
  set (s1 := fold_left _ (snd gm) spec0).
  assert (H1 : ps_groups s1 <> None).
  { unfold s1. rewrite users_loop_groups. exact H. }
  destruct (fst gm) as [groups|]; auto.
  apply (fold_left_preserves (fun s => ps_groups s <> None)); auto.
  intros s x. apply member_step_entries.
Qed.

Lemma workflow_result_after_loops (cfg : Settings) (r : Resource)
    (rtype : string) (gm : option PermDict * list Principal)
    (spec0 : PermSpec) :
  workflow_result cfg r rtype gm spec0
  = let view := view_perms_of cfg rtype in
    let s2 := after_loops cfg rtype gm spec0 in
    let s3 := if is_approved r then
                if AUTO_ASSIGN_REGISTERED_MEMBERS cfg
                then groups_step (PObj (REGISTERED_MEMBERS_GROUP_NAME cfg))
                       view s2
                else groups_step anonymous_group view s2
              else s2 in
    if is_published r then groups_step anonymous_group view s3 else s3.
Proof. reflexivity. Qed.

Lemma users_loop_upper (perms : list string) (ks : list Principal)
    (s : PermSpec) (k : Principal) (t : string) :
  In t (user_tokens (fold_left (users_step perms) ks s) k) ->
  In t (user_tokens s k) \/ In t perms.
Proof.
  revert s. induction ks as [|x ks IH]; intros s H; simpl in H; auto.
  apply IH in H. destruct H as [H|H]; auto.
  unfold user_tokens, users_step in *. simpl in H.
  destruct (ps_users s) as [d|]; simpl in H; auto.
  destruct (principal_eqb x k) eqn:E.
  - apply principal_eqb_eq in E. subst x.
    apply perms_of_union_same in H. exact H.
  - rewrite perms_of_union_other in H by exact E. auto.
Qed.

(** The conditions under which the guarded block of
    [get_workflow_permissions] runs to its end: a workflow setting is on,
    the resource is resolved, the group lookups and the concrete manager do
    not fail, and the starting spec has both entries. *)
Definition workflow_ready (env : Collaborators) (cfg : Settings)
    (u : option string) (instance : option Resource) (permissions : PermSpec)
    (w : World) (r : Resource) : Prop :=
  ADMIN_MODERATE_UPLOADS cfg || RESOURCE_PUBLISHING cfg = true
  /\ resolved u instance w = Some r
  /\ (forall t w1, raises env GetGroup t w1 = None)
  /\ (forall w1, raises env BackendGetWorkflowPermissions (uuid r) w1 = None)
  /\ both_entries (workflow_start env permissions r w).

Lemma get_workflow_permissions_run (env : Collaborators) (cfg : Settings)
    (u : option string) (instance : option Resource) (permissions : PermSpec)
    (w : World) (r : Resource) :
  workflow_ready env cfg u instance permissions w r ->
  exists w',
    get_workflow_permissions env cfg u instance permissions w
    = Ret (Some (backend_get_workflow_permissions env r
                   (workflow_spec env cfg permissions r w))) w'.
Proof.
  intros (Hcfg & Hr & Hgrp & Hback & Hboth).
  unfold get_workflow_permissions.
  rewrite (bind_Ret _ _ w (Some r) w)
    by (rewrite resolve_resolved, Hr; reflexivity).
  fold (given_permissions env permissions (Some r)).
  rewrite (bind_Ret _ _ w (workflow_start env permissions r w) w)
    by reflexivity.
  rewrite Hcfg.
  destruct (workflow_grants_run env cfg r (resource_type_of env r)
              (workflow_start env permissions r w) w Hgrp Hboth)
    as (w' & Hrun).
  rewrite (bind_Ret _ _ _ _ _ Hrun).
  erewrite bind_Ret; [|apply call_ok, Hback].
  eexists. reflexivity.
Qed.

(** Collaborators as [env], with the given member groups and managers. *)
Definition with_group_managers (env : Collaborators)
    (gm : option PermDict * list Principal) : Collaborators :=
  mkCollaborators (raises env) (backend_exists env)
    (backend_remove_permissions env) (backend_set_permissions env)
    (backend_get_workflow_permissions env) (uuid1 env) (parse_metadata env)
    (get_all_level_info env) (storage_copy env) (compact_validate env)
    (compact_extended env) (fixup_perms env) (owner_groups env)
    (fun _ _ => gm) (service_has_harvester env) (polymorphic_ctype_name env)
    (legacy_dataset env) (missing_thumb env) (workflow_enabled env).

(** A setting in which mary manages the owner's groups, whose members are
    the editors. *)
Definition editorial : Collaborators :=
  with_group_managers (collaborators_with no_fault empty_spec true)
    (Some [(PObj "editors", ["view_resourcebase"]);
           (PObj "anonymous", ["view_resourcebase"]);
           (PObj "registered-members", ["view_resourcebase"])],
     [PName "mary"]).

Definition editors_spec : PermSpec :=
  mkPermSpec (Some [(PName "mary", ["publish_resourcebase"]);
                    (PName "carol", ["view_resourcebase"])])
             (Some [(PObj "editors", ["change_resourcebase_metadata"])]).

Definition approved_report : Resource :=
  mkResource (Some 3) "uuid-report" Document "" false "alice" STATE_PROCESSED
    false true false [] "" "" false.

Definition settings_auto_assign : Settings :=
  mkSettings false true true true true "registered-members" false
    ["view_resourcebase"]
    ["change_resourcebase_metadata"; "delete_resourcebase";
     "change_resourcebase_permissions"; "publish_resourcebase"]
    ["download_resourcebase"]
    ["dataset"; "document"]
    ["change_dataset_data"]
    ["vector"].

(** X4.  With a workflow setting on, [get_workflow_permissions] hands to the
    concrete manager a spec that only adds to the starting one: every token
    a user or a group holds in the starting spec it still holds. *)
Theorem workflow_permissions_only_add (env : Collaborators) (cfg : Settings)
    (u : option string) (instance : option Resource) (permissions : PermSpec)
    (w : World) (r : Resource) :
  workflow_ready env cfg u instance permissions w r ->
  exists w',
    get_workflow_permissions env cfg u instance permissions w
    = Ret (Some (backend_get_workflow_permissions env r
                   (workflow_spec env cfg permissions r w))) w'
    /\ forall k t,
         (In t (user_tokens (workflow_start env permissions r w) k) ->
          In t (user_tokens (workflow_spec env cfg permissions r w) k))
         /\ (In t (group_tokens (workflow_start env permissions r w) k) ->
             In t (group_tokens (workflow_spec env cfg permissions r w) k)).
Proof.
  intro Hready.
  destruct (get_workflow_permissions_run env cfg u instance permissions w r
              Hready) as (w' & Hrun).
  exists w'. split; [exact Hrun|].
  intros k t. apply workflow_result_grows.
Qed.

Lemma workflow_permissions_only_add_witness :
  exists w',
    get_workflow_permissions editorial (settings_with false true)
      (Some "uuid-report") None editors_spec store
    = Ret (Some (backend_get_workflow_permissions editorial report
                   (workflow_spec editorial (settings_with false true)
                      editors_spec report store))) w'
    /\ forall k t,
         (In t (user_tokens (workflow_start editorial editors_spec report
                               store) k) ->
          In t (user_tokens (workflow_spec editorial
                               (settings_with false true) editors_spec
                               report store) k))
         /\ (In t (group_tokens (workflow_start editorial editors_spec report
                                   store) k) ->
             In t (group_tokens (workflow_spec editorial
                                   (settings_with false true) editors_spec
                                   report store) k)).
Proof.
  apply (workflow_permissions_only_add editorial (settings_with false true)
           (Some "uuid-report") None editors_spec store report).
  unfold workflow_ready, both_entries.
  repeat split; try reflexivity; vm_compute; discriminate.
Defined.

(** X5.  With a workflow setting on, every group manager of the resource
    holds, in the spec handed to the concrete manager, exactly the tokens it
    had in the starting spec together with the view tokens (and the download
    tokens for a downloadable type) and the admin tokens; a user who is not
    a group manager holds exactly what the starting spec gave. *)
Theorem workflow_managers_tokens (env : Collaborators) (cfg : Settings)
    (u : option string) (instance : option Resource) (permissions : PermSpec)
    (w : World) (r : Resource) :
  workflow_ready env cfg u instance permissions w r ->
  exists w',
    get_workflow_permissions env cfg u instance permissions w
    = Ret (Some (backend_get_workflow_permissions env r
                   (workflow_spec env cfg permissions r w))) w'
    /\ (forall m t,
          In m (snd (workflow_groups env r w)) ->
          (In t (user_tokens (workflow_spec env cfg permissions r w) m)
           <-> In t (user_tokens (workflow_start env permissions r w) m)
               \/ In t (view_perms_of cfg (resource_type_of env r)
                        ++ ADMIN_PERMISSIONS cfg)%list))
    /\ (forall k,
          ~ In k (snd (workflow_groups env r w)) ->
          user_tokens (workflow_spec env cfg permissions r w) k
          = user_tokens (workflow_start env permissions r w) k).
Proof.
  intro Hready.
  destruct (get_workflow_permissions_run env cfg u instance permissions w r
              Hready) as (w' & Hrun).
  destruct Hready as (_ & _ & _ & _ & Hu & _).
  exists w'. split; [exact Hrun|].
  unfold workflow_spec, user_tokens at 1 3.
  rewrite workflow_result_users.
  fold (user_tokens
          (fold_left
             (users_step (view_perms_of cfg (resource_type_of env r)
                          ++ ADMIN_PERMISSIONS cfg)%list)
             (snd (workflow_groups env r w))
             (workflow_start env permissions r w))).
  split.
  - intros m t Hm. split.
    + apply users_loop_upper.
    + intros [H|H].
      * apply (fold_left_preserves (fun s => In t (user_tokens s m))); auto.
        intros s x. apply users_step_user_tokens.
      * apply users_loop_manager; auto.
  - intros k Hk. apply users_loop_other. exact Hk.
Qed.

Lemma workflow_managers_tokens_witness :
  exists w',
    get_workflow_permissions editorial (settings_with false true)
      (Some "uuid-report") None editors_spec store
    = Ret (Some (backend_get_workflow_permissions editorial report
                   (workflow_spec editorial (settings_with false true)
                      editors_spec report store))) w'
    /\ (forall m t,
          In m (snd (workflow_groups editorial report store)) ->
          (In t (user_tokens (workflow_spec editorial
                                (settings_with false true) editors_spec
                                report store) m)
           <-> In t (user_tokens (workflow_start editorial editors_spec
                                    report store) m)
               \/ In t (view_perms_of (settings_with false true)
                          (resource_type_of editorial report)
                        ++ ADMIN_PERMISSIONS (settings_with false true))%list))
    /\ (forall k,
          ~ In k (snd (workflow_groups editorial report store)) ->
          user_tokens (workflow_spec editorial (settings_with false true)
                         editors_spec report store) k
          = user_tokens (workflow_start editorial editors_spec report store)
              k).
Proof.
  apply (workflow_managers_tokens editorial (settings_with false true)
           (Some "uuid-report") None editors_spec store report).
  unfold workflow_ready, both_entries.
  repeat split; try reflexivity; vm_compute; discriminate.
Defined.

(** The spec the approved and published branches start from. *)
Lemma workflow_spec_after_loops (env : Collaborators) (cfg : Settings)
    (permissions : PermSpec) (r : Resource) (w : World) :
  workflow_spec env cfg permissions r w
  = let view := view_perms_of cfg (resource_type_of env r) in
    let s2 := after_loops cfg (resource_type_of env r)
                (workflow_groups env r w)
                (workflow_start env permissions r w) in
    let s3 := if is_approved r then
                if AUTO_ASSIGN_REGISTERED_MEMBERS cfg
                then groups_step (PObj (REGISTERED_MEMBERS_GROUP_NAME cfg))
                       view s2
                else groups_step anonymous_group view s2
              else s2 in
    if is_published r then groups_step anonymous_group view s3 else s3.
Proof. reflexivity. Qed.

(** X6.  With a workflow setting on, a resource that is neither approved nor
    published gives nothing to the anonymous group nor to the registered
    members group: in the spec handed to the concrete manager they hold
    exactly the tokens of the starting spec, whatever the member groups of
    the owner are. *)
Theorem workflow_unapproved_unpublished (env : Collaborators)
    (cfg : Settings) (u : option string) (instance : option Resource)
    (permissions : PermSpec) (w : World) (r : Resource) :
  workflow_ready env cfg u instance permissions w r ->
  is_approved r = false ->
  is_published r = false ->
  exists w',
    get_workflow_permissions env cfg u instance permissions w
    = Ret (Some (backend_get_workflow_permissions env r
                   (workflow_spec env cfg permissions r w))) w'
    /\ forall k,
         skipped_group cfg k ->
         group_tokens (workflow_spec env cfg permissions r w) k
         = group_tokens (workflow_start env permissions r w) k.
Proof.
  intros Hready Happ Hpub.
  destruct (get_workflow_permissions_run env cfg u instance permissions w r
              Hready) as (w' & Hrun).
  exists w'. split; [exact Hrun|].
  intros k Hk. rewrite workflow_spec_after_loops. cbv zeta.
  rewrite Happ, Hpub. apply after_loops_skipped. exact Hk.
Qed.

Lemma workflow_unapproved_unpublished_witness :
  exists w',
    get_workflow_permissions editorial (settings_with false true)
      (Some "uuid-report") None editors_spec store
    = Ret (Some (backend_get_workflow_permissions editorial report
                   (workflow_spec editorial (settings_with false true)
                      editors_spec report store))) w'
    /\ forall k,
         skipped_group (settings_with false true) k ->
         group_tokens (workflow_spec editorial (settings_with false true)
                         editors_spec report store) k
         = group_tokens (workflow_start editorial editors_spec report store)
             k.
Proof.
  apply (workflow_unapproved_unpublished editorial (settings_with false true)
           (Some "uuid-report") None editors_spec store report).
  - unfold workflow_ready, both_entries.
    repeat split; try reflexivity; vm_compute; discriminate.
  - reflexivity.
  - reflexivity.
Defined.

(** X7.  With a workflow setting on and the registered members group
    assigned automatically, an approved resource that is not published gives
    the view tokens to the registered members group and nothing to the
    anonymous group. *)
Theorem workflow_approved_registered_members (env : Collaborators)
    (cfg : Settings) (u : option string) (instance : option Resource)
    (permissions : PermSpec) (w : World) (r : Resource) :
  workflow_ready env cfg u instance permissions w r ->
  is_approved r = true ->
  is_published r = false ->
  AUTO_ASSIGN_REGISTERED_MEMBERS cfg = true ->
  REGISTERED_MEMBERS_GROUP_NAME cfg <> "anonymous" ->
  exists w',
    get_workflow_permissions env cfg u instance permissions w
    = Ret (Some (backend_get_workflow_permissions env r
                   (workflow_spec env cfg permissions r w))) w'
    /\ (forall t,
          In t (group_tokens (workflow_spec env cfg permissions r w)
                  (PObj (REGISTERED_MEMBERS_GROUP_NAME cfg)))
          <-> In t (group_tokens (workflow_start env permissions r w)
                      (PObj (REGISTERED_MEMBERS_GROUP_NAME cfg)))
              \/ In t (view_perms_of cfg (resource_type_of env r)))
    /\ group_tokens (workflow_spec env cfg permissions r w) anonymous_group
       = group_tokens (workflow_start env permissions r w) anonymous_group.
Proof.
  intros Hready Happ Hpub Hauto Hname.
  destruct (get_workflow_permissions_run env cfg u instance permissions w r
              Hready) as (w' & Hrun).
  destruct Hready as (_ & _ & _ & _ & _ & Hg).
  exists w'. split; [exact Hrun|].
  rewrite workflow_spec_after_loops. cbv zeta.
  rewrite Happ, Hpub, Hauto.
  split.
  - intro t.
    rewrite groups_step_same by (apply after_loops_entries; exact Hg).
    rewrite after_loops_skipped by (right; reflexivity).
    reflexivity.
  - rewrite groups_step_other.
    + apply after_loops_skipped. left. reflexivity.
    + unfold anonymous_group. intro H. apply Hname. congruence.
Qed.

Lemma workflow_approved_registered_members_witness :
  exists w',
    get_workflow_permissions editorial settings_auto_assign
      None (Some approved_report) editors_spec store
    = Ret (Some (backend_get_workflow_permissions editorial approved_report
                   (workflow_spec editorial settings_auto_assign
                      editors_spec approved_report store))) w'
    /\ (forall t,
          In t (group_tokens (workflow_spec editorial settings_auto_assign
                                editors_spec approved_report store)
                  (PObj (REGISTERED_MEMBERS_GROUP_NAME settings_auto_assign)))
          <-> In t (group_tokens (workflow_start editorial editors_spec
                                    approved_report store)
                      (PObj (REGISTERED_MEMBERS_GROUP_NAME
                               settings_auto_assign)))
              \/ In t (view_perms_of settings_auto_assign
                         (resource_type_of editorial approved_report)))
    /\ group_tokens (workflow_spec editorial settings_auto_assign
                       editors_spec approved_report store) anonymous_group
       = group_tokens (workflow_start editorial editors_spec approved_report
                         store) anonymous_group.
Proof.
  apply (workflow_approved_registered_members editorial settings_auto_assign
           None (Some approved_report) editors_spec store approved_report).
  - unfold workflow_ready, both_entries.
    repeat split; try reflexivity; vm_compute; discriminate.
  - reflexivity.
  - reflexivity.
  - reflexivity.
  - vm_compute. discriminate.
Defined.

(** X8.  With a workflow setting on and no automatic assignment to the
    registered members group, approval alone opens the resource: for an
    approved resource the anonymous group holds its previous tokens together
    with the view tokens, published or not. *)
Theorem workflow_approved_anonymous (env : Collaborators)
    (cfg : Settings) (u : option string) (instance : option Resource)
    (permissions : PermSpec) (w : World) (r : Resource) :
  workflow_ready env cfg u instance permissions w r ->
  is_approved r = true ->
  AUTO_ASSIGN_REGISTERED_MEMBERS cfg = false ->
  exists w',
    get_workflow_permissions env cfg u instance permissions w
    = Ret (Some (backend_get_workflow_permissions env r
                   (workflow_spec env cfg permissions r w))) w'
    /\ forall t,
         In t (group_tokens (workflow_spec env cfg permissions r w)
                 anonymous_group)
         <-> In t (group_tokens (workflow_start env permissions r w)
                     anonymous_group)
             \/ In t (view_perms_of cfg (resource_type_of env r)).
Proof.
  intros Hready Happ Hauto.
  destruct (get_workflow_permissions_run env cfg u instance permissions w r
              Hready) as (w' & Hrun).
  destruct Hready as (_ & _ & _ & _ & _ & Hg).
  exists w'. split; [exact Hrun|].
  intro t. rewrite workflow_spec_after_loops. cbv zeta.
  rewrite Happ, Hauto.
  assert (H2 := after_loops_entries cfg (resource_type_of env r)
                  (workflow_groups env r w) _ Hg).
  destruct (is_published r).
  - rewrite groups_step_same by (apply groups_step_entries; exact H2).
    rewrite groups_step_same by exact H2.
    rewrite after_loops_skipped by (left; reflexivity).
    tauto.
  - rewrite groups_step_same by exact H2.
    rewrite after_loops_skipped by (left; reflexivity).
    reflexivity.
Qed.

Lemma workflow_approved_anonymous_witness :
  exists w',
    get_workflow_permissions editorial (settings_with false true)
      None (Some approved_report) editors_spec store
    = Ret (Some (backend_get_workflow_permissions editorial approved_report
                   (workflow_spec editorial (settings_with false true)
                      editors_spec approved_report store))) w'
    /\ forall t,
         In t (group_tokens (workflow_spec editorial
                               (settings_with false true) editors_spec
                               approved_report store) anonymous_group)
         <-> In t (group_tokens (workflow_start editorial editors_spec
                                   approved_report store) anonymous_group)
             \/ In t (view_perms_of (settings_with false true)
                        (resource_type_of editorial approved_report)).
Proof.
  apply (workflow_approved_anonymous editorial (settings_with false true)
           None (Some approved_report) editors_spec store approved_report).
  - unfold workflow_ready, both_entries.
    repeat split; try reflexivity; vm_compute; discriminate.
  - reflexivity.
  - reflexivity.
Defined.

(** *** Operations that only read *)

(** What is stored: the rows, the grants and the next key. *)
Definition store_of (w : World) : list Resource * list Grant * nat :=
  (rows w, grants w, next_pk w).

(** A computation that leaves what is stored as it is, whether it returns
    or raises. *)
Definition read_only {A} (m : M A) : Prop :=
  forall w, store_of (world_of (m w)) = store_of w.

Lemma read_only_ret {A} (a : A) : read_only (ret a).
Proof. intro w. reflexivity. Qed.

Lemma read_only_raise {A} (e : Exn) : read_only (@raise A e).
Proof. intro w. reflexivity. Qed.

Lemma read_only_gets {A} (f : World -> A) : read_only (gets f).
Proof. intro w. reflexivity. Qed.

Lemma read_only_emit (ev : Event) : read_only (emit ev).
Proof. intro w. reflexivity. Qed.

Lemma read_only_bind {A B} (m : M A) (k : A -> M B) :
  read_only m -> (forall a, read_only (k a)) -> read_only (bind m k).
Proof.
  intros Hm Hk w. unfold bind. specialize (Hm w).
  destruct (m w) as [a w'|e w']; simpl in *; auto.
  rewrite Hk. exact Hm.
Qed.

Lemma read_only_call (env : Collaborators) (c : Collab) (t : string) :
  read_only (call env c t).
Proof. intro w. unfold call. destruct (raises env c t w); reflexivity. Qed.

Lemma read_only_fold_m {A S} (xs : list A) (body : A -> S -> M S) (s : S) :
  (forall x s', read_only (body x s')) -> read_only (fold_m xs body s).
Proof.
  intro H. revert s. induction xs as [|x xs IH]; intro s; simpl.
  - apply read_only_ret.
  - apply read_only_bind; auto.
Qed.

Lemma read_only_qs_get (q : list Resource) : read_only (qs_get q).
Proof.
  destruct q as [|x [|y q]]; simpl;
    auto using read_only_ret, read_only_raise.
Qed.

Create HintDb read_only.
#[export] Hint Resolve read_only_ret read_only_raise read_only_gets
  read_only_emit read_only_call read_only_qs_get : read_only.

Ltac read_only_step :=
  match goal with
  | |- read_only (bind _ _) => apply read_only_bind; [|intro]
  | |- read_only (fold_m _ _ _) => apply read_only_fold_m; intros
  | |- read_only (if ?b then _ else _) => destruct b
  | |- read_only (match ?x with _ => _ end) => destruct x
  | |- read_only (let '(_, _) := ?x in _) => destruct x
  | |- read_only _ => solve [auto with read_only]
  end.

Ltac read_only_tac := repeat read_only_step.

Lemma read_only_resolve (u : option string) (i : option Resource) :
  read_only (resolve u i).
Proof. unfold resolve, _get_instance. read_only_tac. Qed.

#[export] Hint Resolve read_only_resolve : read_only.

Lemma read_only_union_users (k : Principal) (perms : list string)
    (s : PermSpec) : read_only (union_users k perms s).
Proof. unfold union_users. read_only_tac. Qed.

Lemma read_only_union_groups (k : Principal) (perms : list string)
    (s : PermSpec) : read_only (union_groups k perms s).
Proof. unfold union_groups. read_only_tac. Qed.

#[export] Hint Resolve read_only_union_users read_only_union_groups
  : read_only.

Lemma read_only_validate_resource (env : Collaborators) (r : Resource)
    (action_type : string) :
  read_only (_validate_resource env r action_type).
Proof. unfold _validate_resource. read_only_tac. Qed.

(** [ResourceManager.exists].  The call names the resource it is about. *)
Definition exists_ (env : Collaborators) (u : option string)
    (instance : option Resource) : M bool :=
  _resource <- resolve u instance ;;
  match _resource with
  | Some r =>
      call env BackendExists (uuid r) ;;;
      gets (backend_exists env r)
  | None => ret false
  end.

(** X9.  [get_workflow_permissions] only computes (the lookups it makes
    are queries): whatever the settings, the answers of the collaborators
    and the arguments are, and whether it returns or raises, the rows, the
    grants and the next key are those it started with. *)
Theorem get_workflow_permissions_read_only (env : Collaborators)
    (cfg : Settings) (u : option string) (instance : option Resource)
    (permissions : PermSpec) (w : World) :
  store_of (world_of (get_workflow_permissions env cfg u instance
                        permissions w))
  = store_of w.
Proof.
  revert w. change (read_only (get_workflow_permissions env cfg u instance
                                 permissions)).
  unfold get_workflow_permissions, workflow_grants. read_only_tac.
Qed.

(** X10.  [exists] answers [False], without asking the concrete manager and
    without a trace, when no instance is given and the uuid is carried by no
    row or by more than one; and in every case it leaves the store as it
    is. *)
Theorem exists_without_single_row (env : Collaborators) (u : option string)
    (w : World) :
  length (filter_uuid ResourceBase u (rows w)) <> 1 ->
  exists_ env u None w = Ret false w
  /\ forall instance,
       store_of (world_of (exists_ env u instance w)) = store_of w.
Proof.
  intro Hlen. split.
  - unfold exists_. rewrite (bind_Ret _ _ w None w); [reflexivity|].
    rewrite resolve_resolved. unfold resolved.
    destruct (filter_uuid ResourceBase u (rows w)) as [|x [|y q]];
      simpl in *; congruence.
  - intro instance. revert w Hlen. intros w _. revert w.
    change (read_only (exists_ env u instance)).
    unfold exists_. read_only_tac.
Qed.

Lemma exists_without_single_row_witness :
  exists_ (collaborators_with no_fault empty_spec true) (Some "uuid-roads")
    None (mkWorld [roads; roads] [] 4 [])
  = Ret false (mkWorld [roads; roads] [] 4 [])
  /\ forall instance,
       store_of (world_of (exists_ (collaborators_with no_fault empty_spec
                                      true)
                             (Some "uuid-roads") instance
                             (mkWorld [roads; roads] [] 4 [])))
       = store_of (mkWorld [roads; roads] [] 4 []).
Proof.
  apply (exists_without_single_row
           (collaborators_with no_fault empty_spec true) (Some "uuid-roads")
           (mkWorld [roads; roads] [] 4 [])).
  vm_compute. discriminate.
Defined.

(** *** Creating a resource and deleting it again *)

Lemma update_rows_fresh (p : nat) (f : Resource -> Resource)
    (rs : list Resource) :
  has_pk p rs = false -> update_rows (Some p) f rs = rs.
Proof.
  unfold has_pk, update_rows. induction rs as [|x rs IH]; simpl; auto.
  intro H. apply orb_false_iff in H. destruct H as [H1 H2].
  rewrite H1, IH by exact H2. reflexivity.
Qed.

Lemma filter_uuid_class_nil (cls : Model) (u : option string)
    (rs : list Resource) :
  filter_uuid ResourceBase u rs = [] -> filter_uuid cls u rs = [].
Proof.
  destruct u as [s|]; simpl; auto.
  unfold filter_uuid. induction rs as [|x rs IH]; simpl; auto.
  destruct (String.eqb (uuid x) s); simpl.
  - discriminate.
  - rewrite andb_false_r. exact IH.
Qed.

Lemma update_rows_last (p : nat) (f : Resource -> Resource)
    (rs : list Resource) (r : Resource) :
  pk r = Some p ->
  update_rows (Some p) f (rs ++ [r]) = (update_rows (Some p) f rs ++ [f r])%list.
Proof.
  intro H. unfold update_rows. rewrite map_app. simpl. rewrite H. simpl.
  rewrite Nat.eqb_refl. reflexivity.
Qed.

(** The resource [create] makes under the uuid [s] from [defaults], when the
    next key is [p]: the instance [get_or_create] builds, with the key that
    [save] gives it, marked RUNNING and then PROCESSED. *)
Definition created (cls : Model) (s : string) (defaults : Resource)
    (p : nat) : Resource :=
  mark STATE_PROCESSED
    (mark STATE_RUNNING
       (with_pk (with_pk (with_class (with_uuid defaults s) cls) None)
          (Some p))).

Lemma create_fresh (env : Collaborators) (cfg : Settings)
    (s : string) (cls : Model) (defaults : Resource) (w : World) :
  s <> "" ->
  filter_uuid cls (Some s) (rows w) = [] ->
  has_pk (next_pk w) (rows w) = false ->
  (forall w', raises env BackendCreate s w' = None) ->
  exists w1,
    create env cfg (Some s) cls defaults w
    = Ret (created cls s defaults (next_pk w)) w1
    /\ rows w1 = (rows w ++ [created cls s defaults (next_pk w)])%list
    /\ grants w1 = grants w
    /\ next_pk w1 = S (next_pk w)
    /\ state (created cls s defaults (next_pk w)) = STATE_PROCESSED
    /\ uuid (created cls s defaults (next_pk w)) = s
    /\ isinstance (created cls s defaults (next_pk w)) cls = true.
Proof.
  intros Hs Hnone Hfresh Hok.
  assert (Ht : truthy (Some s) = Some s).
  { simpl. destruct (String.eqb s "") eqn:E; auto.
    apply String.eqb_eq in E. contradiction. }
  unfold create. rewrite Ht.
  cbv beta delta [bind emit modify gets]. cbn [rows add_log].
  rewrite Hnone. cbn [qs_exists].
  unfold get_or_create. cbv beta delta [bind gets]. cbn [rows add_log].
  rewrite Hnone.
  cbv beta iota delta [save try_except atomic bind set_missing_info ret call
    set_processing_state resourcebase_post_save emit modify].
  cbn [rows add_log with_rows grants next_pk log uuid pk with_pk].
  rewrite Hok.
  eexists. split; [reflexivity|].
  cbn [rows add_log with_rows grants next_pk log uuid pk with_pk mark
       with_state].
  repeat split.
  - rewrite (update_rows_last (next_pk w)) by reflexivity.
    rewrite (update_rows_last (next_pk w)) by reflexivity.
    rewrite (update_rows_fresh _ (mark STATE_RUNNING)) by exact Hfresh.
    rewrite update_rows_fresh by exact Hfresh.
    reflexivity.
  - destruct cls; simpl; auto using String.eqb_refl.
Qed.

(** X11.  Under a uuid that no row of the requested class carries, and with
    a concrete manager whose create does not fail, [create] inserts one row
    and returns it: the row has the uuid, the requested class, the next key
    and the state PROCESSED; the rows that were there are untouched and come
    before it, and the grants are unchanged. *)
Theorem create_new_resource (env : Collaborators) (cfg : Settings)
    (s : string) (cls : Model) (defaults : Resource) (w : World) :
  s <> "" ->
  filter_uuid cls (Some s) (rows w) = [] ->
  has_pk (next_pk w) (rows w) = false ->
  (forall w', raises env BackendCreate s w' = None) ->
  exists w1,
    create env cfg (Some s) cls defaults w
    = Ret (created cls s defaults (next_pk w)) w1
    /\ rows w1 = (rows w ++ [created cls s defaults (next_pk w)])%list
    /\ grants w1 = grants w
    /\ next_pk w1 = S (next_pk w)
    /\ state (created cls s defaults (next_pk w)) = STATE_PROCESSED
    /\ uuid (created cls s defaults (next_pk w)) = s
    /\ isinstance (created cls s defaults (next_pk w)) cls = true.
Proof. exact (create_fresh env cfg s cls defaults w). Qed.

Lemma create_new_resource_witness :
  exists w1,
    create (collaborators_with no_fault empty_spec true)
      (settings_with false false) (Some "uuid-new") Dataset report store
    = Ret (created Dataset "uuid-new" report 4) w1
    /\ rows w1 = [roads; relief; report; created Dataset "uuid-new" report 4]
    /\ grants w1 = []
    /\ next_pk w1 = 5
    /\ state (created Dataset "uuid-new" report 4) = STATE_PROCESSED
    /\ uuid (created Dataset "uuid-new" report 4) = "uuid-new"
    /\ isinstance (created Dataset "uuid-new" report 4) Dataset = true.
Proof.
  apply (create_new_resource (collaborators_with no_fault empty_spec true)
           (settings_with false false) "uuid-new" Dataset report store).
  - discriminate.
  - reflexivity.
  - reflexivity.
  - intro w'. reflexivity.
Defined.

(** *** Rows that [delete] does not touch *)

Lemma pk_mark (s : ProcessingState) (r : Resource) : pk (mark s r) = pk r.
Proof. destruct s; reflexivity. Qed.

Lemma uuid_mark (s : ProcessingState) (r : Resource) :
  uuid (mark s r) = uuid r.
Proof. destruct s; reflexivity. Qed.

(** Invariants of the rows along the operations that work on the resource
    with key [p]: they rewrite rows with that key, keeping key and uuid, and
    drop rows with that key. *)
Section RowsInvariant.

Variable I : list Resource -> Prop.
Variable p : option nat.

Hypothesis I_update :
  forall (f : Resource -> Resource) (rs : list Resource),
    (forall x, pk (f x) = pk x) -> (forall x, uuid (f x) = uuid x) ->
    I rs -> I (update_rows p f rs).

Hypothesis I_drop :
  forall rs, I rs -> I (filter (fun x => negb (opt_nat_eqb (pk x) p)) rs).

Definition keeps_rows {A} (m : M A) : Prop :=
  forall w, I (rows w) -> I (rows (world_of (m w))).

Lemma keeps_rows_ret {A} (a : A) : keeps_rows (ret a).
Proof. intros w H. exact H. Qed.

Lemma keeps_rows_raise {A} (e : Exn) : keeps_rows (@raise A e).
Proof. intros w H. exact H. Qed.

Lemma keeps_rows_gets {A} (f : World -> A) : keeps_rows (gets f).
Proof. intros w H. exact H. Qed.

Lemma keeps_rows_emit (ev : Event) : keeps_rows (emit ev).
Proof. intros w H. exact H. Qed.

Lemma keeps_rows_call (env : Collaborators) (c : Collab) (t : string) :
  keeps_rows (call env c t).
Proof.
  intros w H. unfold call. destruct (raises env c t w); exact H.
Qed.

Lemma keeps_rows_bind {A B} (m : M A) (k : A -> M B) :
  keeps_rows m -> (forall a, keeps_rows (k a)) -> keeps_rows (bind m k).
Proof.
  intros Hm Hk w H. unfold bind. specialize (Hm w H).
  destruct (m w) as [a w'|e w']; simpl in *; auto. apply Hk. exact Hm.
Qed.

Lemma keeps_rows_bind_ret {A B} (a : A) (k : A -> M B) :
  keeps_rows (k a) -> keeps_rows (bind (ret a) k).
Proof. intros Hk w H. apply Hk. exact H. Qed.

Lemma keeps_rows_try_except {A} (m : M A) (h : Exn -> M A) :
  keeps_rows m -> (forall e, keeps_rows (h e)) ->
  keeps_rows (try_except m h).
Proof.
  intros Hm Hh w H. unfold try_except. specialize (Hm w H).
  destruct (m w) as [a w'|e w']; simpl in *; auto. apply Hh. exact Hm.
Qed.

(** A rollback puts the rows of the entry world back. *)
Lemma keeps_rows_atomic {A} (m : M A) : keeps_rows m -> keeps_rows (atomic m).
Proof.
  intros Hm w H. unfold atomic. specialize (Hm w H).
  destruct (m w) as [a w'|e w']; simpl in *; auto.
Qed.

Lemma keeps_rows_remove_grants (ct : ContentType) (q : option nat) :
  keeps_rows (remove_grants ct q).
Proof. intros w H. exact H. Qed.

Lemma keeps_rows_set_processing_state (r : Resource) (s : ProcessingState) :
  pk r = p -> keeps_rows (set_processing_state r s).
Proof.
  intros Hp w H. unfold set_processing_state, bind, modify, emit, ret.
  simpl. rewrite Hp. apply I_update; auto using pk_mark, uuid_mark.
Qed.

Lemma keeps_rows_bind_set_processing_state {B} (r : Resource)
    (s : ProcessingState) (k : Resource -> M B) :
  pk r = p -> keeps_rows (k (mark s r)) ->
  keeps_rows (bind (set_processing_state r s) k).
Proof.
  intros Hp Hk w H. unfold set_processing_state, bind, modify, emit, ret.
  apply Hk. simpl. rewrite Hp. apply I_update; auto using pk_mark, uuid_mark.
Qed.

Lemma keeps_rows_set_dirty_state (r : Resource) :
  pk r = p -> keeps_rows (set_dirty_state r).
Proof.
  intros Hp w H. unfold set_dirty_state, bind, modify, emit, ret.
  simpl. rewrite Hp. apply I_update; auto.
Qed.

Lemma keeps_rows_delete_rows_pk : keeps_rows (delete_rows_pk p).
Proof.
  intros w H. unfold delete_rows_pk, bind, modify, emit. simpl.
  apply I_drop. exact H.
Qed.

Ltac rows_step :=
  match goal with
  | |- keeps_rows (bind (ret _) _) => apply keeps_rows_bind_ret
  | |- keeps_rows (bind (set_processing_state _ _) _) =>
      apply keeps_rows_bind_set_processing_state;
      [rewrite ?pk_mark; assumption|]
  | |- keeps_rows (bind _ _) => apply keeps_rows_bind; [|intro]
  | |- keeps_rows (try_except _ _) => apply keeps_rows_try_except; [|intro]
  | |- keeps_rows (swallow _) => apply keeps_rows_try_except; [|intro]
  | |- keeps_rows (atomic _) => apply keeps_rows_atomic
  | |- keeps_rows (logger_exception _) => apply keeps_rows_emit
  | |- keeps_rows (emit _) => apply keeps_rows_emit
  | |- keeps_rows (ret _) => apply keeps_rows_ret
  | |- keeps_rows (raise _) => apply keeps_rows_raise
  | |- keeps_rows (gets _) => apply keeps_rows_gets
  | |- keeps_rows (call _ _ _) => apply keeps_rows_call
  | |- keeps_rows (remove_grants _ _) => apply keeps_rows_remove_grants
  | |- keeps_rows (set_processing_state _ _) =>
      apply keeps_rows_set_processing_state; rewrite ?pk_mark; assumption
  | |- keeps_rows (set_dirty_state _) =>
      apply keeps_rows_set_dirty_state; rewrite ?pk_mark; assumption
  | |- keeps_rows (if ?b then _ else _) => destruct b
  | |- keeps_rows (match ?x with _ => _ end) => destruct x
  end.

Lemma keeps_rows_remove_permissions (env : Collaborators)
    (u : option string) (r : Resource) :
  pk r = p -> keeps_rows (remove_permissions env u (Some r)).
Proof.
  intro Hp. unfold remove_permissions. cbn [resolve].
  repeat rows_step.
Qed.

Lemma keeps_rows_delete_guarded (env : Collaborators) (cfg : Settings)
    (s : string) (r : Resource) :
  pk r = p ->
  keeps_rows (try_except (delete_body env cfg s r)
                (fun e => logger_exception e ;;; ret 0)).
Proof.
  intro Hp. unfold delete_body.
  apply keeps_rows_try_except; [|intro; repeat rows_step].
  apply keeps_rows_bind_set_processing_state; [exact Hp|].
  assert (Hr : keeps_rows
                 (remove_permissions env
                    (Some (uuid (mark STATE_RUNNING r)))
                    (Some (mark STATE_RUNNING r))))
    by (apply keeps_rows_remove_permissions; rewrite pk_mark; exact Hp).
  change (pk (mark STATE_RUNNING r)) with (pk r). rewrite Hp.
  repeat first
    [ exact Hr
    | apply keeps_rows_delete_rows_pk
    | match goal with
      | |- keeps_rows (bind (remove_permissions _ _ _) _) =>
          apply keeps_rows_bind; [exact Hr|intro]
      end
    | rows_step ].
Qed.

End RowsInvariant.

(** Whenever [delete] resolves its target, an invariant of the rows that the
    work on the target's key and the removal by uuid keep holds afterwards,
    whatever the collaborators did. *)
Lemma delete_keeps_rows (I : list Resource -> Prop) (env : Collaborators)
    (cfg : Settings) (u : option string) (i : option Resource) (w : World)
    (r : Resource) :
  resolved u i w = Some r ->
  (forall (f : Resource -> Resource) rs,
     (forall x, pk (f x) = pk x) -> (forall x, uuid (f x) = uuid x) ->
     I rs -> I (update_rows (pk r) f rs)) ->
  (forall rs,
     I rs -> I (filter (fun x => negb (opt_nat_eqb (pk x) (pk r))) rs)) ->
  (forall rs,
     I rs ->
     I (filter (fun x => negb (String.eqb (uuid x) (effective_uuid u r))) rs)) ->
  I (rows w) ->
  I (rows (world_of (delete env cfg u i w))).
Proof.
  intros Hr Hup Hdrop Huuid HI.
  destruct (delete_outcome env cfg u i w r Hr) as (n & w2 & Hbody & Hd).
  rewrite Hd.
  pose proof (keeps_rows_delete_guarded I (pk r) Hup Hdrop env cfg
                (effective_uuid u r) r eq_refl
                (add_log (EvOp (OpDelete u)) w) HI) as H2.
  rewrite Hbody in H2. simpl in H2.
  destruct (qs_exists _); simpl; auto.
Qed.

(** The rows of the other resources: another key and another uuid. *)
Definition others (p : option nat) (s : string) (rs : list Resource)
    : list Resource :=
  filter (fun x => negb (opt_nat_eqb (pk x) p)
                   && negb (String.eqb (uuid x) s)) rs.

Lemma others_update_rows (p : option nat) (s : string)
    (f : Resource -> Resource) (rs : list Resource) :
  (forall x, pk (f x) = pk x) ->
  others p s (update_rows p f rs) = others p s rs.
Proof.
  intro Hf. unfold others, update_rows.
  induction rs as [|x rs IH]; simpl; auto.
  destruct (opt_nat_eqb (pk x) p) eqn:E; simpl.
  - rewrite Hf, E. simpl. exact IH.
  - rewrite E. simpl. rewrite IH. reflexivity.
Qed.

Lemma others_filter (p : option nat) (s : string) (P : Resource -> bool)
    (rs : list Resource) :
  (forall x, P x = false ->
             opt_nat_eqb (pk x) p = true \/ String.eqb (uuid x) s = true) ->
  others p s (filter P rs) = others p s rs.
Proof.
  intro HP. unfold others. induction rs as [|x rs IH]; simpl; auto.
  destruct (P x) eqn:E; simpl.
  - rewrite IH. reflexivity.
  - destruct (HP x E) as [H|H]; rewrite H; simpl;
      rewrite ?andb_false_r; exact IH.
Qed.

Lemma delete_frame (env : Collaborators) (cfg : Settings)
    (u : option string) (i : option Resource) (w : World) (r : Resource) :
  resolved u i w = Some r ->
  exists n w',
    delete env cfg u i w = Ret n w'
    /\ others (pk r) (effective_uuid u r) (rows w')
       = others (pk r) (effective_uuid u r) (rows w).
Proof.
  intro Hr.
  destruct (delete_removes env cfg u i w r Hr) as (n & w' & Hd & _).
  exists n, w'. split; [exact Hd|].
  pose proof (delete_keeps_rows
                (fun rs => others (pk r) (effective_uuid u r) rs
                           = others (pk r) (effective_uuid u r) (rows w))
                env cfg u i w r Hr) as H.
  rewrite Hd in H. simpl in H. apply H; auto.
  - intros f rs Hpk _ HI. rewrite others_update_rows; auto.
  - intros rs HI. rewrite others_filter; auto.
    intros x Hx. left. apply negb_false_iff. exact Hx.
  - intros rs HI. rewrite others_filter; auto.
    intros x Hx. right. apply negb_false_iff. exact Hx.
Qed.

(** X12.  [delete] touches no other resource: whenever it resolves its
    target, and whatever the concrete manager and the cascade steps do, the
    rows that carry neither the key of the target nor the uuid it works on
    are afterwards the same rows, unchanged and in the same order. *)
Theorem delete_touches_no_other_resource (env : Collaborators)
    (cfg : Settings) (u : option string) (i : option Resource) (w : World)
    (r : Resource) :
  resolved u i w = Some r ->
  exists n w',
    delete env cfg u i w = Ret n w'
    /\ others (pk r) (effective_uuid u r) (rows w')
       = others (pk r) (effective_uuid u r) (rows w).
Proof. exact (delete_frame env cfg u i w r). Qed.

Lemma delete_touches_no_other_resource_witness :
  exists n w',
    delete (collaborators_with all_fault empty_spec true)
      (settings_with false false) (Some "uuid-roads") None store = Ret n w'
    /\ others (pk roads) (effective_uuid (Some "uuid-roads") roads) (rows w')
       = others (pk roads) (effective_uuid (Some "uuid-roads") roads)
           (rows store).
Proof.
  apply (delete_touches_no_other_resource
           (collaborators_with all_fault empty_spec true)
           (settings_with false false) (Some "uuid-roads") None store roads).
  reflexivity.
Defined.

(** Rows with the key [p] carry the uuid [s]. *)
Definition tied (p : nat) (s : string) (rs : list Resource) : Prop :=
  forall x, In x rs -> pk x = Some p -> uuid x = s.

Lemma tied_update_rows (p : nat) (s : string) (q : option nat)
    (f : Resource -> Resource) (rs : list Resource) :
  (forall x, pk (f x) = pk x) -> (forall x, uuid (f x) = uuid x) ->
  tied p s rs -> tied p s (update_rows q f rs).
Proof.
  intros Hpk Hu Ht x Hin Hp. unfold update_rows in Hin.
  apply in_map_iff in Hin. destruct Hin as (y & Hy & Hin).
  destruct (opt_nat_eqb (pk y) q); subst x.
  - rewrite Hu. apply Ht; auto. rewrite <- Hpk. exact Hp.
  - apply Ht; auto.
Qed.

Lemma tied_filter (p : nat) (s : string) (P : Resource -> bool)
    (rs : list Resource) :
  tied p s rs -> tied p s (filter P rs).
Proof.
  intros Ht x Hin. apply filter_In in Hin. apply Ht. tauto.
Qed.

Lemma others_all (p : nat) (s : string) (rs : list Resource) :
  (forall x, In x rs -> uuid x <> s) -> tied p s rs ->
  others (Some p) s rs = rs.
Proof.
  intros Hu Ht. unfold others.
  induction rs as [|x rs IH]; simpl; auto.
  assert (Hx : uuid x <> s) by (apply Hu; left; reflexivity).
  assert (E1 : String.eqb (uuid x) s = false)
    by (apply String.eqb_neq; exact Hx).
  assert (E2 : opt_nat_eqb (pk x) (Some p) = false).
  { destruct (opt_nat_eqb (pk x) (Some p)) eqn:E; auto.
    exfalso. apply Hx. apply Ht; [left; reflexivity|].
    destruct (pk x) as [q|]; simpl in E; [|discriminate].
    apply Nat.eqb_eq in E. congruence. }
  rewrite E1, E2. simpl. f_equal. apply IH.
  - intros y Hy. apply Hu. right. exact Hy.
  - intros y Hy. apply Ht. right. exact Hy.
Qed.

Lemma has_pk_false_In (p : nat) (rs : list Resource) (x : Resource) :
  has_pk p rs = false -> In x rs -> pk x <> Some p.
Proof.
  unfold has_pk. intros H Hin Hp.
  assert (Hex : existsb (fun y => opt_nat_eqb (pk y) (Some p)) rs = true).
  { apply existsb_exists. exists x. split; auto. rewrite Hp. simpl.
    apply Nat.eqb_refl. }
  congruence.
Qed.

(** X13.  Creating a resource under a uuid that no row carries and then
    deleting it by that uuid gives back the rows there were before: the
    concrete manager's create does not fail, its delete and the cascade
    steps may. *)
Theorem create_then_delete_restores_rows (env : Collaborators)
    (cfg : Settings) (s : string) (cls : Model) (defaults : Resource)
    (w : World) :
  s <> "" ->
  filter_uuid ResourceBase (Some s) (rows w) = [] ->
  has_pk (next_pk w) (rows w) = false ->
  (forall w', raises env BackendCreate s w' = None) ->
  exists r w1 n w2,
    create env cfg (Some s) cls defaults w = Ret r w1
    /\ delete env cfg (Some s) None w1 = Ret n w2
    /\ rows w2 = rows w.
Proof.
  intros Hs Hnone Hfresh Hok.
  destruct (create_fresh env cfg s cls defaults w Hs
              (filter_uuid_class_nil cls _ _ Hnone) Hfresh Hok)
    as (w1 & Hc & Hrows & _ & _ & _ & Hu & _).
  set (r := created cls s defaults (next_pk w)) in *.
  assert (Hpk : pk r = Some (next_pk w)) by reflexivity.
  assert (Hno : forall x, In x (rows w) -> uuid x <> s)
    by (apply filter_uuid_nil_not_in; exact Hnone).
  assert (Hres : resolved (Some s) None w1 = Some r).
  { unfold resolved, filter_uuid. rewrite Hrows, filter_app.
    unfold filter_uuid in Hnone. rewrite Hnone. simpl.
    rewrite String.eqb_refl. reflexivity. }
  assert (Heff : effective_uuid (Some s) r = s).
  { unfold effective_uuid. simpl. destruct (String.eqb s ""); auto. }
  destruct (delete_frame env cfg (Some s) None w1 r Hres)
    as (n & w2 & Hd & Hframe).
  exists r, w1, n, w2. split; [exact Hc|]. split; [exact Hd|].
  rewrite Heff, Hpk in Hframe.
  assert (Ht1 : tied (next_pk w) s (rows w1)).
  { intros x Hin Hp. rewrite Hrows in Hin. apply in_app_iff in Hin.
    destruct Hin as [Hin|[<-|[]]]; auto.
    exfalso. exact (has_pk_false_In _ _ _ Hfresh Hin Hp). }
  assert (Ht2 : tied (next_pk w) s (rows w2)).
  { pose proof (delete_keeps_rows (tied (next_pk w) s) env cfg (Some s) None
                  w1 r Hres) as H.
    rewrite Hd in H. simpl in H.
    apply H; auto using tied_update_rows, tied_filter. }
  assert (Hgone : forall x, In x (rows w2) -> uuid x <> s).
  { destruct (delete_removes env cfg (Some s) None w1 r Hres)
      as (n' & w2' & Hd' & Hnil).
    rewrite Hd in Hd'. inversion Hd'; subst n' w2'.
    rewrite Heff in Hnil. apply filter_uuid_nil_not_in. exact Hnil. }
  rewrite <- (others_all (next_pk w) s (rows w2) Hgone Ht2).
  rewrite Hframe, Hrows. unfold others. rewrite filter_app.
  fold (others (Some (next_pk w)) s (rows w)).
  rewrite others_all.
  - cbn [filter]. rewrite Hpk. cbn [opt_nat_eqb].
    rewrite Nat.eqb_refl. simpl. apply app_nil_r.
  - exact Hno.
  - intros x Hin Hp. exfalso. exact (has_pk_false_In _ _ _ Hfresh Hin Hp).
Qed.

Lemma create_then_delete_restores_rows_witness :
  exists r w1 n w2,
    create (collaborators_with cascade_fault empty_spec true)
      (settings_with false false) (Some "uuid-new") Dataset report store
    = Ret r w1
    /\ delete (collaborators_with cascade_fault empty_spec true)
         (settings_with false false) (Some "uuid-new") None w1 = Ret n w2
    /\ rows w2 = rows store.
Proof.
  apply (create_then_delete_restores_rows
           (collaborators_with cascade_fault empty_spec true)
           (settings_with false false) "uuid-new" Dataset report store).
  - discriminate.
  - reflexivity.
  - reflexivity.
  - intro w'. reflexivity.
Defined.

(** *** What [set_thumbnail] and [append] do *)

Lemma read_only_Ret {A} (m : M A) (w : World) (a : A) (w' : World) :
  read_only m -> m w = Ret a w' -> rows w' = rows w /\ grants w' = grants w.
Proof.
  intros Hm H. specialize (Hm w). rewrite H in Hm. simpl in Hm.
  unfold store_of in Hm. inversion Hm. auto.
Qed.

(** X14.  [set_thumbnail] never raises and never touches the grants.  When
    it answers [True] the rows of the resource are PROCESSED; when it
    answers [False] for a resolved resource they are RUNNING, as the call
    left them before it entered its [try]. *)
Theorem set_thumbnail_outcome (env : Collaborators) (u : option string)
    (instance : option Resource) (overwrite check_bbox : bool) (w : World)
    (r : Resource) (p : nat) :
  resolved u instance w = Some r -> pk r = Some p ->
  exists b w',
    set_thumbnail env u instance overwrite check_bbox w = Ret b w'
    /\ (forall x, In x (rows w') -> pk x = Some p ->
                  state x = if b then STATE_PROCESSED else STATE_RUNNING)
    /\ grants w' = grants w.
Proof.
  intros Hr Hp. unfold set_thumbnail.
  rewrite (bind_Ret _ _ w tt (add_log (EvOp (OpSetThumbnail u)) w))
    by reflexivity.
  rewrite (bind_Ret _ _ _ (Some r) (add_log (EvOp (OpSetThumbnail u)) w))
    by (rewrite resolve_resolved; f_equal; rewrite <- Hr; reflexivity).
  destruct (set_processing_state_returns r STATE_RUNNING
              (add_log (EvOp (OpSetThumbnail u)) w)) as (w1 & H1 & _ & Hg1).
  assert (Hrows : rows w1 = update_rows (Some p) (mark STATE_RUNNING) (rows w)).
  { unfold set_processing_state, bind, modify, emit, ret in H1.
    inversion H1; subst. simpl. rewrite Hp. reflexivity. }
  rewrite (bind_Ret _ _ _ _ _ H1).
  set (r1 := mark STATE_RUNNING r).
  assert (Hp1 : pk r1 = Some p) by exact Hp.
  unfold try_except.
  match goal with
  | |- context [bind (atomic ?m) ?k w1] =>
      assert (Hro : read_only m);
      [|destruct (atomic m w1) as [[] w2|e w2] eqn:Hblk]
  end.
  - read_only_tac.
  - (* the block returned *)
    rewrite (bind_Ret _ _ _ _ _ Hblk).
    assert (H2 : rows w2 = rows w1 /\ grants w2 = grants w1).
    { unfold atomic in Hblk.
      match type of Hblk with
      | match ?m w1 with _ => _ end = _ =>
          destruct (m w1) as [[] w3|e3 w3] eqn:Hm; [|discriminate];
          inversion Hblk; subst w3;
          exact (read_only_Ret _ _ _ _ Hro Hm)
      end. }
    destruct H2 as [Hr2 Hg2].
    unfold set_processing_state, bind, modify, emit, ret.
    exists true. eexists. split; [reflexivity|].
    cbn [rows grants add_log with_rows]. rewrite Hp1. split.
    + intros x Hx Hpx. eapply mark_rows_state; eauto.
    + rewrite Hg2, Hg1. reflexivity.
  - (* the block raised *)
    rewrite (bind_Exc _ _ _ _ _ Hblk).
    destruct (atomic_Exc _ _ _ _ Hblk) as [Hr2 Hg2].
    unfold logger_exception, bind, emit, modify, ret.
    exists false. eexists. split; [reflexivity|].
    cbn [rows grants add_log]. split.
    + intros x Hx Hpx. rewrite Hr2, Hrows in Hx.
      eapply mark_rows_state; eauto.
    + rewrite Hg2, Hg1. reflexivity.
Qed.

Lemma set_thumbnail_outcome_witness :
  exists b w',
    set_thumbnail (collaborators_with (fault_at CreateDocumentThumbnail)
                     empty_spec true)
      (Some "uuid-report") None true true store = Ret b w'
    /\ (forall x, In x (rows w') -> pk x = Some 3 ->
                  state x = if b then STATE_PROCESSED else STATE_RUNNING)
    /\ grants w' = grants store.
Proof.
  apply (set_thumbnail_outcome
           (collaborators_with (fault_at CreateDocumentThumbnail) empty_spec
              true) (Some "uuid-report") None true true store report 3).
  - reflexivity.
  - reflexivity.
Defined.

(** X15.  On a vector dataset that the concrete manager knows, [append]
    hands the data to the concrete manager and then is one [update] of the
    instance with the ['user'] entry taken out of the values; when the
    concrete manager's append raises, [append] raises the same exception
    and no [update] runs. *)
Theorem append_backend_then_update (env : Collaborators)
    (instance : Resource) (vals : Vals) (w : World) :
  isinstance instance Dataset = true ->
  vector instance = true ->
  (forall w1, raises env BackendExists (uuid instance) w1 = None) ->
  (forall w1, backend_exists env instance w1 = true) ->
  let w2 := add_log (EvCall BackendExists (uuid instance))
              (add_log (EvOp (OpAppend (uuid instance))) w) in
  let w3 := add_log (EvCall BackendAppend (uuid instance)) w2 in
  append env instance vals w
  = match raises env BackendAppend (uuid instance) w2 with
    | Some e => Exc e w3
    | None =>
        update env (Some (uuid instance)) (Some instance) None false
          (dict_pop String.eqb "user" vals) true w3
    end.
Proof.
  intros Hd Hv Hr He w2 w3.
  unfold append, _validate_resource. rewrite Hd, Hv.
  cbn [negb andb].
  rewrite (bind_Ret _ _ w tt (add_log (EvOp (OpAppend (uuid instance))) w))
    by reflexivity.
  rewrite (bind_Ret _ _ _ true w2).
  - unfold bind at 1. unfold call. fold w3.
    destruct (raises env BackendAppend (uuid instance) w2); reflexivity.
  - replace (String.eqb "append" "replace") with false by reflexivity.
    rewrite andb_false_r.
    rewrite (bind_Ret _ _ _ tt w2) by (apply call_ok, Hr).
    unfold bind, gets, ret. rewrite He. reflexivity.
Qed.

Lemma append_backend_then_update_witness :
  append (collaborators_with (fault_at BackendAppend) empty_spec true) roads
    [("user", "alice")] store
  = Exc (CollaboratorError "backend unavailable")
      (add_log (EvCall BackendAppend "uuid-roads")
         (add_log (EvCall BackendExists "uuid-roads")
            (add_log (EvOp (OpAppend "uuid-roads")) store))).
Proof.
  apply (append_backend_then_update
           (collaborators_with (fault_at BackendAppend) empty_spec true)
           roads [("user", "alice")] store).
  - reflexivity.
  - reflexivity.
  - intro w1. reflexivity.
  - intro w1. reflexivity.
Defined.

(** *** The download gate on the grants that [set_permissions] assigns *)

(** Invariants of the grants along a computation. *)
Section GrantsInvariant.

Variable J : list Grant -> Prop.

Definition keeps_grants {A} (m : M A) : Prop :=
  forall w, J (grants w) -> J (grants (world_of (m w))).

Lemma keeps_grants_ret {A} (a : A) : keeps_grants (ret a).
Proof. intros w H. exact H. Qed.

Lemma keeps_grants_raise {A} (e : Exn) : keeps_grants (@raise A e).
Proof. intros w H. exact H. Qed.

Lemma keeps_grants_gets {A} (f : World -> A) : keeps_grants (gets f).
Proof. intros w H. exact H. Qed.

Lemma keeps_grants_emit (ev : Event) : keeps_grants (emit ev).
Proof. intros w H. exact H. Qed.

Lemma keeps_grants_call (env : Collaborators) (c : Collab) (t : string) :
  keeps_grants (call env c t).
Proof.
  intros w H. unfold call. destruct (raises env c t w); exact H.
Qed.

Lemma keeps_grants_bind {A B} (m : M A) (k : A -> M B) :
  keeps_grants m -> (forall a, keeps_grants (k a)) -> keeps_grants (bind m k).
Proof.
  intros Hm Hk w H. unfold bind. specialize (Hm w H).
  destruct (m w) as [a w'|e w']; simpl in *; auto. apply Hk. exact Hm.
Qed.

Lemma keeps_grants_bind_ret {A B} (a : A) (k : A -> M B) :
  keeps_grants (k a) -> keeps_grants (bind (ret a) k).
Proof. intros Hk w H. apply Hk. exact H. Qed.

Lemma keeps_grants_bind_assoc {A B C} (m : M A) (k : A -> M B)
    (h : B -> M C) :
  keeps_grants (bind m (fun x => bind (k x) h)) ->
  keeps_grants (bind (bind m k) h).
Proof.
  intros H w Hw. specialize (H w Hw). unfold bind in *.
  destruct (m w) as [a w'|e w']; exact H.
Qed.

Lemma keeps_grants_try_except {A} (m : M A) (h : Exn -> M A) :
  keeps_grants m -> (forall e, keeps_grants (h e)) ->
  keeps_grants (try_except m h).
Proof.
  intros Hm Hh w H. unfold try_except. specialize (Hm w H).
  destruct (m w) as [a w'|e w']; simpl in *; auto. apply Hh. exact Hm.
Qed.

(** A rollback puts the grants of the entry world back. *)
Lemma keeps_grants_atomic {A} (m : M A) :
  keeps_grants m -> keeps_grants (atomic m).
Proof.
  intros Hm w H. unfold atomic. specialize (Hm w H).
  destruct (m w) as [a w'|e w']; simpl in *; auto.
Qed.

Lemma keeps_grants_for_each {A} (xs : list A) (body : A -> M unit) :
  (forall x, keeps_grants (body x)) -> keeps_grants (for_each xs body).
Proof.
  intro H. induction xs as [|x xs IH]; simpl.
  - apply keeps_grants_ret.
  - apply keeps_grants_bind; auto.
Qed.

Lemma keeps_grants_modify_rows (f : World -> World) :
  (forall w, grants (f w) = grants w) -> keeps_grants (modify f).
Proof. intros Hf w H. simpl. rewrite Hf. exact H. Qed.

Lemma keeps_grants_set_processing_state (r : Resource)
    (s : ProcessingState) : keeps_grants (set_processing_state r s).
Proof. intros w H. exact H. Qed.

Lemma keeps_grants_bind_set_processing_state {B} (r : Resource)
    (s : ProcessingState) (k : Resource -> M B) :
  keeps_grants (k (mark s r)) ->
  keeps_grants (bind (set_processing_state r s) k).
Proof. intros Hk w H. apply Hk. exact H. Qed.

Lemma keeps_grants_set_dirty_state (r : Resource) :
  keeps_grants (set_dirty_state r).
Proof. intros w H. exact H. Qed.

Lemma keeps_grants_remove_grants (ct : ContentType) (q : option nat) :
  (forall gs,
     J gs ->
     J (filter (fun g => negb (ct_eqb (g_ct g) ct
                               && opt_nat_eqb (g_object_pk g) q)) gs)) ->
  keeps_grants (remove_grants ct q).
Proof.
  intros HJ w H. unfold remove_grants, bind, modify, emit. simpl.
  apply HJ. exact H.
Qed.

Lemma keeps_grants_assign_perm (perm : string) (group : bool)
    (name : string) (ct : ContentType) (r : Resource) :
  (forall gs, J gs -> J (mkGrant perm group name ct (pk r) :: gs)) ->
  keeps_grants (assign_perm perm group name ct r).
Proof.
  intros Hadd w H. unfold assign_perm, bind, modify, emit. simpl.
  destruct (existsb _ (grants w)); simpl; auto.
Qed.

End GrantsInvariant.

Ltac grants_step :=
  match goal with
  | |- keeps_grants _ (bind (ret _) _) => apply keeps_grants_bind_ret
  | |- keeps_grants _ (bind (set_processing_state _ _) _) =>
      apply keeps_grants_bind_set_processing_state
  | |- keeps_grants _ (bind (bind _ _) _) => apply keeps_grants_bind_assoc
  | |- keeps_grants _ (bind _ _) => apply keeps_grants_bind; [|intro]
  | |- keeps_grants _ (try_except _ _) =>
      apply keeps_grants_try_except; [|intro]
  | |- keeps_grants _ (atomic _) => apply keeps_grants_atomic
  | |- keeps_grants _ (for_each _ _) => apply keeps_grants_for_each; intro
  | |- keeps_grants _ (logger_exception _) => apply keeps_grants_emit
  | |- keeps_grants _ (emit _) => apply keeps_grants_emit
  | |- keeps_grants _ (ret _) => apply keeps_grants_ret
  | |- keeps_grants _ (raise _) => apply keeps_grants_raise
  | |- keeps_grants _ (gets _) => apply keeps_grants_gets
  | |- keeps_grants _ (call _ _ _) => apply keeps_grants_call
  | |- keeps_grants _ (modify _) =>
      apply keeps_grants_modify_rows; intro; reflexivity
  | |- keeps_grants _ (set_processing_state _ _) =>
      apply keeps_grants_set_processing_state
  | |- keeps_grants _ (set_dirty_state _) =>
      apply keeps_grants_set_dirty_state
  | |- keeps_grants _ (if ?b then _ else _) => destruct b
  | |- keeps_grants _ (match ?x with _ => _ end) => destruct x
  | |- keeps_grants _ (let '(_, _) := ?x in _) => destruct x
  end.

Lemma keeps_grants_resolve (J : list Grant -> Prop) (u : option string)
    (i : option Resource) : keeps_grants J (resolve u i).
Proof.
  unfold resolve, _get_instance, qs_get. repeat grants_step.
Qed.

(** [remove_permissions] on an instance keeps an invariant that the removal
    of the grants on its key keeps. *)
Lemma keeps_grants_remove_permissions (J : list Grant -> Prop)
    (env : Collaborators) (u : option string) (r : Resource) :
  (forall ct gs,
     J gs ->
     J (filter (fun g => negb (ct_eqb (g_ct g) ct
                               && opt_nat_eqb (g_object_pk g) (pk r))) gs)) ->
  keeps_grants J (remove_permissions env u (Some r)).
Proof.
  intro HJ. unfold remove_permissions. cbn [resolve].
  apply keeps_grants_bind; [apply keeps_grants_emit|intro].
  apply keeps_grants_bind_ret.
  apply keeps_grants_bind_set_processing_state.
  repeat first
    [ apply keeps_grants_remove_grants; apply HJ
    | grants_step ].
Qed.

Lemma set_permissions_resolved (env : Collaborators) (cfg : Settings)
    (u : option string) (instance : option Resource)
    (owner_ : option string) (permissions : PermSpec) (created : bool)
    (w : World) (r : Resource) :
  resolved u instance w = Some r ->
  set_permissions env cfg u instance owner_ permissions created w
  = set_permissions env cfg u (Some r) owner_ permissions created w.
Proof.
  intro Hr. unfold set_permissions.
  rewrite (bind_Ret _ _ w tt
             (add_log (EvOp (OpSetPermissions u permissions)) w))
    by reflexivity.
  rewrite (bind_Ret _ _ w tt
             (add_log (EvOp (OpSetPermissions u permissions)) w))
    by reflexivity.
  rewrite (bind_Ret _ _ _ (Some r)
             (add_log (EvOp (OpSetPermissions u permissions)) w))
    by (rewrite resolve_resolved; f_equal; rewrite <- Hr; reflexivity).
  reflexivity.
Qed.















(** The spec that gives carol a view token and a download token. *)
Definition carol_spec : PermSpec :=
  mkPermSpec
    (Some [(PName "carol", ["view_resourcebase"; "download_resourcebase"])])
    None.


(** A map is not downloadable: of the two tokens the spec gives to carol,
    only the view token is granted. *)
Example set_permissions_map_download :
  grants (world_of
            (set_permissions (collaborators_with no_fault empty_spec true)
               (settings_with false false) None (Some atlas) None
               carol_spec false store))
  = [mkGrant "view_resourcebase" false "carol" CtResourceBase (Some 5)].
Proof. vm_compute. reflexivity. Qed.

(** The data-edit token is one of the dataset tokens, which a dataset is
    given on its dataset object before [assignable_perm_condition] is
    asked: carol gets it on a dataset that is not a vector dataset. *)
Example set_permissions_data_edit_on_raster :
  vector relief = false
  /\ grants (world_of
               (set_permissions (collaborators_with no_fault empty_spec true)
                  (settings_with false false) None (Some relief) None
                  (mkPermSpec (Some [(PName "carol", ["change_dataset_data"])])
                     None)
                  false store))
     = [mkGrant "change_dataset_data" false "carol" CtDataset (Some 2)].
Proof. split; vm_compute; reflexivity. Qed.

(** *** [delete] without a target *)

(** X17.  Called with neither an instance nor a uuid that is true in
    Python's sense ([None] or the empty string), and nothing resolved,
    [delete] does not answer 0: evaluating [uuid or _resource.uuid] raises
    [AttributeError], and the store is left as it was. *)
Theorem delete_without_target (env : Collaborators) (cfg : Settings)
    (u : option string) (w : World) :
  truthy u = None ->
  resolved u None w = None ->
  exists w',
    delete env cfg u None w
    = Exc (AttributeError "'NoneType' object has no attribute 'uuid'") w'
    /\ rows w' = rows w /\ grants w' = grants w.
Proof.
  intros Ht Hr. unfold delete, atomic.
  rewrite (bind_Ret _ _ w tt (add_log (EvOp (OpDelete u)) w)) by reflexivity.
  rewrite (bind_Ret _ _ _ None (add_log (EvOp (OpDelete u)) w))
    by (rewrite resolve_resolved; f_equal; exact Hr).
  rewrite Ht. unfold bind, raise.
  eexists. split; [reflexivity|]. split; reflexivity.
Qed.

Lemma delete_without_target_witness :
  exists w',
    delete (collaborators_with no_fault empty_spec true)
      (settings_with false false) None None store
    = Exc (AttributeError "'NoneType' object has no attribute 'uuid'") w'
    /\ rows w' = rows store /\ grants w' = grants store.
Proof.
  apply (delete_without_target (collaborators_with no_fault empty_spec true)
           (settings_with false false) None store).
  - reflexivity.
  - reflexivity.
Defined.

(** *** Grants and rows of other resources *)

(** [set_permissions] on an instance keeps an invariant of the grants that
    removing and adding grants on the key of the instance keep. *)
Lemma set_permissions_keeps_grants (J : list Grant -> Prop)
    (env : Collaborators) (cfg : Settings) (u : option string)
    (r : Resource) (owner_ : option string) (permissions : PermSpec)
    (created : bool) :
  (forall ct gs,
     J gs ->
     J (filter (fun g => negb (ct_eqb (g_ct g) ct
                               && opt_nat_eqb (g_object_pk g) (pk r))) gs)) ->
  (forall perm group name ct gs,
     J gs -> J (mkGrant perm group name ct (pk r) :: gs)) ->
  keeps_grants J (set_permissions env cfg u (Some r) owner_ permissions
                    created).
Proof.
  intros Hrm Hadd. unfold set_permissions. cbn [resolve].
  apply keeps_grants_bind; [apply keeps_grants_emit|intro].
  apply keeps_grants_bind_ret.
  apply keeps_grants_bind_set_processing_state.
  apply keeps_grants_try_except;
    [|intro; repeat grants_step].
  apply keeps_grants_bind; [|intro; repeat grants_step].
  apply keeps_grants_atomic.
  assert (Hassign : forall r' perm group name ct,
            pk r' = pk r ->
            keeps_grants J (assign_perm perm group name ct r')).
  { intros r' perm group name ct Hp.
    apply keeps_grants_assign_perm. rewrite Hp. apply Hadd. }
  assert (Hbody : forall r',
            pk r' = pk r ->
            keeps_grants J
              (remove_permissions env u (Some r') ;;;
               (if Nat.ltb 0 (spec_len permissions)
                then apply_perm_spec env cfg r' (resource_type_of env r')
                       permissions
                else apply_default_perms env cfg r'
                       (resource_type_of env r')) ;;;
               call env BackendSetPermissions (uuid r') ;;;
               ok <- gets (backend_set_permissions env r') ;;
               if ok then ret tt
               else emit (EvLogged (PyException
                 "Could not complete concrete manager operation successfully!")))).
  { intros r' Hr'.
    apply keeps_grants_bind;
      [apply keeps_grants_remove_permissions; rewrite Hr'; exact Hrm|intro].
    apply keeps_grants_bind; [|intro; repeat grants_step].
    destruct (Nat.ltb 0 (spec_len permissions)).
    - unfold apply_perm_spec, grant_one.
      repeat first [ apply Hassign; exact Hr' | grants_step ].
    - unfold apply_default_perms.
      repeat first [ apply Hassign; exact Hr' | grants_step ]. }
  destruct owner_ as [o|].
  - destruct (negb (String.eqb o (owner (mark STATE_RUNNING r)))).
    + repeat
        match goal with
          | |- keeps_grants _ (bind (bind _ _) _) =>
              apply keeps_grants_bind_assoc
          | |- keeps_grants _ (bind (modify _) _) =>
              apply keeps_grants_bind;
              [apply keeps_grants_modify_rows; intro; reflexivity|intro]
          | |- keeps_grants _ (bind (emit _) _) =>
              apply keeps_grants_bind; [apply keeps_grants_emit|intro]
          | |- keeps_grants _ (bind (ret _) _) => apply keeps_grants_bind_ret
        end.
      apply Hbody. reflexivity.
    + apply keeps_grants_bind_ret. apply Hbody. reflexivity.
  - apply keeps_grants_bind_ret. apply Hbody. reflexivity.
Qed.

(** The grants on the objects other than the one with key [p]. *)
Definition other_grants (p : nat) (gs : list Grant) : list Grant :=
  filter (fun g => negb (opt_nat_eqb (g_object_pk g) (Some p))) gs.

Lemma other_grants_removed (p : nat) (ct : ContentType) (gs : list Grant) :
  other_grants p
    (filter (fun g => negb (ct_eqb (g_ct g) ct
                            && opt_nat_eqb (g_object_pk g) (Some p))) gs)
  = other_grants p gs.
Proof.
  unfold other_grants. induction gs as [|g gs IH]; simpl; auto.
  destruct (opt_nat_eqb (g_object_pk g) (Some p)) eqn:E; simpl.
  - rewrite andb_true_r.
    destruct (ct_eqb (g_ct g) ct); simpl; rewrite ?E; simpl; exact IH.
  - rewrite andb_false_r. simpl. rewrite E. simpl. rewrite IH. reflexivity.
Qed.

(** X18.  [set_permissions] touches the grants of no other resource:
    whatever the perm spec (given or default), the collaborators and the
    outcome are, the grants on every object but the resource itself are
    afterwards the same, in the same order. *)
Theorem set_permissions_other_grants (env : Collaborators) (cfg : Settings)
    (u : option string) (instance : option Resource)
    (owner_ : option string) (permissions : PermSpec) (created : bool)
    (w : World) (r : Resource) (p : nat) :
  resolved u instance w = Some r -> pk r = Some p ->
  other_grants p
    (grants (world_of (set_permissions env cfg u instance owner_ permissions
                         created w)))
  = other_grants p (grants w).
Proof.
  intros Hr Hp.
  rewrite (set_permissions_resolved env cfg u instance owner_ permissions
             created w r Hr).
  apply (set_permissions_keeps_grants
           (fun gs => other_grants p gs = other_grants p (grants w))
           env cfg u r owner_ permissions created).
  - intros ct gs H. rewrite Hp, other_grants_removed. exact H.
  - intros perm group name ct gs H. rewrite Hp. unfold other_grants. simpl.
    rewrite Nat.eqb_refl. simpl. exact H.
  - reflexivity.
Qed.

Lemma set_permissions_other_grants_witness :
  other_grants 1
    (grants (world_of
       (set_permissions (collaborators_with no_fault empty_spec true)
          (settings_with false false) (Some "uuid-roads") None None
          empty_spec false
          (mkWorld [roads; relief; report]
             [mkGrant "view_resourcebase" true "anonymous" CtResourceBase
                (Some 2);
              mkGrant "change_resourcebase_metadata" false "carol"
                CtResourceBase (Some 1)] 4 []))))
  = other_grants 1
      [mkGrant "view_resourcebase" true "anonymous" CtResourceBase (Some 2);
       mkGrant "change_resourcebase_metadata" false "carol" CtResourceBase
         (Some 1)].
Proof.
  apply (set_permissions_other_grants
           (collaborators_with no_fault empty_spec true)
           (settings_with false false) (Some "uuid-roads") None None
           empty_spec false
           (mkWorld [roads; relief; report]
              [mkGrant "view_resourcebase" true "anonymous" CtResourceBase
                 (Some 2);
               mkGrant "change_resourcebase_metadata" false "carol"
                 CtResourceBase (Some 1)] 4 []) roads 1).
  - reflexivity.
  - reflexivity.
Defined.

(** The rows of the resources other than the one with key [p]. *)
Definition other_rows (p : nat) (rs : list Resource) : list Resource :=
  filter (fun x => negb (opt_nat_eqb (pk x) (Some p))) rs.

Lemma other_rows_update_rows (p : nat) (f : Resource -> Resource)
    (rs : list Resource) :
  (forall x, pk x = Some p -> pk (f x) = Some p) ->
  other_rows p (update_rows (Some p) f rs) = other_rows p rs.
Proof.
  intro Hf. unfold other_rows, update_rows.
  induction rs as [|x rs IH]; simpl; auto.
  destruct (opt_nat_eqb (pk x) (Some p)) eqn:E; simpl.
  - assert (Hx : pk x = Some p).
    { destruct (pk x) as [q|]; simpl in E; [|discriminate].
      apply Nat.eqb_eq in E. congruence. }
    rewrite (Hf x Hx). simpl. rewrite Nat.eqb_refl. simpl. exact IH.
  - rewrite E. simpl. rewrite IH. reflexivity.
Qed.

Lemma other_rows_app_own (p : nat) (rs : list Resource) (r : Resource) :
  pk r = Some p -> other_rows p (rs ++ [r]) = other_rows p rs.
Proof.
  intro Hp. unfold other_rows. rewrite filter_app. simpl. rewrite Hp. simpl.
  rewrite Nat.eqb_refl. simpl. apply app_nil_r.
Qed.

(** A computation that leaves the rows of the other resources as they are,
    whether it returns or raises, and whose results all satisfy [Q]. *)
Definition frames (p : nat) {A} (Q : A -> Prop) (m : M A) : Prop :=
  forall w,
    other_rows p (rows (world_of (m w))) = other_rows p (rows w)
    /\ forall a w', m w = Ret a w' -> Q a.

Lemma frames_weaken (p : nat) {A} (Q Q' : A -> Prop) (m : M A) :
  (forall a, Q a -> Q' a) -> frames p Q m -> frames p Q' m.
Proof.
  intros HQ H w. destruct (H w) as [H1 H2]. split; auto.
  intros a w' Hm. apply HQ. eapply H2. exact Hm.
Qed.

Lemma frames_read_only (p : nat) {A} (m : M A) :
  read_only m -> frames p (fun _ => True) m.
Proof.
  intros H w. split; auto. specialize (H w). unfold store_of in H.
  inversion H as [[Hr Hg Hn]]. rewrite Hr. reflexivity.
Qed.

Lemma frames_ret (p : nat) {A} (a : A) : frames p (fun x => x = a) (ret a).
Proof.
  intro w. split; auto. intros a' w' H. inversion H. reflexivity.
Qed.

Lemma frames_bind (p : nat) {A B} (Q : A -> Prop) (R : B -> Prop)
    (m : M A) (k : A -> M B) :
  frames p Q m -> (forall a, Q a -> frames p R (k a)) ->
  frames p R (bind m k).
Proof.
  intros Hm Hk w. unfold bind. destruct (Hm w) as [H1 H2].
  destruct (m w) as [a w1|e w1]; simpl in *.
  - destruct (Hk a (H2 a w1 eq_refl) w1) as [H3 H4].
    split; [congruence|exact H4].
  - split; [exact H1|discriminate].
Qed.

Lemma frames_try_except (p : nat) {A} (Q : A -> Prop) (m : M A)
    (h : Exn -> M A) :
  frames p Q m -> (forall e, frames p Q (h e)) ->
  frames p Q (try_except m h).
Proof.
  intros Hm Hh w. unfold try_except. destruct (Hm w) as [H1 H2].
  destruct (m w) as [a w1|e w1]; simpl in *.
  - split; [exact H1|]. intros a' w' H. inversion H; subst. eauto.
  - destruct (Hh e w1) as [H3 H4]. split; [congruence|exact H4].
Qed.

Lemma frames_atomic (p : nat) {A} (Q : A -> Prop) (m : M A) :
  frames p Q m -> frames p Q (atomic m).
Proof.
  intros Hm w. unfold atomic. destruct (Hm w) as [H1 H2].
  destruct (m w) as [a w1|e w1]; simpl in *.
  - split; [exact H1|]. intros a' w' H. inversion H; subst. eauto.
  - split; [reflexivity|discriminate].
Qed.

Lemma frames_with_world (p : nat) {A} (Q : A -> Prop) (f : World -> M A) :
  (forall w0, frames p Q (f w0)) -> frames p Q (with_world f).
Proof. intros H w. apply (H w w). Qed.

Lemma frames_set_processing_state (p : nat) (r : Resource)
    (s : ProcessingState) :
  pk r = Some p ->
  frames p (fun a => a = mark s r) (set_processing_state r s).
Proof.
  intros Hp w. unfold set_processing_state, bind, modify, emit, ret. simpl.
  split.
  - rewrite Hp. apply other_rows_update_rows.
    intros x Hx. rewrite pk_mark. exact Hx.
  - intros a w' H. inversion H. reflexivity.
Qed.

Lemma frames_set_dirty_state (p : nat) (r : Resource) :
  pk r = Some p ->
  frames p (fun a => a = with_dirty r true) (set_dirty_state r).
Proof.
  intros Hp w. unfold set_dirty_state, bind, modify, emit, ret. simpl.
  split.
  - rewrite Hp. apply other_rows_update_rows. intros x Hx. exact Hx.
  - intros a w' H. inversion H. reflexivity.
Qed.

Lemma frames_save (p : nat) (r : Resource) :
  pk r = Some p -> frames p (fun a => a = r) (save r).
Proof.
  intros Hp w. unfold save. rewrite Hp.
  destruct (has_pk p (rows w)); simpl; split.
  - apply other_rows_update_rows. intros x _. exact Hp.
  - intros a w' H. inversion H. reflexivity.
  - apply other_rows_app_own. exact Hp.
  - intros a w' H. inversion H. reflexivity.
Qed.

Lemma read_only_try_except {A} (m : M A) (h : Exn -> M A) :
  read_only m -> (forall e, read_only (h e)) -> read_only (try_except m h).
Proof.
  intros Hm Hh w. unfold try_except. specialize (Hm w).
  destruct (m w) as [a w'|e w']; simpl in *; auto.
  rewrite Hh. exact Hm.
Qed.

Lemma read_only_update_metadata (env : Collaborators) (u : option string)
    (xml : option string) (md : bool) :
  read_only (update_metadata env u xml md).
Proof.
  unfold update_metadata.
  destruct md; [|apply read_only_ret].
  destruct (truthy xml); [|apply read_only_ret].
  apply read_only_bind; [|intro; read_only_tac].
  apply read_only_try_except; [apply read_only_call|intro].
  unfold logger_exception. read_only_tac.
Qed.

Lemma frames_update_transaction (p : nat) (env : Collaborators)
    (u : option string) (r : Resource) (xml : option string) (md : bool) :
  pk r = Some p ->
  frames p (fun a => a = r) (update_transaction env u r xml md).
Proof.
  intro Hp. unfold update_transaction.
  apply frames_atomic.
  eapply frames_bind;
    [apply frames_read_only, read_only_update_metadata|intros _ _].
  eapply frames_bind; [apply frames_save; exact Hp|intros a ->].
  eapply frames_bind; [apply frames_read_only, read_only_call|intros _ _].
  eapply frames_bind; [apply frames_read_only, read_only_call|intros _ _].
  eapply frames_bind; [apply frames_read_only, read_only_call|intros _ _].
  eapply frames_bind; [apply frames_read_only, read_only_gets|intros b _].
  eapply frames_bind; [|intros _ _; apply frames_ret].
  apply frames_read_only. destruct b; auto with read_only.
Qed.

Lemma instance_in_try_pk (env : Collaborators) (u : option string)
    (r : Resource) (xml : option string) (md : bool) (w : World) (p : nat) :
  pk r = Some p -> pk (instance_in_try env u r xml md w) = Some p.
Proof.
  intro Hp. unfold instance_in_try.
  destruct (update_metadata env u xml md w) as [[] w1|]; auto.
  destruct (save r w1) as [r1 w2|] eqn:E; auto.
  destruct (save_row_is_instance _ _ _ _ _ E Hp) as [-> _]. exact Hp.
Qed.

Lemma frames_update (p : nat) (env : Collaborators) (u : option string)
    (r : Resource) (xml : option string) (md : bool) (vals : Vals)
    (notify : bool) :
  pk r = Some p ->
  frames p (fun _ => True) (update env u (Some r) xml md vals notify).
Proof.
  intro Hp. unfold update. cbn [resolve].
  eapply frames_bind; [apply frames_read_only, read_only_emit|intros _ _].
  eapply frames_bind; [apply frames_ret|intros a ->].
  eapply frames_bind;
    [apply frames_set_processing_state; exact Hp|intros a ->].
  unfold set_missing_info.
  eapply frames_bind; [apply frames_ret|intros a ->].
  eapply frames_bind with (Q := fun _ => True);
    [|intros r' _;
      eapply frames_bind with (Q := fun _ => True);
      [apply frames_read_only; unfold resourcebase_post_save;
       apply read_only_emit
      |intros _ _;
       apply (frames_weaken p (fun x => x = Some r')); auto;
       apply frames_ret]].
  apply frames_with_world. intro w0.
  apply frames_try_except.
  - eapply frames_bind;
      [apply frames_update_transaction; rewrite <- Hp; reflexivity
      |intros a ->].
    eapply frames_bind;
      [apply frames_set_processing_state; rewrite <- Hp; reflexivity
      |intros a ->].
    apply (frames_weaken p (fun x => x = mark STATE_PROCESSED
             (with_metadata_uploaded (mark STATE_RUNNING r) md))); auto.
    apply frames_save. rewrite <- Hp. reflexivity.
  - intro e. unfold update_failed.
    eapply frames_bind;
      [apply frames_read_only; unfold logger_exception;
       apply read_only_emit|intros _ _].
    eapply frames_bind;
      [apply frames_set_processing_state, instance_in_try_pk;
       rewrite <- Hp; reflexivity
      |intros a ->].
    apply (frames_weaken p
             (fun x => x = with_dirty
                (mark STATE_INVALID
                   (instance_in_try env u
                      (with_metadata_uploaded (mark STATE_RUNNING r) md)
                      xml md w0)) true)); auto.
    apply frames_set_dirty_state. rewrite pk_mark.
    apply instance_in_try_pk. rewrite <- Hp. reflexivity.
Qed.

Lemma update_resolved (env : Collaborators) (u : option string)
    (instance : option Resource) (xml : option string) (md : bool)
    (vals : Vals) (notify : bool) (w : World) (r : Resource) :
  resolved u instance w = Some r ->
  update env u instance xml md vals notify w
  = update env u (Some r) xml md vals notify w.
Proof.
  intro Hr. unfold update.
  rewrite (bind_Ret _ _ w tt (add_log (EvOp (OpUpdate u vals)) w))
    by reflexivity.
  rewrite (bind_Ret _ _ w tt (add_log (EvOp (OpUpdate u vals)) w))
    by reflexivity.
  rewrite (bind_Ret _ _ _ (Some r) (add_log (EvOp (OpUpdate u vals)) w))
    by (rewrite resolve_resolved; f_equal; rewrite <- Hr; reflexivity).
  reflexivity.
Qed.

Lemma keeps_grants_save (J : list Grant -> Prop) (r : Resource) :
  keeps_grants J (save r).
Proof.
  intros w H. unfold save.
  destruct (pk r) as [q|]; [destruct (has_pk q (rows w))|]; exact H.
Qed.

Lemma keeps_grants_with_world (J : list Grant -> Prop) {A}
    (f : World -> M A) :
  (forall w0, keeps_grants J (f w0)) -> keeps_grants J (with_world f).
Proof. intros H w. apply (H w w). Qed.

Lemma keeps_grants_update (J : list Grant -> Prop) (env : Collaborators)
    (u : option string) (i : option Resource) (xml : option string)
    (md : bool) (vals : Vals) (notify : bool) :
  keeps_grants J (update env u i xml md vals notify).
Proof.
  unfold update, update_transaction, update_metadata, update_failed,
    resourcebase_post_save, set_missing_info.
  repeat
    match goal with
    | |- keeps_grants _ (resolve _ _) => apply keeps_grants_resolve
    | |- keeps_grants _ (save _) => apply keeps_grants_save
    | |- keeps_grants _ (with_world _) =>
        apply keeps_grants_with_world; intro
    | |- _ => grants_step
    end.
Qed.

(** X19.  [update] touches the rows of no other resource and no grant:
    whatever the collaborators do and whether its block succeeds or is
    rolled back, the rows under every key but the key of the instance are
    afterwards the same, in the same order, and the grants are unchanged. *)
Theorem update_touches_no_other_rows (env : Collaborators)
    (u : option string) (instance : option Resource)
    (xml_file : option string) (metadata_uploaded_ : bool) (vals : Vals)
    (notify : bool) (w : World) (r : Resource) (p : nat) :
  resolved u instance w = Some r -> pk r = Some p ->
  other_rows p
    (rows (world_of (update env u instance xml_file metadata_uploaded_ vals
                       notify w)))
  = other_rows p (rows w)
  /\ grants (world_of (update env u instance xml_file metadata_uploaded_
                         vals notify w))
     = grants w.
Proof.
  intros Hr Hp. split.
  - rewrite (update_resolved env u instance xml_file metadata_uploaded_ vals
               notify w r Hr).
    apply (frames_update p env u r xml_file metadata_uploaded_ vals notify
             Hp).
  - apply (keeps_grants_update (fun gs => gs = grants w) env u instance
             xml_file metadata_uploaded_ vals notify w eq_refl).
Qed.

Lemma update_touches_no_other_rows_witness :
  other_rows 3
    (rows (world_of
       (update (collaborators_with all_fault empty_spec true)
          (Some "uuid-report") None None false [] true store)))
  = other_rows 3 (rows store)
  /\ grants (world_of
               (update (collaborators_with all_fault empty_spec true)
                  (Some "uuid-report") None None false [] true store))
     = grants store.
Proof.
  apply (update_touches_no_other_rows
           (collaborators_with all_fault empty_spec true)
           (Some "uuid-report") None None false [] true store report 3).
  - reflexivity.
  - reflexivity.
Defined.

(** *** [replace] and [exec] *)

(** [storage_manager.replace(instance, files)]: it raises, or gives the
    field values that [replace] merges into [vals]. *)
Definition StorageReplace : Type := Resource -> string -> World -> Exn + Vals.

(** [vals.get('files', None)], when it is true in Python's sense. *)
Definition files_of (vals : Vals) : option string :=
  match dict_get String.eqb "files" vals with
  | Some f => if String.eqb f "" then None else Some f
  | None => None
  end.

(** The part of [replace] that puts the new files in place. *)
Definition replace_files (storage_replace : StorageReplace)
    (instance : Resource) (vals : Vals) : M Vals :=
  match files_of vals with
  | Some f =>
      fun w =>
        match storage_replace instance f w with
        | inl e => Exc e w
        | inr d => Ret (dict_update vals d) w
        end
  | None => ret vals
  end.

(** [ResourceManager.replace] *)
Definition replace (env : Collaborators) (storage_replace : StorageReplace)
    (instance : Resource) (vals : Vals) : M (option Resource) :=
  ok <- _validate_resource env instance "replace" ;;
  if ok then
    vals' <- replace_files storage_replace instance vals ;;
    call env BackendReplace (uuid instance) ;;;
    let to_update := dict_pop String.eqb "user" vals' in
    update env (Some (uuid instance)) (Some instance) None false to_update
      true
  else ret (Some instance).

(** The methods of the concrete manager that [exec] can reach by name. *)
Definition Methods : Type :=
  string -> option (option string -> Resource -> M (option Resource)).

(** [ResourceManager.exec], decorated with [transaction.atomic] *)
Definition exec (methods : Methods) (method : string) (u : option string)
    (instance : option Resource) : M (option Resource) :=
  atomic
    (_resource <- resolve u instance ;;
     match _resource with
     | Some r =>
         match methods method with
         | Some _method => _method u r
         | None => ret instance
         end
     | None => ret instance
     end).

(** X20.  [replace] validates before it replaces.  A document is replaced
    without asking the concrete manager whether it exists: the files are
    put in place, the concrete manager replaces, and one [update] of the
    instance with the ['user'] entry taken out of the values follows.  Any
    other resource that the concrete manager does not know makes [replace]
    raise [ObjectDoesNotExist] before the storage or the concrete manager
    replace anything. *)
Theorem replace_validates_first (env : Collaborators)
    (storage_replace : StorageReplace) (instance : Resource) (vals : Vals)
    (w : World) :
  (forall w1, raises env BackendExists (uuid instance) w1 = None) ->
  (isinstance instance Document = true ->
   replace env storage_replace instance vals w
   = (vals' <- replace_files storage_replace instance vals ;;
      call env BackendReplace (uuid instance) ;;;
      update env (Some (uuid instance)) (Some instance) None false
        (dict_pop String.eqb "user" vals') true) w)
  /\ (isinstance instance Document = false ->
      backend_exists env instance
        (add_log (EvCall BackendExists (uuid instance)) w) = false ->
      replace env storage_replace instance vals w
      = Exc (ObjectDoesNotExist "Resource does not exists")
          (add_log (EvCall BackendExists (uuid instance)) w)).
Proof.
  intro Hr. split.
  - intro Hd. unfold replace, _validate_resource. rewrite Hd.
    replace (String.eqb "replace" "append") with false by reflexivity.
    rewrite andb_false_r. cbn [andb].
    replace (String.eqb "replace" "replace") with true by reflexivity.
    rewrite (bind_Ret _ _ w true w) by reflexivity. reflexivity.
  - intros Hd He. unfold replace, _validate_resource. rewrite Hd.
    replace (String.eqb "replace" "append") with false by reflexivity.
    rewrite andb_false_r. cbn [andb].
    apply bind_Exc.
    rewrite (bind_Ret _ _ _ tt
               (add_log (EvCall BackendExists (uuid instance)) w))
      by (apply call_ok, Hr).
    unfold bind, gets. rewrite He. reflexivity.
Qed.

(** The storage has nothing to replace and no call fails. *)
Definition no_replacement : StorageReplace := fun _ _ _ => inr [].

Lemma replace_validates_first_witness :
  (isinstance relief Document = true ->
   replace (collaborators_with no_fault empty_spec false) no_replacement
     relief [("user", "alice")] store
   = (vals' <- replace_files no_replacement relief [("user", "alice")] ;;
      call (collaborators_with no_fault empty_spec false) BackendReplace
        (uuid relief) ;;;
      update (collaborators_with no_fault empty_spec false)
        (Some (uuid relief)) (Some relief) None false
        (dict_pop String.eqb "user" vals') true) store)
  /\ (isinstance relief Document = false ->
      backend_exists (collaborators_with no_fault empty_spec false) relief
        (add_log (EvCall BackendExists (uuid relief)) store) = false ->
      replace (collaborators_with no_fault empty_spec false) no_replacement
        relief [("user", "alice")] store
      = Exc (ObjectDoesNotExist "Resource does not exists")
          (add_log (EvCall BackendExists (uuid relief)) store)).
Proof.
  apply (replace_validates_first
           (collaborators_with no_fault empty_spec false) no_replacement
           relief [("user", "alice")] store).
  intro w1. reflexivity.
Defined.

(** A document that the concrete manager does not know is replaced all the
    same; a dataset it does not know is not. *)
Example replace_unknown_document_and_dataset :
  (exists r' w',
     replace (collaborators_with no_fault empty_spec false) no_replacement
       report [] store = Ret (Some r') w'
     /\ state r' = STATE_PROCESSED
     /\ In (EvCall BackendReplace "uuid-report") (log w'))
  /\ replace (collaborators_with no_fault empty_spec false) no_replacement
       relief [] store
     = Exc (ObjectDoesNotExist "Resource does not exists")
         (add_log (EvCall BackendExists "uuid-relief") store).
Proof.
  split.
  - eexists. eexists. split; [vm_compute; reflexivity|].
    split; [reflexivity|].
    vm_compute. repeat (first [left; reflexivity | right]).
  - vm_compute. reflexivity.
Qed.

(** X21.  [exec] is all or nothing and does nothing for a method the
    concrete manager lacks: when the method raises, the rows and the grants
    are those from before the call, whatever the method had done; when the
    concrete manager has no method of that name, [exec] gives back the
    [instance] argument as it was passed ([None] when only a uuid was
    given, even if that uuid resolves) and leaves the world as it is. *)
Theorem exec_all_or_nothing (methods : Methods) (method : string)
    (u : option string) (instance : option Resource) (w : World) :
  (forall e w',
     exec methods method u instance w = Exc e w' ->
     rows w' = rows w /\ grants w' = grants w)
  /\ (methods method = None ->
      exec methods method u instance w = Ret instance w).
Proof.
  split.
  - intros e w' H. unfold exec in H. exact (atomic_Exc _ _ _ _ H).
  - intro Hm. unfold exec, atomic.
    rewrite (bind_Ret _ _ w (resolved u instance w) w)
      by apply resolve_resolved.
    rewrite Hm. destruct (resolved u instance w); reflexivity.
Qed.
